(** * arxiv-semantic-search: crawl-to-index ingestion pipeline

    A shallow embedding of the ingestion pipeline
    (src/datasource/arxiv_crawler.py, src/preprocess/pdf_parser.py,
    src/preprocess/llm_extract.py, src/preprocess/preprocess.py,
    src/index/build_index.py) together with the properties of its
    harvesting, enrichment and index-build stages.

    Layout: the Python runtime fragments the code relies on ([Py]), one
    module per source file, the vocabulary used to state the properties,
    sample data, and finally the lemmas and theorems. *)

From Stdlib Require Import ZArith String Ascii List Bool Lia DecimalString.
From stdpp Require Import base list strings gmap.

Set Warnings "-register-all".

Local Open Scope string_scope.
Local Open Scope Z_scope.

(* ===================================================================== *)
(** * Python runtime fragments *)
(* ===================================================================== *)

Module Py.

(** Exceptions that the modelled code raises, catches or lets through. *)
Inductive exn : Type :=
| KeyError (key : string)
| ValueError (msg : string)
| AttributeError
| TypeError
| IndexError
| FileNotFoundError (msg : string)
| JSONDecodeError
| RequestException
| OSError.

(** The outcome of a call: a value or a raised exception. *)
Inductive outcome (A : Type) : Type :=
| Returns (a : A)
| Raises (e : exn).
Arguments Returns {A} a.
Arguments Raises {A} e.

Definition obind {A B} (m : outcome A) (k : A -> outcome B) : outcome B :=
  match m with
  | Returns a => k a
  | Raises e => Raises e
  end.

Definition returned {A} (m : outcome A) : bool :=
  match m with Returns _ => true | Raises _ => false end.

(** ** Strings (a [string] holds the UTF-8 bytes of a Python [str]) *)

Definition newline : ascii := "010"%char.
Definition NL : string := String newline EmptyString.

(** [str.isspace] on the ASCII range: TAB..CR, FS..US and the blank. *)
Definition is_space (c : ascii) : bool :=
  let n := nat_of_ascii c in
  ((9 <=? n)%nat && (n <=? 13)%nat) || ((28 <=? n)%nat && (n <=? 32)%nat).

Fixpoint lstrip (s : string) : string :=
  match s with
  | EmptyString => EmptyString
  | String c r => if is_space c then lstrip r else s
  end.

Fixpoint rstrip (s : string) : string :=
  match s with
  | EmptyString => EmptyString
  | String c r =>
      match rstrip r with
      | EmptyString => if is_space c then EmptyString else String c EmptyString
      | r' => String c r'
      end
  end.

(** [s.strip()] *)
Definition strip (s : string) : string := rstrip (lstrip s).

(** Truthiness of a [str]: non-empty. *)
Definition truthy (s : string) : bool :=
  match s with EmptyString => false | _ => true end.

(** [s.rsplit(sep, 1)[-1]] for a one-character separator: the part after
    the last separator, the whole string when there is none. *)
Fixpoint rsplit_last_from (sep : ascii) (acc s : string) : string :=
  match s with
  | EmptyString => acc
  | String c r =>
      if Ascii.eqb c sep then rsplit_last_from sep EmptyString r
      else rsplit_last_from sep (acc +:+ String c EmptyString) r
  end.

Definition rsplit_last (sep : ascii) (s : string) : string :=
  rsplit_last_from sep EmptyString s.

(** [s.replace(a, b)] for one-character [a] and [b]. *)
Fixpoint replace_char (a b : ascii) (s : string) : string :=
  match s with
  | EmptyString => EmptyString
  | String c r => String (if Ascii.eqb c a then b else c) (replace_char a b r)
  end.

(** [s.replace(old, new)] for a non-empty [old]: occurrences are replaced
    left to right without overlap; [skip] counts the characters of a
    matched occurrence still to be dropped. *)
Fixpoint replace_from (old new : string) (skip : nat) (s : string) : string :=
  match s with
  | EmptyString => EmptyString
  | String c r =>
      match skip with
      | S k => replace_from old new k r
      | O =>
          if String.prefix old s
          then new +:+ replace_from old new (Nat.pred (String.length old)) r
          else String c (replace_from old new O r)
      end
  end.

Definition replace (old new s : string) : string := replace_from old new O s.

(** [s[:n]] *)
Definition slice_to (n : nat) (s : string) : string := String.substring 0 n s.

(** [sep.join(parts)] *)
Definition join (sep : string) (parts : list string) : string :=
  String.concat sep parts.

(** Text-mode iteration over a file: the lines, without their
    terminators; a final line is produced only when it is not empty. *)
Fixpoint lines_from (acc s : string) : list string :=
  match s with
  | EmptyString => match acc with EmptyString => [] | _ => [acc] end
  | String c r =>
      if Ascii.eqb c newline then acc :: lines_from EmptyString r
      else lines_from (acc +:+ String c EmptyString) r
  end.

Definition lines (s : string) : list string := lines_from EmptyString s.

(** [if line.strip()] *)
Definition nonblank (line : string) : bool := truthy (strip line).

(** ** JSON values, as [json.loads] produces and [json.dumps] consumes
    them (numbers are restricted to integers). *)

Inductive json : Type :=
| JNull
| JBool (b : bool)
| JNum (z : Z)
| JStr (s : string)
| JArr (items : list json)
| JObj (members : list (string * json)).

(** Induction over values, through the lists of arrays and objects. *)
Fixpoint json_nested_ind (P : json -> Prop)
    (Hnull : P JNull) (Hbool : forall b, P (JBool b)) (Hnum : forall z, P (JNum z))
    (Hstr : forall s, P (JStr s))
    (Harr : forall items, Forall P items -> P (JArr items))
    (Hobj : forall members, Forall (fun kv => P (snd kv)) members -> P (JObj members))
    (v : json) {struct v} : P v :=
  match v with
  | JNull => Hnull
  | JBool b => Hbool b
  | JNum z => Hnum z
  | JStr s => Hstr s
  | JArr items =>
      Harr items
        ((fix go (l : list json) : Forall P l :=
            match l with
            | [] => List.Forall_nil P
            | x :: r =>
                @List.Forall_cons _ P x r
                  (json_nested_ind P Hnull Hbool Hnum Hstr Harr Hobj x) (go r)
            end) items)
  | JObj members =>
      Hobj members
        ((fix go (l : list (string * json)) : Forall (fun kv => P (snd kv)) l :=
            match l with
            | [] => List.Forall_nil _
            | kv :: r =>
                @List.Forall_cons _ (fun kv => P (snd kv)) kv r
                  (json_nested_ind P Hnull Hbool Hnum Hstr Harr Hobj (snd kv)) (go r)
            end) members)
  end.

(** A Python [dict] with string keys, in insertion order. *)
Abbreviation dict := (list (string * json)).

(** [d.get(k)] *)
Fixpoint dict_get (k : string) (d : dict) : option json :=
  match d with
  | [] => None
  | (k', v) :: r => if String.eqb k k' then Some v else dict_get k r
  end.

(** [d.get(k, dflt)] *)
Definition dict_get_or (k : string) (dflt : json) (d : dict) : json :=
  match dict_get k d with Some v => v | None => dflt end.

(** [d[k] = v]: an existing key keeps its position. *)
Fixpoint dict_set (k : string) (v : json) (d : dict) : dict :=
  match d with
  | [] => [(k, v)]
  | (k', v') :: r =>
      if String.eqb k k' then (k', v) :: r else (k', v') :: dict_set k v r
  end.

Definition dict_keys (d : dict) : list string := map fst d.

Definition has_key (k : string) (d : dict) : bool :=
  match dict_get k d with Some _ => true | None => false end.

(** Truthiness of a value. *)
Definition json_truthy (v : json) : bool :=
  match v with
  | JNull => false
  | JBool b => b
  | JNum z => negb (z =? 0)
  | JStr s => truthy s
  | JArr l => match l with [] => false | _ => true end
  | JObj m => match m with [] => false | _ => true end
  end.

Definition opt_str (o : option string) : json :=
  match o with Some s => JStr s | None => JNull end.

Definition str_list (l : list string) : json := JArr (map JStr l).

(** ** [json.dumps(v, ensure_ascii=False)] *)

Definition dquote : ascii := "034"%char.

Definition hex_digit (n : nat) : ascii :=
  ascii_of_nat (if (n <? 10)%nat then 48 + n else 87 + n)%nat.

(** The encoder's escape table: the named escapes, [\u00XX] for the
    other control characters, every other byte unchanged. *)
Definition escape_char (c : ascii) : string :=
  let n := nat_of_ascii c in
  if (n =? 34)%nat then String "\" (String dquote EmptyString)
  else if (n =? 92)%nat then "\\"
  else if (n =? 10)%nat then "\n"
  else if (n =? 13)%nat then "\r"
  else if (n =? 9)%nat then "\t"
  else if (n =? 8)%nat then "\b"
  else if (n =? 12)%nat then "\f"
  else if (n <? 32)%nat
       then "\u00" +:+ String (hex_digit (n / 16)) (String (hex_digit (n mod 16)) EmptyString)
  else String c EmptyString.

Fixpoint escape (s : string) : string :=
  match s with
  | EmptyString => EmptyString
  | String c r => escape_char c +:+ escape r
  end.

Definition quote (s : string) : string :=
  String dquote (escape s) +:+ String dquote EmptyString.

Fixpoint json_dumps (v : json) : string :=
  match v with
  | JNull => "null"
  | JBool true => "true"
  | JBool false => "false"
  | JNum z => NilZero.string_of_int (Z.to_int z)
  | JStr s => quote s
  | JArr items => "[" +:+ join ", " (map json_dumps items) +:+ "]"
  | JObj members =>
      "{" +:+ join ", "
               (map (fun kv : string * json =>
                       let (k, x) := kv in quote k +:+ ": " +:+ json_dumps x)
                    members)
          +:+ "}"
  end.

(** ** Reading a JSON-lines file

    [[json.loads(line) for line in f if line.strip()]], where [loads]
    stands for [json.loads] ([None]: it raises [JSONDecodeError]; an
    object it returns has each key once).  Lines are handed over without
    their terminator, which the parser skips as white space. *)
Fixpoint load_records (loads : string -> option json) (ls : list string)
  : outcome (list json) :=
  match ls with
  | [] => Returns []
  | l :: r =>
      if nonblank l then
        match loads l with
        | None => Raises JSONDecodeError
        | Some v => obind (load_records loads r) (fun vs => Returns (v :: vs))
        end
      else load_records loads r
  end.

End Py.

(* ===================================================================== *)
(** * Files and directories *)
(* ===================================================================== *)

Module Fs.

Inductive encoding : Type := UTF8 | LocaleDefault.

(** A text file: the encoding it was opened with and its text. *)
Record file : Type := mkFile { f_encoding : encoding; f_text : string }.

(** A directory: file names with their files, in the order in which the
    directory enumerates them; names are unique. *)
Abbreviation dir := (list (string * file)).

Fixpoint dir_read (name : string) (d : dir) : option file :=
  match d with
  | [] => None
  | (n, f) :: r => if String.eqb name n then Some f else dir_read name r
  end.

(** [open(path, "w")] followed by writes: an existing file is replaced. *)
Fixpoint dir_write (name : string) (f : file) (d : dir) : dir :=
  match d with
  | [] => [(name, f)]
  | (n, g) :: r =>
      if String.eqb name n then (n, f) :: r else (n, g) :: dir_write name f r
  end.

(** [Path.unlink] *)
Fixpoint dir_unlink (name : string) (d : dir) : dir :=
  match d with
  | [] => []
  | (n, g) :: r =>
      if String.eqb name n then dir_unlink name r else (n, g) :: dir_unlink name r
  end.

Definition dir_names (d : dir) : list string := map fst d.

(** The last [n] characters of [s], in reverse order. *)
Definition rev_tail (n : nat) (s : string) : list ascii :=
  take n (rev (list_ascii_of_string s)).

(** [fnmatch(name, "*.jsonl")] *)
Definition is_jsonl (name : string) : bool :=
  bool_decide (rev_tail 6 name = rev (list_ascii_of_string ".jsonl")).

(** [DIR.glob("*.jsonl")], in enumeration order. *)
Definition glob_jsonl (d : dir) : list (string * file) :=
  filter (fun nf => is_jsonl nf.1 = true) d.

End Fs.

(* ===================================================================== *)
(** * src/datasource/arxiv_crawler.py *)
(* ===================================================================== *)

Module Crawler.
Import Py Fs.

(** ** Feed entries, as [feedparser] hands them over *)

Record Author : Type := mkAuthor { author_name : option string }.
Record Tag : Type := mkTag { tag_term : option string }.
Record Link : Type := mkLink { link_type : option string; link_href : option string }.

Record Entry : Type := mkEntry {
  e_id : option string;
  e_title : option string;
  e_summary : option string;
  e_authors : list Author;
  e_tags : list Tag;
  e_arxiv_primary_category : option Tag;
  e_links : list Link;
  e_published : option string;
  e_updated : option string;
  e_arxiv_comment : option string;
  e_arxiv_journal_ref : option string;
  e_arxiv_doi : option string
}.

(** The record [entry_to_rawdoc] builds; every key is always present. *)
Record RawDoc : Type := mkRawDoc {
  arxiv_id : string;
  title : string;
  abstract : string;
  authors : list string;
  primary_category : string;
  categories : list string;
  published : option string;
  updated : option string;
  url_abs : option string;
  url_pdf : option string;
  comment : option string;
  journal_ref : option string;
  doi : option string;
  crawl_date : option string
}.

(** The [dict] behind a [RawDoc], keys in the order of the literal. *)
Definition rawdoc_dict (d : RawDoc) : dict :=
  [ ("arxiv_id", JStr (arxiv_id d));
    ("title", JStr (title d));
    ("abstract", JStr (abstract d));
    ("authors", str_list (authors d));
    ("primary_category", JStr (primary_category d));
    ("categories", str_list (categories d));
    ("published", opt_str (published d));
    ("updated", opt_str (updated d));
    ("url_abs", opt_str (url_abs d));
    ("url_pdf", opt_str (url_pdf d));
    ("comment", opt_str (comment d));
    ("journal_ref", opt_str (journal_ref d));
    ("doi", opt_str (doi d));
    ("crawl_date", opt_str (crawl_date d)) ].

(** [x or EmptyString] for an optional string. *)
Definition or_empty (o : option string) : string :=
  match o with Some s => s | None => EmptyString end.

(** The truthy values of an optional attribute over a list. *)
Definition truthy_values {A} (get : A -> option string) (l : list A) : list string :=
  omap (fun a => match get a with
                 | Some s => if truthy s then Some s else None
                 | None => None
                 end) l.

(** The loop over [links]: the [href] of the first PDF link. *)
Fixpoint first_pdf_href (links : list Link) : option string :=
  match links with
  | [] => None
  | l :: r =>
      if bool_decide (link_type l = Some "application/pdf") then link_href l
      else first_pdf_href r
  end.

(** ** Helpers *)

Definition build_query (categories : list string) (query : option string) : string :=
  let cats := filter (fun c => truthy c = true) (map strip categories) in
  let cat_clause := join " OR " (map (fun c => "cat:" +:+ c) cats) in
  let cat_clause := if truthy cat_clause then "(" +:+ cat_clause +:+ ")" else EmptyString in
  let q := or_empty query in
  if truthy q && truthy cat_clause then cat_clause +:+ " AND " +:+ q
  else if truthy q then q
  else if truthy cat_clause then cat_clause
  else "all".

Definition entry_to_rawdoc (e : Entry) (crawl_date : option string) : RawDoc :=
  {| arxiv_id := rsplit_last "/" (or_empty (e_id e));
     title := strip (or_empty (e_title e));
     abstract := strip (or_empty (e_summary e));
     authors := truthy_values author_name (e_authors e);
     primary_category :=
       match e_arxiv_primary_category e with
       | Some t => or_empty (tag_term t)
       | None => EmptyString
       end;
     categories := truthy_values tag_term (e_tags e);
     published := e_published e;
     updated := e_updated e;
     url_abs := e_id e;
     url_pdf := first_pdf_href (e_links e);
     comment := e_arxiv_comment e;
     journal_ref := e_arxiv_journal_ref e;
     doi := e_arxiv_doi e;
     crawl_date := crawl_date |}.

(** The body of [_write_jsonl]: [buf] is what has been written, [i] the
    index of the next document, [n] is [len(docs)]. *)
Fixpoint write_jsonl_from (n : Z) (i : Z) (docs : list dict) (buf : string) : string :=
  match docs with
  | [] => buf
  | d :: r =>
      let buf := buf +:+ json_dumps (JObj d) in
      let buf := if i <? n - 1 then buf +:+ NL else buf in
      write_jsonl_from n (i + 1) r buf
  end.

Definition _write_jsonl (name : string) (docs : list dict) (raw : dir) : dir :=
  dir_write name (mkFile UTF8 (write_jsonl_from (Z.of_nat (length docs)) 0 docs EmptyString)) raw.

(** ** Core fetcher *)

Record Request : Type := mkRequest {
  search_query : string;
  sortBy : string;
  sortOrder : string;
  start : Z;
  req_max_results : Z
}.

(** What [requests.get] does with a page request: it raises (time-out,
    connection failure) or hands back a response, whose body
    [feedparser] turns into entries. *)
Inductive Reply : Type :=
| Fails (e : exn)
| Response (status_code : Z) (entries : list Entry).

(** The feed as the harvester meets it.  The requests of one run differ
    in their [start], so a function of the request stands for any
    sequence of replies. *)
Definition Feed : Type := Request -> Reply.

(** The [while] loop of [_fetch_results].  Each turn either leaves the
    loop or adds at least one entry, so [fuel] bounds the number of
    turns; [None] means that the fuel ran out.  The progress bar, the
    verbose prints and the pause after each page are left out; the
    [finally] clause only closes the progress bar, so that an exception
    of the request goes on to the caller. *)
Fixpoint fetch_loop (fuel : nat) (feed : Feed) (query : string) (max_results : Z)
    (results : list Entry) (fetched : Z) : option (outcome (list Entry)) :=
  if fetched <? max_results then
    match fuel with
    | O => None
    | S fuel' =>
        let ask := Z.min 2000 (max_results - fetched) in
        match feed (mkRequest query "submittedDate" "descending" fetched ask) with
        | Fails e => Some (Raises e)
        | Response status_code entries =>
            if negb (status_code =? 200) then Some (Returns results)
            else
              match entries with
              | [] => Some (Returns results)
              | _ :: _ =>
                  fetch_loop fuel' feed query max_results
                    (results ++ entries) (fetched + Z.of_nat (length entries))
              end
        end
    end
  else Some (Returns results).

Definition _fetch_results (feed : Feed) (query : string) (max_results : Z)
  : option (outcome (list Entry)) :=
  fetch_loop (Z.to_nat max_results) feed query max_results [] 0.

(** ** Main crawler *)

(** The de-duplication loop. *)
Fixpoint dedupe_from (seen : gset string) (deduped : list RawDoc) (rawdocs : list RawDoc)
  : list RawDoc :=
  match rawdocs with
  | [] => deduped
  | d :: r =>
      let aid := arxiv_id d in
      if truthy aid && bool_decide (aid ∉ seen)
      then dedupe_from ({[aid]} ∪ seen) (deduped ++ [d]) r
      else dedupe_from seen deduped r
  end.

Definition dedupe (rawdocs : list RawDoc) : list RawDoc := dedupe_from ∅ [] rawdocs.

Definition cats_name (categories : list string) : string :=
  let s := join "-" (map (replace_char "." "_") categories) in
  if truthy s then s else "all".

Definition out_name (timestamp : string) (categories : list string) : string :=
  timestamp +:+ "_" +:+ cats_name categories +:+ ".jsonl".

(** [crawl_arxiv_to_jsonl]: [timestamp] is the formatted [datetime.now()],
    [cwd] the working directory, [raw] the content of [data/raw].  The
    result is the returned pair and the directory after the write. *)
Definition crawl_arxiv_to_jsonl (feed : Feed) (timestamp cwd : string) (raw : dir)
    (categories : list string) (max_results : Z) (query : option string)
  : option (outcome ((nat * string) * dir)) :=
  let name := out_name timestamp categories in
  let outpath := "data/raw/" +:+ name in
  let crawl_date := slice_to 8 timestamp in
  let full_query := build_query categories query in
  match _fetch_results feed full_query max_results with
  | None => None
  | Some (Raises e) => Some (Raises e)
  | Some (Returns entries) =>
      let rawdocs := map (fun e => entry_to_rawdoc e (Some crawl_date)) entries in
      let deduped := dedupe rawdocs in
      let raw' := _write_jsonl name (map rawdoc_dict deduped) raw in
      Some (Returns ((length deduped, cwd +:+ "/" +:+ outpath), raw'))
  end.

End Crawler.

(* ===================================================================== *)
(** * The enrichment stage's world: disk, console and external services *)
(* ===================================================================== *)

Module Sys.
Import Py Fs.

(** A line printed to the console: the message and the identifier or
    file it names (the text of the caught exception is left out). *)
Inductive event : Type :=
| Warn (what : string) (about : option json)
| Info (what : string) (about : option json).

Record World : Type := mkWorld {
  clock : nat;                       (* external calls made so far *)
  raw_dir : dir;                     (* data/raw *)
  processed_dir : dir;               (* data/processed *)
  archive_dir : dir;                 (* data/archive *)
  pdf_cache : gmap string string;    (* data/pdf_cache: path to bytes *)
  stdout : list event
}.

(** [requests.get(url, stream=True)] and the copy of the body to the cache
    file: failure before the file is opened, failure while the body is
    copied (what was written stays on disk), or success. *)
Inductive Download : Type :=
| DlFails
| DlBroken (written : string)
| DlOk (body : string).

(** [fitz.open] and the first page: any exception, or the page count and
    the text of the first page. *)
Inductive PdfRead : Type :=
| PdfError
| PdfPages (page_count : nat) (first_page_text : option string).

(** The chat completion call: an exception, or the message content. *)
Inductive ChatReply : Type :=
| ChatFails (e : exn)
| ChatContent (content : option string).

(** Everything the stage takes from outside the repository.  Calls to
    services take the clock, so that their answers may change from one
    call to the next. *)
Record Env : Type := mkEnv {
  detect : nat -> string -> option string;   (* langdetect.detect; None: raises *)
  http_get : nat -> string -> Download;
  fitz_open : string -> PdfRead;
  chat : nat -> string -> ChatReply;
  json_loads : string -> option json;        (* None: JSONDecodeError *)
  cache_key : string -> string;              (* _extract_arxiv_id_from_url *)
  BASE_PROMPT : string;                      (* src/preprocess/prompt.txt *)
  NOMETADATA_PROMPT : string                 (* src/preprocess/prompt_nometadata.txt *)
}.

(** Computations over the world that may raise. *)
Definition M (A : Type) : Type := World -> outcome A * World.

Definition ret {A} (a : A) : M A := fun w => (Returns a, w).
Definition raise {A} (e : exn) : M A := fun w => (Raises e, w).

Definition bind {A B} (m : M A) (k : A -> M B) : M B :=
  fun w => match m w with
           | (Returns a, w') => k a w'
           | (Raises e, w') => (Raises e, w')
           end.

(** [try: m except Exception: h] *)
Definition try_except {A} (m : M A) (h : exn -> M A) : M A :=
  fun w => match m w with
           | (Returns a, w') => (Returns a, w')
           | (Raises e, w') => h e w'
           end.

Definition lift {A} (o : outcome A) : M A := fun w => (o, w).

Definition get_world : M World := fun w => (Returns w, w).

Definition tick : M nat :=
  fun w => (Returns (clock w),
            mkWorld (S (clock w)) (raw_dir w) (processed_dir w) (archive_dir w)
                    (pdf_cache w) (stdout w)).

Definition print (ev : event) : M unit :=
  fun w => (Returns tt,
            mkWorld (clock w) (raw_dir w) (processed_dir w) (archive_dir w)
                    (pdf_cache w) (stdout w ++ [ev])).

Definition set_pdf_cache (c : gmap string string) : M unit :=
  fun w => (Returns tt,
            mkWorld (clock w) (raw_dir w) (processed_dir w) (archive_dir w) c (stdout w)).

Definition set_dirs (raw processed archive : dir) : M unit :=
  fun w => (Returns tt, mkWorld (clock w) raw processed archive (pdf_cache w) (stdout w)).

(** [[f(x) for x in xs]] *)
Fixpoint mapM {A B} (f : A -> M B) (xs : list A) : M (list B) :=
  match xs with
  | [] => ret []
  | x :: r => bind (f x) (fun y => bind (mapM f r) (fun ys => ret (y :: ys)))
  end.

End Sys.

Declare Scope run_scope.
Delimit Scope run_scope with run.
Notation "'do' x <- m ; k" := (Sys.bind m (fun x => k))
  (at level 10, x name, m at level 100, k at level 200) : run_scope.
Notation "'do' ' pat <- m ; k" := (Sys.bind m (fun x => match x with pat => k end))
  (at level 10, pat pattern, m at level 100, k at level 200) : run_scope.
Notation "m ;; k" := (Sys.bind m (fun _ => k))
  (at level 100, k at level 200, right associativity) : run_scope.

(* ===================================================================== *)
(** * src/preprocess/pdf_parser.py *)
(* ===================================================================== *)

Module PdfParser.
Import Py Fs Sys.
Local Open Scope run_scope.

Definition _cached_pdf_path (env : Env) (url_pdf : string) : string :=
  "data/pdf_cache/" +:+ cache_key env url_pdf +:+ ".pdf".

(** [download_pdf]: the cache path, or [None] when the download failed. *)
Definition download_pdf (env : Env) (url_pdf : string) (force : bool) : M (option string) :=
  if negb (truthy url_pdf && String.prefix "http" url_pdf)
  then raise (ValueError "A valid arXiv PDF URL is required.")
  else
    let path := _cached_pdf_path env url_pdf in
    do w <- get_world;
    if bool_decide (is_Some (pdf_cache w !! path)) && negb force then ret (Some path)
    else
      do now <- tick;
      match http_get env now url_pdf with
      | DlFails =>
          print (Warn "Failed to download PDF" (Some (JStr url_pdf))) ;; ret None
      | DlBroken written =>
          set_pdf_cache (<[path := written]> (pdf_cache w)) ;;
          print (Warn "Failed to download PDF" (Some (JStr url_pdf))) ;; ret None
      | DlOk body =>
          set_pdf_cache (<[path := body]> (pdf_cache w)) ;; ret (Some path)
      end.

Definition extract_first_page_text_from_pdf (env : Env) (pdf_path : string) : M string :=
  do w <- get_world;
  match pdf_cache w !! pdf_path with
  | None => print (Warn "Failed to read PDF file" (Some (JStr pdf_path))) ;; ret EmptyString
  | Some bytes =>
      match fitz_open env bytes with
      | PdfError =>
          print (Warn "Failed to read PDF file" (Some (JStr pdf_path))) ;; ret EmptyString
      | PdfPages O _ => ret EmptyString
      | PdfPages (S _) text =>
          ret (strip (match text with Some t => t | None => EmptyString end))
      end
  end.

Definition extract_first_page_text (env : Env) (url_pdf : string) (force_redownload : bool)
  : M string :=
  do pdf_path <- download_pdf env url_pdf force_redownload;
  match pdf_path with
  | None => ret EmptyString
  | Some path =>
      do w <- get_world;
      if negb (bool_decide (is_Some (pdf_cache w !! path))) then ret EmptyString
      else extract_first_page_text_from_pdf env path
  end.

End PdfParser.

(* ===================================================================== *)
(** * src/preprocess/llm_extract.py *)
(* ===================================================================== *)

Module LlmExtract.
Import Py Fs Sys.
Local Open Scope run_scope.

Definition extract_metadata (env : Env) (text prompt : string) : M json :=
  let final_prompt := replace "<TEXT>" text prompt in
  do now <- tick;
  match chat env now final_prompt with
  | ChatFails e => raise e
  | ChatContent None => raise AttributeError
  | ChatContent (Some content) =>
      let output := strip content in
      match json_loads env output with
      | Some v => ret v
      | None => raise (ValueError "Model output was not valid JSON")
      end
  end.

End LlmExtract.

(* ===================================================================== *)
(** * src/preprocess/preprocess.py *)
(* ===================================================================== *)

Module Preprocess.
Import Py Fs Sys.
Local Open Scope run_scope.

(** [v.strip()]: only a [str] has the method. *)
Definition py_strip (v : json) : outcome json :=
  match v with
  | JStr s => Returns (JStr (strip s))
  | _ => Raises AttributeError
  end.

(** [result.get(k, dflt)]: only a [dict] has the method. *)
Definition py_get (k : string) (dflt : json) (result : json) : outcome json :=
  match result with
  | JObj members => Returns (dict_get_or k dflt members)
  | _ => Raises AttributeError
  end.

(** [metadata[k]] for a key of the literal. *)
Definition item (k : string) (metadata : dict) : json := dict_get_or k JNull metadata.

Definition detect_language (env : Env) (text : json) : M json :=
  try_except
    (match text with
     | JStr s =>
         do now <- tick;
         match detect env now s with
         | Some lang => ret (JStr lang)
         | None => raise (ValueError "No features in text.")
         end
     | _ => raise TypeError
     end)
    (fun _ => ret (JStr "unknown")).

(** The [metadata] literal of [extract_metadata], once the three values
    that need a call are known. *)
Definition base_metadata (doc : dict) (title abstract language : json) : dict :=
  [ ("arxiv_id", dict_get_or "arxiv_id" JNull doc);
    ("title", title);
    ("abstract", abstract);
    ("authors", dict_get_or "authors" (JArr []) doc);
    ("categories", dict_get_or "categories" (JArr []) doc);
    ("primary_category", dict_get_or "primary_category" (JStr EmptyString) doc);
    ("published_date", dict_get_or "published" JNull doc);
    ("url_pdf", dict_get_or "url_pdf" JNull doc);
    ("crawl_date", dict_get_or "crawl_date" JNull doc);
    ("language", language);
    (* New: first-page raw text from PDF *)
    ("pdf_raw", JStr EmptyString);
    (* Placeholders / later filled *)
    ("summary", JNull);
    ("affiliations", JArr []);
    ("keywords", JArr []);
    ("locations", JArr []) ].

(** Step 1 of [extract_metadata]: extract first-page PDF text. *)
Definition step_pdf_text (env : Env) (doc : dict) (metadata : dict) : M dict :=
  let url_pdf := dict_get_or "url_pdf" JNull doc in
  if json_truthy url_pdf then
    try_except
      (do text <- match url_pdf with
                  | JStr u => PdfParser.extract_first_page_text env u false
                  | _ => raise AttributeError
                  end;
       ret (dict_set "pdf_raw" (JStr text) metadata))
      (fun _ => print (Warn "PDF parse failed" (dict_get "arxiv_id" doc)) ;; ret metadata)
  else ret metadata.

(** Step 2 of [extract_metadata]: call the LLM parser, with the page text
    when there is one, with the abstract and the simpler prompt
    otherwise. *)
Definition step_llm (env : Env) (doc : dict) (metadata : dict) : M dict :=
  match item "pdf_raw" metadata with
  | JStr (String c r as pdf_raw) =>
      try_except
        (do result <- LlmExtract.extract_metadata env pdf_raw (BASE_PROMPT env);
         do affiliations <- lift (py_get "affiliations" (JArr []) result);
         do keywords <- lift (py_get "keywords" (JArr []) result);
         do summary <- lift (py_get "summary" (JStr EmptyString) result);
         ret (dict_set "summary" summary
                (dict_set "keywords" keywords
                   (dict_set "affiliations" affiliations metadata))))
        (fun _ => print (Warn "LLM parse failed" (dict_get "arxiv_id" doc)) ;; ret metadata)
  | _ =>
      (* Fallback: no pdf_raw available, use abstract with simpler prompt *)
      try_except
        (do result <- match item "abstract" metadata with
                      | JStr a => LlmExtract.extract_metadata env a (NOMETADATA_PROMPT env)
                      | _ => raise AttributeError
                      end;
         do keywords <- lift (py_get "keywords" (JArr []) result);
         do summary <- lift (py_get "summary" (JStr EmptyString) result);
         ret (dict_set "summary" summary (dict_set "keywords" keywords metadata)))
        (fun _ => print (Warn "LLM parse (no pdf) failed" (dict_get "arxiv_id" doc)) ;;
                  ret metadata)
  end.

Definition extract_metadata (env : Env) (doc : dict) : M dict :=
  (* Base fields we already have *)
  do title <- lift (py_strip (dict_get_or "title" (JStr EmptyString) doc));
  do abstract <- lift (py_strip (dict_get_or "abstract" (JStr EmptyString) doc));
  do language <- detect_language env (dict_get_or "abstract" (JStr EmptyString) doc);
  let metadata := base_metadata doc title abstract language in
  do metadata <- step_pdf_text env doc metadata;
  step_llm env doc metadata.

(** A line of a staging file must hold a JSON object: [doc.get] exists on
    nothing else. *)
Definition as_doc (v : json) : outcome dict :=
  match v with
  | JObj members => Returns members
  | _ => Raises AttributeError
  end.

(** The text written to the enriched file. *)
Fixpoint enriched_text (enriched : list dict) : string :=
  match enriched with
  | [] => EmptyString
  | doc :: r => (json_dumps (JObj doc) +:+ NL) +:+ enriched_text r
  end.

(** [process_raw_file(RAW_DIR / name)] *)
Definition process_raw_file (env : Env) (name : string) : M unit :=
  do w <- get_world;
  match dir_read name (raw_dir w) with
  | None => raise (FileNotFoundError name)
  | Some f =>
      do records <- lift (load_records (json_loads env) (lines (f_text f)));
      do enriched <- mapM (fun v => do doc <- lift (as_doc v); extract_metadata env doc) records;
      do w1 <- get_world;
      let processed := dir_write name (mkFile UTF8 (enriched_text enriched)) (processed_dir w1) in
      set_dirs (raw_dir w1) processed (archive_dir w1) ;;
      set_dirs (dir_unlink name (raw_dir w1)) processed (dir_write name f (archive_dir w1))
  end.

(** The loop of [main] over the files found in [data/raw]. *)
Fixpoint process_all (env : Env) (names : list string) : M unit :=
  match names with
  | [] => ret tt
  | name :: r =>
      try_except
        (process_raw_file env name ;; print (Info "Processed and archived" (Some (JStr name))))
        (fun _ => print (Warn "Failed to process" (Some (JStr name)))) ;;
      process_all env r
  end.

Definition main (env : Env) : M unit :=
  do w <- get_world;
  match dir_names (glob_jsonl (raw_dir w)) with
  | [] => print (Info "No files to process in data/raw/" None)
  | names => process_all env names
  end.

End Preprocess.

(* ===================================================================== *)
(** * src/index/build_index.py *)
(* ===================================================================== *)

Module BuildIndex.
Import Py Fs.

(** ** The fragment of [pandas] the module uses

    A frame holds its column labels and its rows in positional order;
    every row has one cell per column, and [JNull] is the missing value
    ([NaN] or [None]). *)
Record DataFrame : Type := mkFrame { columns : list string; rows : list dict }.

(** [len(df)] *)
Definition frame_len (df : DataFrame) : nat := length (rows df).

Fixpoint add_keys (cols : list string) (ks : list string) : list string :=
  match ks with
  | [] => cols
  | k :: r => add_keys (if bool_decide (k ∈ cols) then cols else cols ++ [k]) r
  end.

(** The labels of the frame built from a list of dicts: the keys in
    first-seen order. *)
Fixpoint union_columns (cols : list string) (ds : list dict) : list string :=
  match ds with
  | [] => cols
  | d :: r => union_columns (add_keys cols (dict_keys d)) r
  end.

(** A record laid out over the labels, absent keys as missing values. *)
Definition reindex (cols : list string) (d : dict) : dict :=
  map (fun c => (c, dict_get_or c JNull d)) cols.

Fixpoint all_dicts (records : list json) : outcome (list dict) :=
  match records with
  | [] => Returns []
  | JObj members :: r => obind (all_dicts r) (fun ds => Returns (members :: ds))
  | _ :: _ => Raises TypeError
  end.

(** [pd.DataFrame(records)]; a list that does not hold dicts only ends
    in an exception. *)
Definition frame_of_records (records : list json) : outcome DataFrame :=
  obind (all_dicts records)
        (fun ds => let cols := union_columns [] ds in
                   Returns (mkFrame cols (map (reindex cols) ds))).

(** What a cell is compared by when duplicates are looked for: missing
    values are equal to each other, [True] and [False] are [1] and [0],
    and lists and dicts cannot be hashed. *)
Inductive idkey : Type := KNull | KNum (z : Z) | KStr (s : string).

#[global] Instance idkey_eq_dec : EqDecision idkey.
Proof. solve_decision. Defined.

Definition id_key (v : json) : outcome idkey :=
  match v with
  | JNull => Returns KNull
  | JBool b => Returns (KNum (if b then 1 else 0))
  | JNum z => Returns (KNum z)
  | JStr s => Returns (KStr s)
  | JArr _ | JObj _ => Raises TypeError
  end.

Fixpoint keys_of (col : string) (rs : list dict) : outcome (list idkey) :=
  match rs with
  | [] => Returns []
  | r :: rest =>
      obind (id_key (dict_get_or col JNull r))
            (fun k => obind (keys_of col rest) (fun ks => Returns (k :: ks)))
  end.

(** Rows whose key was not seen on an earlier row. *)
Fixpoint keep_first (seen : list idkey) (krs : list (idkey * dict)) : list dict :=
  match krs with
  | [] => []
  | (k, r) :: rest =>
      if bool_decide (k ∈ seen) then keep_first seen rest
      else r :: keep_first (k :: seen) rest
  end.

(** [df.drop_duplicates(subset=[col])] *)
Definition drop_duplicates (col : string) (df : DataFrame) : outcome DataFrame :=
  if bool_decide (col ∈ columns df) then
    obind (keys_of col (rows df))
          (fun ks => Returns (mkFrame (columns df) (keep_first [] (zip ks (rows df)))))
  else Raises (KeyError col).

(** [df.head(n)]: the first [n] rows, all but the last [-n] for a
    negative [n]. *)
Definition head (n : Z) (df : DataFrame) : DataFrame :=
  mkFrame (columns df)
          (if 0 <=? n then take (Z.to_nat n) (rows df)
           else take (length (rows df) - Z.to_nat (- n)) (rows df)).

(** [if limit: df = df.head(limit)]: [None] and [0] are falsy. *)
Definition apply_limit (limit : option Z) (df : DataFrame) : DataFrame :=
  match limit with
  | Some n => if n =? 0 then df else head n df
  | None => df
  end.

(** [df[fields]] *)
Fixpoint first_missing (fields cols : list string) : option string :=
  match fields with
  | [] => None
  | f :: r => if bool_decide (f ∈ cols) then first_missing r cols else Some f
  end.

Definition select (fields : list string) (df : DataFrame) : outcome DataFrame :=
  match first_missing fields (columns df) with
  | Some f => Raises (KeyError f)
  | None => Returns (mkFrame fields (map (reindex fields) (rows df)))
  end.

(** [df[col].fillna(v).tolist()] *)
Definition fillna (v : json) (cell : json) : json :=
  match cell with JNull => v | _ => cell end.

Definition column_filled (col : string) (v : json) (df : DataFrame) : outcome (list json) :=
  if bool_decide (col ∈ columns df)
  then Returns (map (fun r => fillna v (dict_get_or col JNull r)) (rows df))
  else Raises (KeyError col).

Section WithVectors.

Context {vec : Type}.

(** A loaded sentence-embedding model: its dimension and the normalised
    vector it gives a text. *)
Record Encoder : Type := mkEncoder { dim : nat; encode_one : string -> vec }.

(** What the module takes from its libraries: [json.loads], the line
    [DataFrame.to_json] writes for a row, and [SentenceTransformer]
    ([None]: the model cannot be loaded). *)
Record Env : Type := mkEnv {
  json_loads : string -> option json;
  to_json_line : dict -> string;
  load_model : string -> option Encoder
}.

(** An inner-product flat index. *)
Record FaissIndex : Type := mkIndex { ix_dim : nat; ix_vectors : list vec }.

Definition IndexFlatIP (d : nat) : FaissIndex := mkIndex d [].

Definition index_add (ix : FaissIndex) (vs : list vec) : FaissIndex :=
  mkIndex (ix_dim ix) (ix_vectors ix ++ vs).

Definition ntotal (ix : FaissIndex) : nat := length (ix_vectors ix).

(** What is on disk: [data/processed] and the three files of
    [index/faiss]. *)
Record Store : Type := mkStore {
  processed : dir;
  embeddings_npy : option (list vec);
  metadata_jsonl : option file;
  faiss_index : option FaissIndex
}.

(** [df.to_json(path, orient="records", lines=True, force_ascii=False)] *)
Fixpoint to_json_text (env : Env) (rs : list dict) : string :=
  match rs with
  | [] => EmptyString
  | r :: rest => (to_json_line env r +:+ NL) +:+ to_json_text env rest
  end.

Definition to_json (env : Env) (df : DataFrame) : file :=
  mkFile UTF8 (to_json_text env (rows df)).

(** The reading loop of [merge_and_deduplicate]. *)
Fixpoint read_files (env : Env) (files : list (string * file)) : outcome (list json) :=
  match files with
  | [] => Returns []
  | (_, f) :: rest =>
      obind (load_records (json_loads env) (lines (f_text f)))
            (fun records => obind (read_files env rest)
                                  (fun more => Returns (records ++ more)%list))
  end.

(** The deleting loop of [merge_and_deduplicate]. *)
Fixpoint delete_old (names : list string) (d : dir) : dir :=
  match names with
  | [] => d
  | name :: rest =>
      if bool_decide (name ≠ "merged.jsonl") then delete_old rest (dir_unlink name d)
      else delete_old rest d
  end.

(** [merge_and_deduplicate(limit)] on the content of [data/processed]:
    the returned frame, or the exception, and the directory afterwards. *)
Definition merge_and_deduplicate (env : Env) (limit : option Z) (d : dir)
  : outcome DataFrame * dir :=
  let files := glob_jsonl d in
  match files with
  | [] => (Raises (FileNotFoundError "No processed files found in data/processed/"), d)
  | _ :: _ =>
      match obind (read_files env files)
                  (fun records => obind (frame_of_records records)
                                        (drop_duplicates "arxiv_id")) with
      | Raises e => (Raises e, d)
      | Returns df =>
          let df := apply_limit limit df in
          (* Save merged version back to processed/ *)
          let d := dir_write "merged.jsonl" (to_json env df) d in
          (* Delete old files (except merged.jsonl) *)
          let d := delete_old (dir_names files) d in
          (Returns df, d)
      end
  end.

(** [model.encode(texts, ..., normalize_embeddings=True)]: one vector per
    text, in order; only a [str] can be tokenised. *)
Fixpoint encode (model : Encoder) (texts : list json) : outcome (list vec) :=
  match texts with
  | [] => Returns []
  | JStr s :: rest =>
      obind (encode model rest) (fun vs => Returns (encode_one model s :: vs))
  | _ :: _ => Raises TypeError
  end.

Definition metadata_fields : list string :=
  [ "arxiv_id"; "title"; "abstract"; "summary";
    "authors"; "categories"; "affiliations";
    "keywords"; "language"; "published_date"; "url_pdf" ].

Definition build_index (env : Env) (model_name : string) (limit : option Z) (st : Store)
  : outcome unit * Store :=
  match merge_and_deduplicate env limit (processed st) with
  | (Raises e, d) =>
      (Raises e, mkStore d (embeddings_npy st) (metadata_jsonl st) (faiss_index st))
  | (Returns df, d) =>
      let st := mkStore d (embeddings_npy st) (metadata_jsonl st) (faiss_index st) in
      (* Extract texts for embeddings *)
      match column_filled "abstract" (JStr EmptyString) df with
      | Raises e => (Raises e, st)
      | Returns texts =>
          match load_model env model_name with
          | None => (Raises OSError, st)
          | Some model =>
              match encode model texts with
              | Raises e => (Raises e, st)
              | Returns embeddings =>
                  (* Save embeddings *)
                  let st := mkStore (processed st) (Some embeddings)
                                    (metadata_jsonl st) (faiss_index st) in
                  (* Save metadata (lightweight version) *)
                  match select metadata_fields df with
                  | Raises e => (Raises e, st)
                  | Returns df_meta =>
                      let st := mkStore (processed st) (embeddings_npy st)
                                        (Some (to_json env df_meta)) (faiss_index st) in
                      (* Build FAISS index *)
                      match embeddings with
                      | [] => (Raises IndexError, st)       (* embeddings.shape[1] *)
                      | _ :: _ =>
                          let index := index_add (IndexFlatIP (dim model)) embeddings in
                          (Returns tt,
                           mkStore (processed st) (embeddings_npy st)
                                   (metadata_jsonl st) (Some index))
                      end
                  end
              end
          end
      end
  end.

End WithVectors.

Arguments Encoder : clear implicits.
Arguments Env : clear implicits.
Arguments FaissIndex : clear implicits.
Arguments Store : clear implicits.

End BuildIndex.

(* ===================================================================== *)
(** * Vocabulary of the properties *)
(* ===================================================================== *)

Module Spec.
Import Py Fs.

(** The characters of a string. *)
Definition chars (s : string) : list ascii := list_ascii_of_string s.

(** A string without a line break. *)
Definition nl_free (s : string) : Prop := newline ∉ chars s.

(** Does the text end in a line break? *)
Fixpoint ends_with_newline (s : string) : bool :=
  match s with
  | EmptyString => false
  | String c EmptyString => Ascii.eqb c newline
  | String _ r => ends_with_newline r
  end.

(** Lines, each one followed by a line break. *)
Fixpoint unlines (ls : list string) : string :=
  match ls with
  | [] => EmptyString
  | l :: r => (l +:+ NL) +:+ unlines r
  end.

(** The line of a staging file that holds a record. *)
Definition record_line (d : dict) : string := json_dumps (JObj d).

(** *** Harvester *)

Import Crawler.

Definition rawdoc_line (d : RawDoc) : string := record_line (rawdoc_dict d).

(** The text of the staging file that holds the records [kept]. *)
Definition staging_text (kept : list RawDoc) : string :=
  join NL (map rawdoc_line kept).

(** The records of a list that carry the identifier [a], in order. *)
Definition with_id (a : string) (l : list RawDoc) : list RawDoc :=
  filter (fun d => arxiv_id d = a) l.

(** The conversion step of the crawler. *)
Definition converted (timestamp : string) (entries : list Entry) : list RawDoc :=
  map (fun e => entry_to_rawdoc e (Some (slice_to 8 timestamp))) entries.

(** What de-duplication keeps, without the accumulator of the loop. *)
Fixpoint first_seen (seen : gset string) (rawdocs : list RawDoc) : list RawDoc :=
  match rawdocs with
  | [] => []
  | d :: r =>
      if truthy (arxiv_id d) && bool_decide (arxiv_id d ∉ seen)
      then d :: first_seen ({[arxiv_id d]} ∪ seen) r
      else first_seen seen r
  end.

(** The request for the page that starts at [fetched]. *)
Definition page_request (query : string) (max_results fetched : Z) : Request :=
  mkRequest query "submittedDate" "descending" fetched (Z.min 2000 (max_results - fetched)).

(** A feed that answers every request with an HTTP response. *)
Definition responsive (feed : Feed) : Prop :=
  forall req, exists status_code entries, feed req = Response status_code entries.

(** Paging as a relation: from [fetched] entries collected in [results],
    the harvest ends with [final].  It ends when enough was fetched, on
    a status other than 200 and on an empty page; otherwise the page is
    appended and paging goes on. *)
Inductive paged (feed : Feed) (query : string) (max_results : Z)
  : Z -> list Entry -> list Entry -> Prop :=
| paged_enough fetched results :
    max_results <= fetched ->
    paged feed query max_results fetched results results
| paged_bad_status fetched results status_code entries :
    fetched < max_results ->
    feed (page_request query max_results fetched) = Response status_code entries ->
    status_code <> 200 ->
    paged feed query max_results fetched results results
| paged_exhausted fetched results :
    fetched < max_results ->
    feed (page_request query max_results fetched) = Response 200 [] ->
    paged feed query max_results fetched results results
| paged_more fetched results entries final :
    fetched < max_results ->
    feed (page_request query max_results fetched) = Response 200 entries ->
    entries <> [] ->
    paged feed query max_results (fetched + Z.of_nat (length entries))
          (results ++ entries) final ->
    paged feed query max_results fetched results final.

(** What a completed crawl returns and leaves on disk when it kept the
    records [kept]. *)
Definition crawl_result (timestamp cwd : string) (raw : dir) (categories : list string)
    (kept : list RawDoc) : (nat * string) * dir :=
  ((length kept, cwd +:+ "/" +:+ "data/raw/" +:+ out_name timestamp categories),
   dir_write (out_name timestamp categories) (mkFile UTF8 (staging_text kept)) raw).

(** *** Enricher *)

Import Sys.

(** The keys of an enriched record, in the order of the literal. *)
Definition enriched_keys : list string :=
  [ "arxiv_id"; "title"; "abstract"; "authors"; "categories"; "primary_category";
    "published_date"; "url_pdf"; "crawl_date"; "language"; "pdf_raw"; "summary";
    "affiliations"; "keywords"; "locations" ].

Definition is_str (v : json) : bool :=
  match v with JStr _ => true | _ => false end.

(** A record as the harvester writes it: [title] and [abstract], when
    present, are strings. *)
Definition well_formed_doc (doc : dict) : bool :=
  is_str (dict_get_or "title" (JStr EmptyString) doc)
  && is_str (dict_get_or "abstract" (JStr EmptyString) doc).

(** In world [w] the PDF behind [u] cannot be had: the cached copy cannot
    be parsed, or, without a cached copy, every download fails or brings
    a file that cannot be parsed. *)
Definition pdf_unreadable (env : Env) (w : World) (u : string) : Prop :=
  match pdf_cache w !! PdfParser._cached_pdf_path env u with
  | Some bytes => fitz_open env bytes = PdfError
  | None => forall t, match http_get env t u with
                      | DlOk body => fitz_open env body = PdfError
                      | DlFails | DlBroken _ => True
                      end
  end.

(** The PDF download or parse of the document fails in world [w]. *)
Definition pdf_fails (env : Env) (w : World) (doc : dict) : Prop :=
  exists u, dict_get_or "url_pdf" JNull doc = JStr u /\ pdf_unreadable env w u.



(** The fixed shape of an enriched record. *)
Definition enriched_shape (m : dict) : Prop :=
  dict_keys m = enriched_keys /\ dict_get "locations" m = Some (JArr []).

(** The enrichment of one line of a staging file. *)
Definition enrich_record (env : Env) (v : json) : M dict :=
  bind (lift (Preprocess.as_doc v)) (fun doc => Preprocess.extract_metadata env doc).

(** The world after [process_raw_file] moved [name], read as [f], and
    wrote [enriched], starting from [w]. *)
Definition processed_world (name : string) (f : file) (enriched : list dict) (w : World)
  : World :=
  mkWorld (clock w)
          (dir_unlink name (raw_dir w))
          (dir_write name (mkFile UTF8 (Preprocess.enriched_text enriched)) (processed_dir w))
          (dir_write name f (archive_dir w))
          (pdf_cache w) (stdout w).

End Spec.

(* ===================================================================== *)
(** * Sample data *)
(* ===================================================================== *)

Module Samples.
Import Py Fs Spec.

(** *** Harvester *)

Import Crawler.

Definition sample_entry (id title : string) : Entry :=
  {| e_id := Some id;
     e_title := Some title;
     e_summary := Some "We study things.";
     e_authors := [mkAuthor (Some "A. Author")];
     e_tags := [mkTag (Some "cs.AI")];
     e_arxiv_primary_category := Some (mkTag (Some "cs.AI"));
     e_links := [mkLink (Some "text/html") (Some id);
                 mkLink (Some "application/pdf") (Some "http://arxiv.org/pdf/2401.00001v1")];
     e_published := Some "2024-01-01T00:00:00Z";
     e_updated := Some "2024-01-02T00:00:00Z";
     e_arxiv_comment := None;
     e_arxiv_journal_ref := None;
     e_arxiv_doi := None |}.

Definition entry_a : Entry := sample_entry "http://arxiv.org/abs/2401.00001v1" "First".
Definition entry_a' : Entry := sample_entry "http://arxiv.org/abs/2401.00001v1" "Second".
Definition entry_b : Entry := sample_entry "http://arxiv.org/abs/2401.00002v1" "Third".

(** Two entries that share an identifier whose last path segment is
    empty. *)
Definition entry_noid : Entry := sample_entry "http://arxiv.org/abs/" "Fourth".
Definition entry_noid' : Entry := sample_entry "http://arxiv.org/abs/" "Fifth".

Definition sample_timestamp : string := "20240105_101500".
Definition sample_cwd : string := "/srv/app".

(** A feed with three entries on its first page and nothing after. *)
Definition feed_three : Feed :=
  fun req => if start req =? 0 then Response 200 [entry_a; entry_a'; entry_b]
             else Response 200 [].

(** A feed whose first page holds the two entries without identifier. *)
Definition feed_noid : Feed :=
  fun req => if start req =? 0 then Response 200 [entry_noid; entry_noid']
             else Response 200 [].

(** A feed that serves one page and then times out. *)
Definition feed_timeout : Feed :=
  fun req => if start req =? 0 then Response 200 [entry_a] else Fails RequestException.

(** A feed that serves one page and then answers with status 503. *)
Definition feed_503 : Feed :=
  fun req => if start req =? 0 then Response 200 [entry_a; entry_b] else Response 503 [].

(** *** Enricher *)

Import Sys.

Definition sample_doc : dict := rawdoc_dict (entry_to_rawdoc entry_a (Some "20240105")).
Definition sample_line : string := record_line sample_doc.
Definition sample_file_name : string := "20240105_101500_cs_AI.jsonl".

(** The reply of the language model used in the samples, and what
    [json.loads] makes of it. *)
Definition sample_reply : string := "REPLY".
Definition sample_reply_value : json :=
  JObj [("keywords", JArr [JStr "things"]); ("summary", JStr "A study of things.")].

Definition sample_loads (s : string) : option json :=
  if String.eqb s sample_line then Some (JObj sample_doc)
  else if String.eqb s sample_reply then Some sample_reply_value
  else None.

(** No network: downloads and the language model fail. *)
Definition env_offline : Env :=
  {| detect := fun _ _ => Some "en";
     http_get := fun _ _ => DlFails;
     fitz_open := fun _ => PdfError;
     chat := fun _ _ => ChatFails RequestException;
     json_loads := sample_loads;
     cache_key := rsplit_last "/";
     BASE_PROMPT := "Extract from: <TEXT>";
     NOMETADATA_PROMPT := "Summarise: <TEXT>" |}.

(** Downloads fail, the language model answers. *)
Definition env_no_pdf : Env :=
  {| detect := fun _ _ => Some "en";
     http_get := fun _ _ => DlFails;
     fitz_open := fun _ => PdfError;
     chat := fun _ _ => ChatContent (Some sample_reply);
     json_loads := sample_loads;
     cache_key := rsplit_last "/";
     BASE_PROMPT := "Extract from: <TEXT>";
     NOMETADATA_PROMPT := "Summarise: <TEXT>" |}.

(** One staging file with one record, nothing else on disk. *)
Definition sample_world : World :=
  {| clock := 0;
     raw_dir := [(sample_file_name, mkFile UTF8 sample_line)];
     processed_dir := [];
     archive_dir := [];
     pdf_cache := ∅;
     stdout := [] |}.

End Samples.

(* ===================================================================== *)
(** * Vocabulary and sample data of the index builder *)
(* ===================================================================== *)

Module SpecIndex.
Import Py Fs Spec BuildIndex.

(** The files that the reading loop of the merge step opens. *)
Definition merge_inputs (d : dir) : list string := dir_names (glob_jsonl d).


(** The identifiers of the rows of a frame. *)
Definition row_ids (df : DataFrame) : outcome (list idkey) :=
  keys_of "arxiv_id" (rows df).

(** A limit that is a number of rows. *)
Definition limit_is_count (limit : option Z) : Prop :=
  match limit with
  | Some n => 0 <= n
  | None => True
  end.

(** Every row has one cell per column, and no label occurs twice. *)
Definition frame_ok (df : DataFrame) : Prop :=
  NoDup (columns df) /\ Forall (fun r => dict_keys r = columns df) (rows df).

Section WithVectors.
Context {vec : Type}.

(** The line written for the row is read back as the row. *)
Definition reads_back (env : Env vec) (r : dict) : Prop :=
  json_loads env (to_json_line env r) = Some (JObj r)
  /\ nonblank (to_json_line env r) = true
  /\ nl_free (to_json_line env r).

(** The snapshot written for the frame can be read back. *)
Definition snapshot_readable (env : Env vec) (df : DataFrame) : Prop :=
  Forall (reads_back env) (rows df).

End WithVectors.

(** *** Sample data *)

Definition sample_row (id title : string) (abstract : json) : dict :=
  [ ("arxiv_id", JStr id); ("title", JStr title); ("abstract", abstract);
    ("authors", JArr [JStr "A. Author"]); ("categories", JArr [JStr "cs.AI"]);
    ("primary_category", JStr "cs.AI"); ("published_date", JStr "2024-01-01T00:00:00Z");
    ("url_pdf", JNull); ("crawl_date", JStr "20240105"); ("language", JStr "en");
    ("pdf_raw", JStr EmptyString); ("summary", JNull); ("affiliations", JArr []);
    ("keywords", JArr []); ("locations", JArr []) ].

Definition row_1 : dict := sample_row "2401.00001v1" "First" (JStr "We study things.").
Definition row_1' : dict := sample_row "2401.00001v1" "First again" (JStr "We study things twice.").
Definition row_2 : dict := sample_row "2401.00002v1" "Second" JNull.
Definition row_3 : dict := sample_row "2401.00003v1" "Third" (JStr "We study more.").

(** A reader that knows the lines of the given rows. *)
Fixpoint loads_table (known : list dict) (s : string) : option json :=
  match known with
  | [] => None
  | r :: rest => if String.eqb s (record_line r) then Some (JObj r) else loads_table rest s
  end.

(** Vectors are stood for by numbers: the length of the text. *)
Definition sample_env : Env nat :=
  {| json_loads := loads_table [row_1; row_1'; row_2; row_3];
     to_json_line := record_line;
     load_model := fun name => Some (mkEncoder 384%nat String.length) |}.

Definition batch_1 : file := mkFile UTF8 (unlines (map record_line [row_1; row_2])).
Definition batch_2 : file := mkFile UTF8 (unlines (map record_line [row_1'; row_3])).

(** Two batches waiting to be merged. *)
Definition sample_processed : dir :=
  [("20240105_101500_cs_AI.jsonl", batch_1); ("20240106_101500_cs_AI.jsonl", batch_2)].

Definition sample_store : Store nat := mkStore sample_processed None None None.




End SpecIndex.

(* ===================================================================== *)
(** * src/preprocess/pdf_parser.py: the name of a cached PDF *)
(* ===================================================================== *)

Module PdfKey.
Import Py.

(** ** The fragment of [re] that the pattern uses

    A matcher is given the text at the current position and a
    continuation for the text behind the match.  It tries its
    alternatives in the order of the backtracking engine, the longer
    match first for the greedy operators, and hands back the first
    result. *)
Definition matcher (A : Type) : Type := string -> (string -> option A) -> option A.

Section Matchers.
Context {A : Type}.

(** A character class. *)
Definition cls (p : ascii -> bool) : matcher A :=
  fun s k =>
    match s with
    | String c r => if p c then k r else None
    | EmptyString => None
    end.

(** A literal character. *)
Definition lit (c : ascii) : matcher A := cls (Ascii.eqb c).

(** [ab] *)
Definition seq (a b : matcher A) : matcher A := fun s k => a s (fun r => b r k).

(** A literal text. *)
Fixpoint text (t : string) : matcher A :=
  match t with
  | EmptyString => fun s k => k s
  | String c r => seq (lit c) (text r)
  end.

(** [a?] *)
Definition opt (a : matcher A) : matcher A :=
  fun s k =>
    match a s k with
    | Some x => Some x
    | None => k s
    end.

(** [a{n}] *)
Fixpoint rep (n : nat) (a : matcher A) : matcher A :=
  match n with
  | O => fun s k => k s
  | S n' => seq a (rep n' a)
  end.

(** [c+] for a character class. *)
Fixpoint plus (p : ascii -> bool) (s : string) (k : string -> option A) : option A :=
  match s with
  | String c r =>
      if p c then
        match plus p r k with
        | Some x => Some x
        | None => k r
        end
      else None
  | EmptyString => None
  end.

(** The bytes [10xxxxxx], which continue a character in UTF-8. *)
Definition is_continuation (c : ascii) : bool :=
  let n := nat_of_ascii c in (128 <=? n)%nat && (n <? 192)%nat.

Fixpoint skip_continuation (s : string) : string :=
  match s with
  | String c r => if is_continuation c then skip_continuation r else s
  | EmptyString => EmptyString
  end.

(** [.]: one character, with all its bytes, that is not a line break. *)
Definition dot : matcher A :=
  fun s k =>
    match s with
    | String c r => if Ascii.eqb c newline then None else k (skip_continuation r)
    | EmptyString => None
    end.

(** [$]: the end of the text, or the line break that ends it. *)
Definition at_end : matcher A :=
  fun s k => if String.eqb s EmptyString || String.eqb s NL then k s else None.

End Matchers.

Definition is_digit (c : ascii) : bool :=
  let n := nat_of_ascii c in (48 <=? n)%nat && (n <=? 57)%nat.

Definition backslash : ascii := "\"%char.

(** ** The pattern

    The raw string of the source doubles the backslash before [d] and
    before the last dot, so that the pattern asks for a backslash at
    both places: behind [v] come a backslash and one or more letters
    [d], and behind the group a backslash and one more character. *)

(** [[0-9]{4}\.[0-9]{4,5}(v\\d+)?], the first group. *)
Definition group_1 {A} : matcher A :=
  seq (rep 4 (cls is_digit))
      (seq (lit ".")
           (seq (rep 4 (cls is_digit))
                (seq (opt (cls is_digit))
                     (opt (seq (lit "v") (seq (lit backslash) (plus (Ascii.eqb "d")))))))).

(** [\\.pdf$], what follows the group. *)
Definition tail {A} : matcher A :=
  seq (lit backslash) (seq dot (seq (text "pdf") at_end)).

(** The text that a group matched, from where it began to where the
    rest of the pattern went on. *)
Definition captured (from rest : string) : string :=
  slice_to (String.length from - String.length rest) from.

(** A match that begins at the head of [s]: the text of the first group. *)
Definition match_here (s : string) : option string :=
  text "/pdf/" s (fun from => group_1 from (fun rest => tail rest (fun _ => Some (captured from rest)))).

(** [re.search(pattern, s)] followed by [m.group(1)]: the leftmost match. *)
Fixpoint search (s : string) : option string :=
  match match_here s with
  | Some g => Some g
  | None =>
      match s with
      | String _ r => search r
      | EmptyString => None
      end
  end.

(** [_extract_arxiv_id_from_url]; [md5_hexdigest] stands for
    [hashlib.md5(s.encode("utf-8")).hexdigest()]. *)
Definition _extract_arxiv_id_from_url (md5_hexdigest : string -> string) (url_pdf : string)
  : string :=
  match search url_pdf with
  | Some id => id
  | None => slice_to 12 (md5_hexdigest url_pdf)
  end.

End PdfKey.

(* ===================================================================== *)
(** * Vocabulary and sample data of the stage-level properties *)
(* ===================================================================== *)

Module SpecStages.
Import Py Fs Spec.

(** *** Texts *)

(** [r] is what is left of [s] behind some of its characters. *)
Definition tail_of (r s : string) : Prop := exists pre, s = pre +:+ r.

(** A matcher that goes on where its match ended. *)
Definition sound {A} (m : PdfKey.matcher A) : Prop :=
  forall s k x, m s k = Some x -> exists r, tail_of r s /\ k r = Some x.

(** A stand-in for the digest of the samples. *)
Definition sample_md5 (s : string) : string := "9e107d9d372bb6826bd81d3542a419d6".

(** *** Harvester *)

Import Crawler.

(** A feed that never hands back more entries than the page asked for. *)
Definition page_bounded (feed : Feed) : Prop :=
  forall req status_code entries,
    feed req = Response status_code entries ->
    (length entries <= Z.to_nat (req_max_results req))%nat.

(** A server that holds [catalogue] in the requested order and serves at
    most [page_size] entries per request, from the offset asked for. *)
Definition serve (catalogue : list Entry) (page_size : nat) : Feed :=
  fun req =>
    Response 200 (take (Nat.min (Z.to_nat (req_max_results req)) page_size)
                       (drop (Z.to_nat (start req)) catalogue)).

(** A feed whose every request fails. *)
Definition feed_down : Feed := fun _ => Fails RequestException.

Definition sample_catalogue : list Entry :=
  [Samples.entry_a; Samples.entry_a'; Samples.entry_b].

(** *** Enricher *)

Import Sys.

(** The world after one more external call. *)
Definition after_call (w : World) : World :=
  mkWorld (S (clock w)) (raw_dir w) (processed_dir w) (archive_dir w) (pdf_cache w) (stdout w).

(** The world after a line was printed. *)
Definition after_print (ev : event) (w : World) : World :=
  mkWorld (clock w) (raw_dir w) (processed_dir w) (archive_dir w) (pdf_cache w)
          (stdout w ++ [ev]).

(** The three directories of the stage are the same in both worlds. *)
Definition same_dirs (w w' : World) : Prop :=
  raw_dir w' = raw_dir w ∧ processed_dir w' = processed_dir w ∧ archive_dir w' = archive_dir w.

(** The test at the head of [download_pdf]. *)
Definition valid_url (u : string) : bool := truthy u && String.prefix "http" u.

(** [old in s] *)
Fixpoint contains (old s : string) : bool :=
  String.prefix old s
  || match s with
     | EmptyString => false
     | String _ r => contains old r
     end.

(** What [llm_extract.extract_metadata] makes of the reply to its call. *)
Definition reply_value (env : Env) (r : ChatReply) : outcome json :=
  match r with
  | ChatFails e => Raises e
  | ChatContent None => Raises AttributeError
  | ChatContent (Some content) =>
      match json_loads env (strip content) with
      | Some v => Returns v
      | None => Raises (ValueError "Model output was not valid JSON")
      end
  end.

(** A fresh world around the content of [data/raw]. *)
Definition world_of (raw : dir) : World := mkWorld 0 raw [] [] ∅ [].

(** A staging directory with a file that is not JSON lines, one good
    file, and a file that is not a staging file. *)
Definition bad_file_name : string := "20240104_090000_cs_AI.jsonl".

Definition mixed_raw : dir :=
  [ (bad_file_name, mkFile UTF8 "{not json");
    (Samples.sample_file_name, mkFile UTF8 Samples.sample_line);
    ("README.txt", mkFile UTF8 "staging files") ].

Definition sample_url : string := "http://arxiv.org/pdf/2401.00001v1".

(** The first download breaks off after some bytes, later ones succeed;
    the truncated file cannot be parsed, the whole one can. *)
Definition env_flaky : Env :=
  {| detect := fun _ _ => Some "en";
     http_get := fun now _ => if (now =? 0)%nat then DlBroken "%PDF-1.7 trunc"
                              else DlOk "%PDF-1.7 whole";
     fitz_open := fun bytes => if String.eqb bytes "%PDF-1.7 whole"
                               then PdfPages 12 (Some " Title page ")
                               else PdfError;
     chat := fun _ _ => ChatContent (Some Samples.sample_reply);
     json_loads := Samples.sample_loads;
     cache_key := rsplit_last "/";
     BASE_PROMPT := "Extract from: <TEXT>";
     NOMETADATA_PROMPT := "Summarise: <TEXT>" |}.

(** *** Index builder *)

Import BuildIndex SpecIndex.

(** Does the row carry the identifier [k]? *)
Definition has_id (k : idkey) (r : dict) : bool :=
  match id_key (dict_get_or "arxiv_id" JNull r) with
  | Returns k' => bool_decide (k' = k)
  | Raises _ => false
  end.

(** The rows that carry the identifier [k], in order. *)
Definition rows_with_id (k : idkey) (rs : list dict) : list dict :=
  filter (λ r, has_id k r = true) rs.

(** A batch with a line that is not JSON, between a good batch and a
    file that is no batch. *)
Definition corrupt_processed : dir :=
  [ ("20240105_101500_cs_AI.jsonl", batch_1);
    ("20240108_101500_cs_AI.jsonl", mkFile UTF8 "{not json");
    ("notes.txt", mkFile UTF8 "not a batch") ].

(** A record that lacks most of the fields of an enriched record. *)
Definition bare_row : dict :=
  [ ("arxiv_id", JStr "2401.00009v1"); ("abstract", JStr "We study little.") ].

Definition bare_env : Env nat :=
  {| json_loads := loads_table [bare_row];
     to_json_line := record_line;
     load_model := fun name => Some (mkEncoder 384%nat String.length) |}.

Definition bare_store : Store nat :=
  mkStore [("20240107_101500_cs_AI.jsonl", mkFile UTF8 (unlines [record_line bare_row]))]
          None None None.

End SpecStages.

(* ===================================================================== *)
(** * Properties *)
(* ===================================================================== *)

Import Py Fs Spec.

#[local] Arguments String.append !_ _ / : simpl nomatch.

(** ** Strings, lines and [json.dumps] *)

Lemma sapp_assoc (a b c : string) : (a +:+ b) +:+ c = a +:+ (b +:+ c).
Proof. induction a as [|x a IH]; simpl; [done | by rewrite IH]. Qed.

Lemma sapp_nil_r (a : string) : a +:+ EmptyString = a.
Proof. induction a as [|x a IH]; simpl; [done | by rewrite IH]. Qed.

Lemma chars_app (a b : string) : chars (a +:+ b) = (chars a ++ chars b)%list.
Proof. induction a as [|x a IH]; simpl; [done | by rewrite IH]. Qed.

Lemma nl_free_nil : nl_free EmptyString.
Proof. unfold nl_free; simpl. apply not_elem_of_nil. Qed.

Lemma nl_free_cons c s : nl_free (String c s) ↔ c ≠ newline ∧ nl_free s.
Proof.
  unfold nl_free; simpl. rewrite not_elem_of_cons.
  split; intros [H1 H2]; split; auto.
Qed.

Lemma nl_free_app (a b : string) : nl_free (a +:+ b) ↔ nl_free a ∧ nl_free b.
Proof. unfold nl_free. by rewrite chars_app, not_elem_of_app. Qed.

(** Closed strings: membership is settled by running through the characters. *)
Ltac nl_free_closed :=
  vm_compute;
  let H := fresh "H" in
  intros H; repeat (apply elem_of_cons in H as [H|H]; [discriminate H|]);
  by apply elem_of_nil in H.

Lemma nl_free_escape_char c : nl_free (escape_char c).
Proof. destruct c as [[] [] [] [] [] [] [] []]; nl_free_closed. Qed.

Lemma nl_free_escape s : nl_free (escape s).
Proof.
  induction s as [|c s IH]; simpl; [apply nl_free_nil|].
  apply nl_free_app; split; [apply nl_free_escape_char | done].
Qed.

Lemma nl_free_quote s : nl_free (quote s).
Proof.
  unfold quote. apply nl_free_app; split.
  - apply nl_free_cons; split; [discriminate | apply nl_free_escape].
  - nl_free_closed.
Qed.

Lemma nl_free_join sep (l : list string) :
  nl_free sep → Forall nl_free l → nl_free (join sep l).
Proof.
  intros Hsep Hl. induction Hl as [|x l Hx Hl IH]; simpl; [apply nl_free_nil|].
  destruct l as [|y l]; [done|].
  apply nl_free_app; split; [done|]. by apply nl_free_app.
Qed.

Lemma nl_free_uint (d : Decimal.uint) : nl_free (NilEmpty.string_of_uint d).
Proof.
  induction d; simpl; try apply nl_free_nil;
    (apply nl_free_cons; split; [discriminate | done]).
Qed.

Lemma nl_free_nilzero_uint (d : Decimal.uint) : nl_free (NilZero.string_of_uint d).
Proof.
  unfold NilZero.string_of_uint. destruct d; try nl_free_closed;
    apply (nl_free_uint (_ d)).
Qed.

Lemma nl_free_int (z : Z) : nl_free (NilZero.string_of_int (Z.to_int z)).
Proof.
  unfold NilZero.string_of_int. destruct (Z.to_int z) as [d|d].
  - apply nl_free_nilzero_uint.
  - apply nl_free_cons; split; [discriminate | apply nl_free_nilzero_uint].
Qed.

(** [json.dumps] never puts a line break in its output. *)
Lemma nl_free_dumps (v : json) : nl_free (json_dumps v).
Proof.
  induction v as [| [] | z | s | items IH | members IH] using json_nested_ind; simpl.
  - nl_free_closed.
  - nl_free_closed.
  - nl_free_closed.
  - apply nl_free_int.
  - apply nl_free_quote.
  - apply nl_free_cons; split; [discriminate|].
    apply nl_free_app; split; [|nl_free_closed].
    apply nl_free_join; [nl_free_closed|]. by apply Forall_fmap.
  - apply nl_free_cons; split; [discriminate|].
    apply nl_free_app; split; [|nl_free_closed].
    apply nl_free_join; [nl_free_closed|]. apply Forall_fmap.
    eapply Forall_impl; [exact IH|]. intros [k x] Hx.
    change (nl_free (quote k +:+ ": " +:+ json_dumps x)). cbn [snd] in Hx.
    apply nl_free_app; split; [apply nl_free_quote|].
    apply nl_free_app; split; [nl_free_closed | done].
Qed.

Lemma record_line_nl_free (d : dict) : nl_free (record_line d).
Proof. apply nl_free_dumps. Qed.

Lemma record_line_nonempty (d : dict) : record_line d ≠ EmptyString.
Proof. unfold record_line; simpl. discriminate. Qed.

(** Reading lines back. *)
Lemma join_cons2 sep (x y : string) (l : list string) :
  join sep (x :: y :: l) = x +:+ sep +:+ join sep (y :: l).
Proof. done. Qed.

Lemma lines_from_line (acc x rest : string) :
  nl_free x → lines_from acc (x +:+ NL +:+ rest) = (acc +:+ x) :: lines_from EmptyString rest.
Proof.
  revert acc. induction x as [|c x IH]; intros acc Hx; simpl.
  - by rewrite sapp_nil_r.
  - apply nl_free_cons in Hx as [Hc Hx].
    destruct (Ascii.eqb_spec c newline) as [->|_]; [done|].
    rewrite IH by done. by rewrite sapp_assoc.
Qed.

Lemma lines_from_last (acc x : string) :
  nl_free x →
  lines_from acc x = match acc +:+ x with EmptyString => [] | l => [l] end.
Proof.
  revert acc. induction x as [|c x IH]; intros acc Hx; simpl.
  - rewrite sapp_nil_r. by destruct acc.
  - apply nl_free_cons in Hx as [Hc Hx].
    destruct (Ascii.eqb_spec c newline) as [->|_]; [done|].
    rewrite IH by done. by rewrite sapp_assoc.
Qed.

Lemma lines_join (ls : list string) :
  Forall nl_free ls → Forall (λ l, l ≠ EmptyString) ls → lines (join NL ls) = ls.
Proof.
  unfold lines. intros Hfree. induction Hfree as [|x ls Hx Hfree IH]; intros Hne; [done|].
  apply Forall_cons in Hne as [Hx0 Hne].
  destruct ls as [|y ls].
  - change (join NL [x]) with x.
    rewrite lines_from_last by done. simpl. by destruct x.
  - rewrite join_cons2, lines_from_line by done. simpl. f_equal. by apply IH.
Qed.

Lemma unlines_cons (x : string) (ls : list string) :
  unlines (x :: ls) = x +:+ NL +:+ unlines ls.
Proof. simpl. by rewrite sapp_assoc. Qed.

Lemma lines_unlines (ls : list string) : Forall nl_free ls → lines (unlines ls) = ls.
Proof.
  unfold lines. induction 1 as [|x ls Hx Hfree IH]; [done|].
  rewrite unlines_cons, lines_from_line by done. simpl. by f_equal.
Qed.

Lemma ends_with_newline_app_nonempty (a b : string) :
  b ≠ EmptyString → ends_with_newline (a +:+ b) = ends_with_newline b.
Proof.
  intros Hb. induction a as [|c a IH]; simpl; [done|].
  rewrite <- IH. destruct (a +:+ b) eqn:E; [|done].
  destruct a; simpl in E; [done | discriminate].
Qed.

Lemma ends_with_newline_nl_free (x : string) : nl_free x → ends_with_newline x = false.
Proof.
  induction x as [|c x IH]; intros Hx; simpl; [done|].
  apply nl_free_cons in Hx as [Hc Hx]. destruct x; [|by apply IH].
  by destruct (Ascii.eqb_spec c newline).
Qed.

Lemma join_nonempty sep (x : string) (l : list string) :
  x ≠ EmptyString → join sep (x :: l) ≠ EmptyString.
Proof. intros Hx. destruct l; simpl; [done|]. by destruct x. Qed.

Lemma ends_with_newline_join (ls : list string) :
  Forall nl_free ls → Forall (λ l, l ≠ EmptyString) ls →
  ends_with_newline (join NL ls) = false.
Proof.
  intros Hfree. induction Hfree as [|x ls Hx Hfree IH]; intros Hne; [done|].
  apply Forall_cons in Hne as [Hx0 Hne]. destruct ls as [|y ls].
  - by apply ends_with_newline_nl_free.
  - rewrite join_cons2. apply Forall_cons in Hne as Hne'. destruct Hne' as [Hy _].
    rewrite !ends_with_newline_app_nonempty; [by apply IH | by apply join_nonempty |].
    unfold NL. simpl. discriminate.
Qed.

Lemma ends_with_newline_unlines (ls : list string) :
  ls ≠ [] → ends_with_newline (unlines ls) = true.
Proof.
  induction ls as [|x ls IH]; intros Hne; [done|]. rewrite unlines_cons.
  destruct ls as [|y ls].
  - simpl. by rewrite ends_with_newline_app_nonempty.
  - rewrite !ends_with_newline_app_nonempty; [by apply IH | |].
    + rewrite unlines_cons. unfold NL. destruct y; simpl; discriminate.
    + unfold NL. simpl. discriminate.
Qed.

(** ** Files and directories *)

Lemma dir_read_write name f (d : dir) : dir_read name (dir_write name f d) = Some f.
Proof.
  induction d as [|[n g] d IH]; simpl.
  - by rewrite String.eqb_refl.
  - destruct (String.eqb_spec name n) as [->|Hne]; simpl.
    + by rewrite String.eqb_refl.
    + by destruct (String.eqb_spec name n).
Qed.

(** ** The harvester *)

Section Harvester.
Import Crawler.

Lemma truthy_true (s : string) : truthy s = true ↔ s ≠ EmptyString.
Proof. destruct s; simpl; split; done. Qed.

(** The writing loop joins the records with line breaks. *)
Lemma write_jsonl_from_join (docs : list dict) (i : Z) (buf : string) :
  write_jsonl_from (i + Z.of_nat (length docs)) i docs buf
  = buf +:+ join NL (map record_line docs).
Proof.
  revert i buf. induction docs as [|d docs IH]; intros i buf.
  - simpl. by rewrite sapp_nil_r.
  - cbn [write_jsonl_from]. destruct docs as [|d' docs].
    + replace (i <? i + Z.of_nat (length [d]) - 1) with false
        by (symmetry; apply Z.ltb_ge; simpl; lia).
      done.
    + replace (i <? i + Z.of_nat (length (d :: d' :: docs)) - 1) with true
        by (symmetry; apply Z.ltb_lt; simpl length; lia).
      replace (i + Z.of_nat (length (d :: d' :: docs)))
        with ((i + 1) + Z.of_nat (length (d' :: docs))) by (simpl length; lia).
      rewrite IH. change (map record_line (d :: d' :: docs))
        with (record_line d :: map record_line (d' :: docs)).
      change (map record_line (d' :: docs))
        with (record_line d' :: map record_line docs).
      rewrite join_cons2. fold (record_line d). by rewrite !sapp_assoc.
Qed.

Lemma write_jsonl_text (name : string) (docs : list RawDoc) (raw : dir) :
  _write_jsonl name (map rawdoc_dict docs) raw
  = dir_write name (mkFile UTF8 (staging_text docs)) raw.
Proof.
  unfold _write_jsonl, staging_text. f_equal. f_equal.
  pose proof (write_jsonl_from_join (map rawdoc_dict docs) 0 EmptyString) as H.
  rewrite Z.add_0_l in H. rewrite H. simpl. by rewrite map_map.
Qed.

(** One record per line, and no line break after the last one. *)
Lemma staging_text_lines (kept : list RawDoc) :
  lines (staging_text kept) = map rawdoc_line kept.
Proof.
  apply lines_join; apply Forall_fmap, Forall_forall; intros d _.
  - apply record_line_nl_free.
  - apply record_line_nonempty.
Qed.

Lemma staging_text_no_trailing_newline (kept : list RawDoc) :
  ends_with_newline (staging_text kept) = false.
Proof.
  apply ends_with_newline_join; apply Forall_fmap, Forall_forall; intros d _.
  - apply record_line_nl_free.
  - apply record_line_nonempty.
Qed.

(** *** De-duplication *)

Lemma dedupe_from_first_seen (seen : gset string) (deduped rawdocs : list RawDoc) :
  dedupe_from seen deduped rawdocs = (deduped ++ first_seen seen rawdocs)%list.
Proof.
  revert seen deduped. induction rawdocs as [|d r IH]; intros seen deduped; simpl.
  - by rewrite app_nil_r.
  - destruct (truthy (arxiv_id d) && bool_decide (arxiv_id d ∉ seen)).
    + rewrite IH. by rewrite <- app_assoc.
    + apply IH.
Qed.

Lemma dedupe_first_seen (rawdocs : list RawDoc) : dedupe rawdocs = first_seen ∅ rawdocs.
Proof. unfold dedupe. by rewrite dedupe_from_first_seen. Qed.

Lemma first_seen_sublist (seen : gset string) (rawdocs : list RawDoc) :
  first_seen seen rawdocs `sublist_of` rawdocs.
Proof.
  revert seen. induction rawdocs as [|d r IH]; intros seen; simpl; [done|].
  destruct (truthy (arxiv_id d) && bool_decide (arxiv_id d ∉ seen)).
  - by apply sublist_skip.
  - by apply sublist_cons.
Qed.

Lemma first_seen_ids (seen : gset string) (rawdocs : list RawDoc) :
  Forall (λ d, arxiv_id d ≠ EmptyString ∧ arxiv_id d ∉ seen) (first_seen seen rawdocs).
Proof.
  revert seen. induction rawdocs as [|d r IH]; intros seen; simpl; [done|].
  destruct (truthy (arxiv_id d) && bool_decide (arxiv_id d ∉ seen)) eqn:E.
  - apply andb_true_iff in E as [Ht Hs]. apply truthy_true in Ht.
    apply bool_decide_eq_true in Hs. constructor; [done|].
    eapply Forall_impl; [apply IH|]. intros x [Hx1 Hx2]. split; [done|].
    intros Hin. apply Hx2. by apply elem_of_union_r.
  - apply IH.
Qed.

Lemma first_seen_with_id (a : string) (seen : gset string) (rawdocs : list RawDoc) :
  with_id a (first_seen seen rawdocs)
  = if decide (a = EmptyString ∨ a ∈ seen) then [] else take 1 (with_id a rawdocs).
Proof.
  unfold with_id. revert seen. induction rawdocs as [|d r IH]; intros seen; simpl.
  { by destruct (decide _). }
  destruct (truthy (arxiv_id d) && bool_decide (arxiv_id d ∉ seen)) eqn:E.
  - apply andb_true_iff in E as [Ht Hs]. apply truthy_true in Ht.
    apply bool_decide_eq_true in Hs.
    rewrite !filter_cons. destruct (decide (arxiv_id d = a)) as [<-|Hne].
    + rewrite IH. rewrite decide_True by (right; apply elem_of_union_l, elem_of_singleton; done).
      rewrite decide_False by (intros [?|?]; done). done.
    + rewrite IH. destruct (decide (a = EmptyString ∨ a ∈ seen)) as [Hd|Hd].
      * rewrite decide_True; [done|]. destruct Hd as [?|?]; [by left|].
        right. by apply elem_of_union_r.
      * rewrite decide_False; [done|]. intros [?|Hin]; [by apply Hd; left|].
        apply elem_of_union in Hin as [Hin|Hin]; [|by apply Hd; right].
        apply elem_of_singleton in Hin. congruence.
  - rewrite IH. rewrite filter_cons.
    destruct (decide (arxiv_id d = a)) as [Heq|Hne]; [|done].
    subst a. apply andb_false_iff in E.
    destruct (decide (arxiv_id d = EmptyString ∨ arxiv_id d ∈ seen)) as [_|Hn]; [done|].
    exfalso. apply Hn. destruct E as [E|E].
    + left. destruct (arxiv_id d); [done | discriminate].
    + right. apply bool_decide_eq_false in E. by apply dec_stable.
Qed.

Lemma first_seen_NoDup (seen : gset string) (rawdocs : list RawDoc) :
  NoDup (map arxiv_id (first_seen seen rawdocs)).
Proof.
  revert seen. induction rawdocs as [|d r IH]; intros seen; simpl; [constructor|].
  destruct (truthy (arxiv_id d) && bool_decide (arxiv_id d ∉ seen)); [|apply IH].
  simpl. constructor; [|apply IH].
  intros Hin. apply list_elem_of_fmap in Hin as (x & Hx & Hin).
  pose proof (first_seen_ids ({[arxiv_id d]} ∪ seen) r) as Hall.
  rewrite Forall_forall in Hall. destruct (Hall x Hin) as [_ Hnot].
  apply Hnot, elem_of_union_l, elem_of_singleton. done.
Qed.

(** *** Paging *)

Lemma fetch_loop_defined (feed : Feed) (query : string) (max_results : Z)
    (fuel : nat) (results : list Entry) (fetched : Z) :
  (Z.to_nat (max_results - fetched) ≤ fuel)%nat →
  fetch_loop fuel feed query max_results results fetched ≠ None.
Proof.
  revert results fetched. induction fuel as [|fuel IH]; intros results fetched Hfuel.
  - simpl. destruct (Z.ltb_spec fetched max_results); [lia | done].
  - simpl. destruct (Z.ltb_spec fetched max_results); [|done].
    destruct (feed _) as [e|status_code entries]; [done|].
    destruct (negb (status_code =? 200)); [done|].
    destruct entries as [|e entries]; [done|].
    apply IH. simpl length. lia.
Qed.

(** The fuel given by [_fetch_results] is enough: the harvester always
    comes to an end, with a result or with an exception. *)
Lemma fetch_results_defined (feed : Feed) (query : string) (max_results : Z) :
  _fetch_results feed query max_results ≠ None.
Proof. apply fetch_loop_defined. by rewrite Z.sub_0_r. Qed.

Lemma crawl_defined (feed : Feed) (timestamp cwd : string) (raw : dir)
    (categories : list string) (max_results : Z) (query : option string) :
  crawl_arxiv_to_jsonl feed timestamp cwd raw categories max_results query ≠ None.
Proof.
  unfold crawl_arxiv_to_jsonl.
  pose proof (fetch_results_defined feed (build_query categories query) max_results).
  by destruct (_fetch_results feed (build_query categories query) max_results) as [[?|?]|].
Qed.

Lemma fetch_loop_paged (feed : Feed) (query : string) (max_results : Z)
    (fuel : nat) (results : list Entry) (fetched : Z) :
  responsive feed →
  (Z.to_nat (max_results - fetched) ≤ fuel)%nat →
  ∃ final, fetch_loop fuel feed query max_results results fetched = Some (Returns final)
           ∧ paged feed query max_results fetched results final.
Proof.
  intros Hfeed. revert results fetched.
  induction fuel as [|fuel IH]; intros results fetched Hfuel.
  - simpl. destruct (Z.ltb_spec fetched max_results); [lia|].
    exists results. split; [done | by apply paged_enough].
  - simpl. destruct (Z.ltb_spec fetched max_results) as [Hlt|Hge].
    2:{ exists results. split; [done | by apply paged_enough]. }
    destruct (Hfeed (page_request query max_results fetched)) as (st & es & Hreq).
    unfold page_request in Hreq. rewrite Hreq.
    destruct (Z.eqb_spec st 200) as [->|Hst]; simpl.
    + destruct es as [|e es].
      * exists results. split; [done | by apply paged_exhausted].
      * destruct (IH (results ++ e :: es)%list (fetched + Z.of_nat (length (e :: es))))
          as (final & Hrun & Hpaged); [simpl length; lia|].
        exists final. split; [done|]. eapply paged_more; eauto.
    + exists results. split; [done|]. eapply paged_bad_status; eauto.
Qed.

(** Paging has one result. *)
Lemma paged_functional (feed : Feed) (query : string) (max_results fetched : Z)
    (results final1 final2 : list Entry) :
  paged feed query max_results fetched results final1 →
  paged feed query max_results fetched results final2 →
  final1 = final2.
Proof.
  intros H1. revert final2.
  induction H1 as [f r Hge | f r st es Hlt Hreq Hst | f r Hlt Hreq
                  | f r es fin Hlt Hreq Hne Hrest IH];
    intros final2 H2; inversion H2; subst; try done; try lia;
    try congruence.
  - assert (es = entries) by congruence. subst. by apply IH.
Qed.

(** What paging ends with extends what it started from. *)
Lemma paged_prefix (feed : Feed) (query : string) (max_results fetched : Z)
    (results final : list Entry) :
  paged feed query max_results fetched results final → results `prefix_of` final.
Proof.
  induction 1 as [| | | f r es fin Hlt Hreq Hne Hrest IH]; try done.
  etrans; [|exact IH]. by apply prefix_app_r.
Qed.

Lemma crawl_returns (feed : Feed) (timestamp cwd : string) (raw : dir)
    (categories : list string) (max_results : Z) (query : option string)
    (entries : list Entry) :
  _fetch_results feed (build_query categories query) max_results = Some (Returns entries) →
  crawl_arxiv_to_jsonl feed timestamp cwd raw categories max_results query
  = Some (Returns (crawl_result timestamp cwd raw categories
                     (dedupe (converted timestamp entries)))).
Proof.
  intros Hfetch. unfold crawl_arxiv_to_jsonl. rewrite Hfetch.
  unfold crawl_result. by rewrite write_jsonl_text.
Qed.

Lemma crawl_returns_inv (feed : Feed) (timestamp cwd : string) (raw : dir)
    (categories : list string) (max_results : Z) (query : option string)
    (r : (nat * string) * dir) :
  crawl_arxiv_to_jsonl feed timestamp cwd raw categories max_results query
  = Some (Returns r) →
  ∃ entries,
    _fetch_results feed (build_query categories query) max_results = Some (Returns entries)
    ∧ r = crawl_result timestamp cwd raw categories (dedupe (converted timestamp entries)).
Proof.
  intros Hrun.
  destruct (_fetch_results feed (build_query categories query) max_results)
    as [[entries|e]|] eqn:Hfetch.
  - exists entries. split; [done|].
    rewrite (crawl_returns _ _ _ _ _ _ _ _ Hfetch) in Hrun. congruence.
  - unfold crawl_arxiv_to_jsonl in Hrun. rewrite Hfetch in Hrun. discriminate.
  - unfold crawl_arxiv_to_jsonl in Hrun. rewrite Hfetch in Hrun. discriminate.
Qed.

End Harvester.

(** ** Claims about the harvester *)

Section HarvesterClaims.
Import Crawler Samples.

Example build_query_categories : build_query ["cs.AI"] None = "(cat:cs.AI)".
Proof. reflexivity. Qed.

Example build_query_both :
  build_query ["cs.AI"; " cs.LG "] (Some "graph") = "(cat:cs.AI OR cat:cs.LG) AND graph".
Proof. reflexivity. Qed.

Example build_query_nothing : build_query [] None = "all".
Proof. reflexivity. Qed.

Example arxiv_id_of_entry :
  arxiv_id (entry_to_rawdoc entry_a None) = "2401.00001v1"
  ∧ arxiv_id (entry_to_rawdoc entry_noid None) = EmptyString.
Proof. split; reflexivity. Qed.

Example out_name_sample :
  out_name sample_timestamp ["cs.AI"; "cs.CL"] = "20240105_101500_cs_AI-cs_CL.jsonl".
Proof. reflexivity. Qed.

(** Three entries, two of them with the same identifier: two lines. *)
Example crawl_three_entries :
  ∃ text,
    crawl_arxiv_to_jsonl feed_three sample_timestamp sample_cwd [] ["cs.AI"] 5 None
    = Some (Returns ((2%nat, "/srv/app/data/raw/20240105_101500_cs_AI.jsonl"),
                     [("20240105_101500_cs_AI.jsonl", mkFile UTF8 text)]))
    ∧ lines text = [rawdoc_line (entry_to_rawdoc entry_a (Some "20240105"));
                    rawdoc_line (entry_to_rawdoc entry_b (Some "20240105"))].
Proof. eexists. split; vm_compute; reflexivity. Qed.

(** C3, as amended.  For every feed that answers each page request
    with an HTTP response, [crawl_arxiv_to_jsonl] returns normally: paging
    stops at the first response whose status is not 200 and at the first
    page without entries (and once enough entries were fetched), the
    entries collected so far are kept, and they are converted,
    de-duplicated and written to the staging file. *)
Theorem crawl_keeps_partial_results (feed : Feed) (timestamp cwd : string) (raw : dir)
    (categories : list string) (max_results : Z) (query : option string) :
  responsive feed →
  ∃ entries,
    paged feed (build_query categories query) max_results 0 [] entries
    ∧ crawl_arxiv_to_jsonl feed timestamp cwd raw categories max_results query
      = Some (Returns (crawl_result timestamp cwd raw categories
                         (dedupe (converted timestamp entries)))).
Proof.
  intros Hfeed.
  destruct (fetch_loop_paged feed (build_query categories query) max_results
              (Z.to_nat max_results) [] 0 Hfeed) as (entries & Hrun & Hpaged).
  { rewrite Z.sub_0_r. done. }
  exists entries. split; [done|]. by apply crawl_returns.
Qed.

Lemma feed_503_responsive : responsive feed_503.
Proof. intros req. unfold feed_503. destruct (start req =? 0); eauto. Qed.

Lemma crawl_keeps_partial_results_witness :
  responsive feed_503
  ∧ ∃ entries,
      paged feed_503 (build_query ["cs.AI"] None) 5 0 [] entries
      ∧ crawl_arxiv_to_jsonl feed_503 sample_timestamp sample_cwd [] ["cs.AI"] 5 None
        = Some (Returns (crawl_result sample_timestamp sample_cwd [] ["cs.AI"]
                           (dedupe (converted sample_timestamp entries)))).
Proof.
  split; [exact feed_503_responsive|].
  exact (crawl_keeps_partial_results feed_503 sample_timestamp sample_cwd []
           ["cs.AI"] 5 None feed_503_responsive).
Defined.

(** C3, as stated, fails: the first page arrives, the request for the
    second page times out, and the exception leaves
    [crawl_arxiv_to_jsonl]; nothing is written. *)
Lemma crawl_timeout_propagates :
  feed_timeout (page_request (build_query ["cs.AI"] None) 5 0) = Response 200 [entry_a]
  ∧ crawl_arxiv_to_jsonl feed_timeout sample_timestamp sample_cwd [] ["cs.AI"] 5 None
    = Some (Raises RequestException)
  ∧ ¬ ∃ r, crawl_arxiv_to_jsonl feed_timeout sample_timestamp sample_cwd [] ["cs.AI"] 5 None
           = Some (Returns r).
Proof.
  assert (Hrun : crawl_arxiv_to_jsonl feed_timeout sample_timestamp sample_cwd []
                   ["cs.AI"] 5 None = Some (Raises RequestException))
    by (vm_compute; reflexivity).
  split; [reflexivity|]. split; [exact Hrun|].
  intros [r Hr]. rewrite Hrun in Hr. discriminate.
Qed.

(** C7, as amended.  For every harvested batch, the staging file holds
    one line per kept record; the kept records are a subsequence of the
    converted entries (first-seen order), no identifier occurs twice, and
    for every non-empty identifier the file holds exactly the first
    record that carries it. *)
Theorem harvest_keeps_first_of_nonempty_id (feed : Feed) (timestamp cwd : string)
    (raw : dir) (categories : list string) (max_results : Z) (query : option string)
    (n : nat) (path : string) (raw' : dir) :
  crawl_arxiv_to_jsonl feed timestamp cwd raw categories max_results query
  = Some (Returns ((n, path), raw')) →
  ∃ entries,
    let rawdocs := converted timestamp entries in
    let kept := dedupe rawdocs in
    _fetch_results feed (build_query categories query) max_results = Some (Returns entries)
    ∧ dir_read (out_name timestamp categories) raw' = Some (mkFile UTF8 (staging_text kept))
    ∧ lines (staging_text kept) = map rawdoc_line kept
    ∧ n = length kept
    ∧ kept `sublist_of` rawdocs
    ∧ NoDup (map arxiv_id kept)
    ∧ ∀ a, a ≠ EmptyString → with_id a kept = take 1 (with_id a rawdocs).
Proof.
  intros Hrun. apply crawl_returns_inv in Hrun as (entries & Hfetch & Hr).
  exists entries. cbn zeta. unfold crawl_result in Hr.
  injection Hr as -> -> ->.
  split; [done|]. split; [apply dir_read_write|].
  split; [apply staging_text_lines|]. split; [done|].
  rewrite dedupe_first_seen.
  split; [apply first_seen_sublist|]. split; [apply first_seen_NoDup|].
  intros a Ha. rewrite first_seen_with_id.
  apply decide_False. intros [?|Hin]; [done|]. by apply not_elem_of_empty in Hin.
Qed.

Lemma harvest_keeps_first_of_nonempty_id_witness :
  let r := crawl_result sample_timestamp sample_cwd [] ["cs.AI"]
             (dedupe (converted sample_timestamp [entry_a; entry_a'; entry_b])) in
  ∃ entries,
    let rawdocs := converted sample_timestamp entries in
    let kept := dedupe rawdocs in
    _fetch_results feed_three (build_query ["cs.AI"] None) 5 = Some (Returns entries)
    ∧ dir_read (out_name sample_timestamp ["cs.AI"]) r.2
      = Some (mkFile UTF8 (staging_text kept))
    ∧ lines (staging_text kept) = map rawdoc_line kept
    ∧ r.1.1 = length kept
    ∧ kept `sublist_of` rawdocs
    ∧ NoDup (map arxiv_id kept)
    ∧ ∀ a, a ≠ EmptyString → with_id a kept = take 1 (with_id a rawdocs).
Proof.
  intros r.
  apply (harvest_keeps_first_of_nonempty_id feed_three sample_timestamp sample_cwd []
           ["cs.AI"] 5 None r.1.1 r.1.2 r.2).
  vm_compute. reflexivity.
Defined.

(** C7, as stated, fails for the empty identifier: two entries share the
    identifier [http://arxiv.org/abs/], whose last segment is empty, and
    the staging file holds neither of them. *)
Lemma duplicate_empty_id_dropped :
  let rawdocs := converted sample_timestamp [entry_noid; entry_noid'] in
  map arxiv_id rawdocs = [EmptyString; EmptyString]
  ∧ with_id EmptyString (dedupe rawdocs) = []
  ∧ take 1 (with_id EmptyString rawdocs)
    = [entry_to_rawdoc entry_noid (Some "20240105")]
  ∧ with_id EmptyString (dedupe rawdocs) ≠ take 1 (with_id EmptyString rawdocs)
  ∧ crawl_arxiv_to_jsonl feed_noid sample_timestamp sample_cwd [] ["cs.AI"] 5 None
    = Some (Returns ((0%nat, "/srv/app/data/raw/20240105_101500_cs_AI.jsonl"),
                     [("20240105_101500_cs_AI.jsonl", mkFile UTF8 EmptyString)])).
Proof.
  cbn zeta. split; [reflexivity|]. split; [vm_compute; reflexivity|].
  split; [vm_compute; reflexivity|]. split; [vm_compute; discriminate|].
  vm_compute. reflexivity.
Qed.

(** C8.  The staging file never holds a record whose identifier is
    empty: every converted record with an empty [arxiv_id] is left out,
    whether or not another record shares it. *)
Theorem harvest_drops_empty_ids (feed : Feed) (timestamp cwd : string)
    (raw : dir) (categories : list string) (max_results : Z) (query : option string)
    (n : nat) (path : string) (raw' : dir) :
  crawl_arxiv_to_jsonl feed timestamp cwd raw categories max_results query
  = Some (Returns ((n, path), raw')) →
  ∃ entries,
    let rawdocs := converted timestamp entries in
    let kept := dedupe rawdocs in
    _fetch_results feed (build_query categories query) max_results = Some (Returns entries)
    ∧ dir_read (out_name timestamp categories) raw' = Some (mkFile UTF8 (staging_text kept))
    ∧ lines (staging_text kept) = map rawdoc_line kept
    ∧ n = length kept
    ∧ Forall (λ d, arxiv_id d ≠ EmptyString) kept
    ∧ ∀ d, d ∈ rawdocs → arxiv_id d = EmptyString → d ∉ kept.
Proof.
  intros Hrun. apply crawl_returns_inv in Hrun as (entries & Hfetch & Hr).
  exists entries. cbn zeta. unfold crawl_result in Hr.
  injection Hr as -> -> ->.
  split; [done|]. split; [apply dir_read_write|].
  split; [apply staging_text_lines|]. split; [done|].
  rewrite dedupe_first_seen.
  assert (Hall : Forall (λ d, arxiv_id d ≠ EmptyString)
                   (first_seen ∅ (converted timestamp entries))).
  { eapply Forall_impl; [apply first_seen_ids|]. by intros d [? _]. }
  split; [done|]. intros d _ Hd Hin.
  rewrite Forall_forall in Hall. by apply (Hall d Hin).
Qed.

Lemma harvest_drops_empty_ids_witness :
  let r := crawl_result sample_timestamp sample_cwd [] ["cs.AI"]
             (dedupe (converted sample_timestamp [entry_noid; entry_noid'])) in
  ∃ entries,
    let rawdocs := converted sample_timestamp entries in
    let kept := dedupe rawdocs in
    _fetch_results feed_noid (build_query ["cs.AI"] None) 5 = Some (Returns entries)
    ∧ dir_read (out_name sample_timestamp ["cs.AI"]) r.2
      = Some (mkFile UTF8 (staging_text kept))
    ∧ lines (staging_text kept) = map rawdoc_line kept
    ∧ r.1.1 = length kept
    ∧ Forall (λ d, arxiv_id d ≠ EmptyString) kept
    ∧ ∀ d, d ∈ rawdocs → arxiv_id d = EmptyString → d ∉ kept.
Proof.
  intros r.
  apply (harvest_drops_empty_ids feed_noid sample_timestamp sample_cwd []
           ["cs.AI"] 5 None r.1.1 r.1.2 r.2).
  vm_compute. reflexivity.
Defined.

End HarvesterClaims.

(** ** The enricher *)

Section Enricher.
Import Sys.

(** *** Dictionaries *)


Lemma dict_get_set_ne k k' v (d : dict) :
  k ≠ k' → dict_get k' (dict_set k v d) = dict_get k' d.
Proof.
  intros Hne. induction d as [|[k0 v0] d IH]; simpl.
  - by destruct (String.eqb_spec k' k); [congruence|].
  - destruct (String.eqb_spec k k0) as [->|Hk]; simpl.
    + by destruct (String.eqb_spec k' k0); [congruence|].
    + destruct (String.eqb_spec k' k0); [done | apply IH].
Qed.

Lemma dict_keys_set k v (d : dict) :
  k ∈ dict_keys d → dict_keys (dict_set k v d) = dict_keys d.
Proof.
  unfold dict_keys. induction d as [|[k0 v0] d IH]; simpl; intros Hin.
  - by apply elem_of_nil in Hin.
  - destruct (String.eqb_spec k k0) as [->|Hk]; simpl; [done|].
    f_equal. apply IH. apply elem_of_cons in Hin as [?|?]; [congruence | done].
Qed.


(** *** First-page text *)


Lemma detect_language_returns (env : Env) (text : json) (w : World) :
  ∃ lang w', Preprocess.detect_language env text w = (Returns (JStr lang), w')
             ∧ pdf_cache w' = pdf_cache w.
Proof.
  unfold Preprocess.detect_language, try_except.
  destruct text as [| b | z | s | l | m]; try (by eexists _, _).
  unfold bind, tick. cbn beta iota.
  destruct (detect env (clock w) s); by eexists _, _.
Qed.

(** *** The two steps of [extract_metadata] *)

(** Step 1 returns, with the record unchanged or with a new [pdf_raw]. *)
Lemma step_pdf_text_returns (env : Env) (doc m : dict) (w : World) :
  ∃ m' w', Preprocess.step_pdf_text env doc m w = (Returns m', w')
           ∧ (m' = m ∨ ∃ text, m' = dict_set "pdf_raw" (JStr text) m).
Proof.
  unfold Preprocess.step_pdf_text.
  destruct (json_truthy (dict_get_or "url_pdf" JNull doc)); [|by eexists _, _; split; [|left]].
  unfold try_except.
  match goal with |- context [match ?c w with _ => _ end] => destruct (c w) as [[m'|e] w1] eqn:E end.
  - exists m', w1. split; [done|]. right.
    unfold bind in E.
    destruct (dict_get_or "url_pdf" JNull doc) as [| b | z | u | l | mm];
      try (unfold raise in E; discriminate).
    destruct (PdfParser.extract_first_page_text env u false w) as [[text|e] w2];
      [|discriminate].
    unfold ret in E. injection E as <- <-. by exists text.
  - unfold bind, print, ret. cbn beta iota. eexists _, _. split; [done | by left].
Qed.


(** Step 2 returns; it changes at most the three fields that the
    language model fills. *)
Lemma step_llm_returns (env : Env) (doc m : dict) (w : World) :
  ∃ m' w', Preprocess.step_llm env doc m w = (Returns m', w')
           ∧ (m' = m
              ∨ (∃ s k a, m' = dict_set "summary" s
                                 (dict_set "keywords" k (dict_set "affiliations" a m)))
              ∨ (∃ s k, m' = dict_set "summary" s (dict_set "keywords" k m))).
Proof.
  unfold Preprocess.step_llm.
  destruct (Preprocess.item "pdf_raw" m) as [| b | z | [|c r] | l | mm];
    unfold try_except;
    match goal with
    | |- context [match ?c w with _ => _ end] => destruct (c w) as [[m'|e] w1] eqn:E
    end;
    try (unfold bind, print, ret; cbn beta iota; eexists _, _; split; [done | by left]);
    exists m', w1; (split; [done|]); right;
    unfold bind in E;
    match type of E with
    | context [match ?c w with _ => _ end] => destruct (c w) as [[result|e] w2]; [|discriminate]
    end;
    unfold lift in E;
    destruct result as [| b' | z' | s' | l' | members]; try (cbv in E; discriminate);
    cbn [Preprocess.py_get] in E; unfold ret in E; injection E as <- <-; eauto.
Qed.


(** *** [extract_metadata] *)

Lemma enriched_shape_base (doc : dict) (title abstract language : json) :
  enriched_shape (Preprocess.base_metadata doc title abstract language).
Proof. split; reflexivity. Qed.

Lemma enriched_shape_set (k : string) (v : json) (m : dict) :
  k ∈ enriched_keys → k ≠ "locations" → enriched_shape m → enriched_shape (dict_set k v m).
Proof.
  intros Hk Hne [Hkeys Hloc]. split.
  - rewrite dict_keys_set; [done | by rewrite Hkeys].
  - by rewrite dict_get_set_ne.
Qed.

Ltac enriched_key :=
  first [ by (unfold enriched_keys; repeat (first [apply list_elem_of_here | apply list_elem_of_further]))
        | discriminate ].

Lemma extract_metadata_shape (env : Env) (doc : dict) (w : World) (m : dict) (w' : World) :
  Preprocess.extract_metadata env doc w = (Returns m, w') → enriched_shape m.
Proof.
  unfold Preprocess.extract_metadata, bind, lift.
  destruct (Preprocess.py_strip (dict_get_or "title" (JStr EmptyString) doc)) as [t|e];
    [|discriminate].
  destruct (Preprocess.py_strip (dict_get_or "abstract" (JStr EmptyString) doc)) as [a|e];
    [|discriminate].
  destruct (detect_language_returns env (dict_get_or "abstract" (JStr EmptyString) doc) w)
    as (lang & w1 & -> & _).
  destruct (step_pdf_text_returns env doc (Preprocess.base_metadata doc t a (JStr lang)) w1)
    as (m1 & w2 & -> & Hm1).
  destruct (step_llm_returns env doc m1 w2) as (m2 & w3 & -> & Hm2).
  intros [= <- <-].
  assert (H1 : enriched_shape m1).
  { destruct Hm1 as [->|[text ->]]; [apply enriched_shape_base|].
    apply enriched_shape_set; [enriched_key | enriched_key | apply enriched_shape_base]. }
  destruct Hm2 as [->|[(s & k & af & ->)|(s & k & ->)]]; [done| |];
    repeat (apply enriched_shape_set; [enriched_key | enriched_key |]); done.
Qed.


Lemma well_formed_doc_strings (doc : dict) :
  well_formed_doc doc = true →
  ∃ t a, dict_get_or "title" (JStr EmptyString) doc = JStr t
         ∧ dict_get_or "abstract" (JStr EmptyString) doc = JStr a.
Proof.
  unfold well_formed_doc. intros H. apply andb_true_iff in H as [Ht Ha].
  destruct (dict_get_or "title" _ doc); try discriminate.
  destruct (dict_get_or "abstract" _ doc); try discriminate. eauto.
Qed.


(** A well-formed record is always enriched: [extract_metadata] returns. *)
Lemma extract_metadata_returns (env : Env) (doc : dict) (w : World) :
  well_formed_doc doc = true →
  ∃ m w', Preprocess.extract_metadata env doc w = (Returns m, w')
          ∧ dict_get "arxiv_id" m = Some (dict_get_or "arxiv_id" JNull doc).
Proof.
  intros Hwf. destruct (well_formed_doc_strings doc Hwf) as (t & a & Ht & Ha).
  unfold Preprocess.extract_metadata, bind, lift. rewrite Ht, Ha. cbn [Preprocess.py_strip].
  destruct (detect_language_returns env (JStr a) w) as (lang & w1 & -> & _).
  destruct (step_pdf_text_returns env doc
              (Preprocess.base_metadata doc (JStr (strip t)) (JStr (strip a)) (JStr lang)) w1)
    as (m1 & w2 & -> & Hm1).
  destruct (step_llm_returns env doc m1 w2) as (m2 & w3 & -> & Hm2).
  exists m2, w3. split; [done|].
  assert (H1 : dict_get "arxiv_id" m1 = Some (dict_get_or "arxiv_id" JNull doc)).
  { destruct Hm1 as [->|[text ->]]; [done|]. by rewrite dict_get_set_ne. }
  destruct Hm2 as [->|[(s & k & af & ->)|(s & k & ->)]]; [done| |];
    by rewrite !dict_get_set_ne.
Qed.


(** *** Files *)

Lemma mapM_returns_inv {A B} (f : A → M B) (xs : list A) (w : World)
    (ys : list B) (w' : World) :
  mapM f xs w = (Returns ys, w') →
  Forall2 (λ x y, ∃ wi wi', f x wi = (Returns y, wi')) xs ys.
Proof.
  revert w ys w'. induction xs as [|x xs IH]; intros w ys w'; simpl.
  - unfold ret. intros [= <- <-]. constructor.
  - unfold bind at 1. destruct (f x w) as [[y|e] w1] eqn:Hx; [|discriminate].
    unfold bind at 1. destruct (mapM f xs w1) as [[ys'|e] w2] eqn:Hxs; [|discriminate].
    unfold ret. intros [= <- <-]. constructor; eauto.
Qed.


Lemma enriched_text_unlines (enriched : list dict) :
  Preprocess.enriched_text enriched = unlines (map record_line enriched).
Proof. induction enriched as [|d r IH]; simpl; [done | by rewrite IH]. Qed.

Lemma enriched_text_lines (enriched : list dict) :
  lines (Preprocess.enriched_text enriched) = map record_line enriched.
Proof.
  rewrite enriched_text_unlines. apply lines_unlines, Forall_fmap, Forall_forall.
  intros d _. apply record_line_nl_free.
Qed.

Lemma enriched_text_trailing_newline (enriched : list dict) :
  enriched ≠ [] → ends_with_newline (Preprocess.enriched_text enriched) = true.
Proof.
  intros Hne. rewrite enriched_text_unlines. apply ends_with_newline_unlines.
  by destruct enriched.
Qed.

Lemma process_raw_file_run (env : Env) (name : string) (w : World) (f : file)
    (records : list json) (enriched : list dict) (w1 : World) :
  dir_read name (raw_dir w) = Some f →
  load_records (json_loads env) (lines (f_text f)) = Returns records →
  mapM (enrich_record env) records w = (Returns enriched, w1) →
  Preprocess.process_raw_file env name w
  = (Returns (), processed_world name f enriched w1).
Proof.
  intros Hf Hrec Hmap. unfold Preprocess.process_raw_file.
  unfold bind at 1, get_world at 1. cbn beta iota. rewrite Hf.
  unfold bind at 1, lift at 1. rewrite Hrec.
  unfold bind at 1. unfold enrich_record in Hmap. rewrite Hmap.
  reflexivity.
Qed.

Lemma process_raw_file_inv (env : Env) (name : string) (w w' : World) :
  Preprocess.process_raw_file env name w = (Returns (), w') →
  ∃ f records enriched w1,
    dir_read name (raw_dir w) = Some f
    ∧ load_records (json_loads env) (lines (f_text f)) = Returns records
    ∧ mapM (enrich_record env) records w = (Returns enriched, w1)
    ∧ w' = processed_world name f enriched w1.
Proof.
  intros Hrun.
  destruct (dir_read name (raw_dir w)) as [f|] eqn:Hf.
  2:{ unfold Preprocess.process_raw_file, bind, get_world in Hrun.
      cbn beta iota in Hrun. rewrite Hf in Hrun. discriminate. }
  destruct (load_records (json_loads env) (lines (f_text f))) as [records|e] eqn:Hrec.
  2:{ unfold Preprocess.process_raw_file, bind, get_world, lift in Hrun.
      cbn beta iota in Hrun. rewrite Hf, Hrec in Hrun. discriminate. }
  destruct (mapM (enrich_record env) records w) as [[enriched|e] w1] eqn:Hmap.
  - rewrite (process_raw_file_run _ _ _ _ _ _ _ Hf Hrec Hmap) in Hrun.
    injection Hrun as <-. by exists f, records, enriched, w1.
  - unfold Preprocess.process_raw_file, bind, get_world, lift in Hrun.
    cbn beta iota in Hrun. rewrite Hf, Hrec in Hrun.
    unfold enrich_record, bind, lift in Hmap. rewrite Hmap in Hrun. discriminate.
Qed.

(** Every record of an enriched file has the fixed shape. *)
Lemma processed_file_shape (env : Env) (name : string) (w w' : World) :
  Preprocess.process_raw_file env name w = (Returns (), w') →
  ∃ enriched,
    dir_read name (processed_dir w')
    = Some (mkFile UTF8 (Preprocess.enriched_text enriched))
    ∧ Forall enriched_shape enriched.
Proof.
  intros Hrun. apply process_raw_file_inv in Hrun as (f & records & enriched & w1 & _ & _ & Hmap & ->).
  exists enriched. split; [apply dir_read_write|].
  apply mapM_returns_inv in Hmap. induction Hmap as [|v m vs ms (wi & wi' & Hm) _ IH]; [done|].
  constructor; [|done]. unfold enrich_record, bind, lift in Hm.
  destruct (Preprocess.as_doc v) as [doc|e]; [|discriminate].
  by eapply extract_metadata_shape.
Qed.
End Enricher.

(** ** Claims about the staging files and the enricher *)

Section EnricherClaims.
Import Sys Samples.

(** C4, as amended.  Both staging files are written as UTF-8 text with
    one JSON record per line.  The file of the harvester has no line
    break after its last record; the file of the enricher, written under
    the name of the harvester file it was made from, ends every record,
    the last one included, with a line break. *)
Theorem staging_files_are_json_lines
    (feed : Crawler.Feed) (timestamp cwd : string) (raw : dir) (categories : list string)
    (max_results : Z) (query : option string) (n : nat) (path : string) (raw' : dir)
    (env : Env) (name : string) (w w' : World) :
  Crawler.crawl_arxiv_to_jsonl feed timestamp cwd raw categories max_results query
  = Some (Returns ((n, path), raw')) →
  Preprocess.process_raw_file env name w = (Returns (), w') →
  (∃ kept text,
      dir_read (Crawler.out_name timestamp categories) raw' = Some (mkFile UTF8 text)
      ∧ lines text = map rawdoc_line kept
      ∧ length kept = n
      ∧ ends_with_newline text = false)
  ∧ (∃ f records enriched text,
        dir_read name (raw_dir w) = Some f
        ∧ load_records (json_loads env) (lines (f_text f)) = Returns records
        ∧ length enriched = length records
        ∧ dir_read name (processed_dir w') = Some (mkFile UTF8 text)
        ∧ lines text = map record_line enriched
        ∧ (enriched ≠ [] → ends_with_newline text = true)).
Proof.
  intros Hcrawl Hrun. split.
  - apply crawl_returns_inv in Hcrawl as (entries & _ & Hr).
    unfold crawl_result in Hr. injection Hr as -> _ ->.
    eexists _, _. split; [apply dir_read_write|].
    split; [apply staging_text_lines|]. split; [done|].
    apply staging_text_no_trailing_newline.
  - apply process_raw_file_inv in Hrun as (f & records & enriched & w1 & Hf & Hrec & Hmap & ->).
    exists f, records, enriched. eexists. split; [done|]. split; [done|].
    split; [symmetry; by eapply Forall2_length, mapM_returns_inv|].
    split; [apply dir_read_write|].
    split; [apply enriched_text_lines | apply enriched_text_trailing_newline].
Qed.

Lemma staging_files_are_json_lines_witness :
  let r := crawl_result sample_timestamp sample_cwd [] ["cs.AI"]
             (Crawler.dedupe (converted sample_timestamp [entry_a; entry_a'; entry_b])) in
  let w' := (Preprocess.process_raw_file env_offline sample_file_name sample_world).2 in
  (∃ kept text,
      dir_read (Crawler.out_name sample_timestamp ["cs.AI"]) r.2 = Some (mkFile UTF8 text)
      ∧ lines text = map rawdoc_line kept
      ∧ length kept = r.1.1
      ∧ ends_with_newline text = false)
  ∧ (∃ f records enriched text,
        dir_read sample_file_name (raw_dir sample_world) = Some f
        ∧ load_records (json_loads env_offline) (lines (f_text f)) = Returns records
        ∧ length enriched = length records
        ∧ dir_read sample_file_name (processed_dir w') = Some (mkFile UTF8 text)
        ∧ lines text = map record_line enriched
        ∧ (enriched ≠ [] → ends_with_newline text = true)).
Proof.
  intros r w'.
  apply (staging_files_are_json_lines Samples.feed_three sample_timestamp sample_cwd []
           ["cs.AI"] 5 None r.1.1 r.1.2 r.2 env_offline sample_file_name sample_world w').
  - vm_compute. reflexivity.
  - vm_compute. reflexivity.
Defined.

(** C4, as stated, fails for the enricher: the enriched file made from a
    staging file with one record ends with a line break. *)
Lemma enriched_file_ends_with_newline :
  ∃ out,
    (Preprocess.process_raw_file env_offline sample_file_name sample_world).1 = Returns ()
    ∧ dir_read sample_file_name
        (processed_dir (Preprocess.process_raw_file env_offline sample_file_name sample_world).2)
      = Some out
    ∧ length (lines (f_text out)) = 1%nat
    ∧ ends_with_newline (f_text out) = true.
Proof.
  eexists. split; [vm_compute; reflexivity|]. split; [vm_compute; reflexivity|].
  split; vm_compute; reflexivity.
Qed.


Lemma sample_pdf_fails : pdf_fails env_no_pdf sample_world sample_doc.
Proof. eexists. split; [reflexivity|]. unfold pdf_unreadable. vm_compute. done. Qed.

(** The download fails and the language model answers: the summary is
    the one of the fallback call. *)
Example sample_enriched_with_fallback :
  ∃ m, (Preprocess.extract_metadata env_no_pdf sample_doc sample_world).1 = Returns m
       ∧ dict_get "pdf_raw" m = Some (JStr EmptyString)
       ∧ dict_get "summary" m = Some (JStr "A study of things.")
       ∧ dict_get "keywords" m = Some (JArr [JStr "things"])
       ∧ dict_get "affiliations" m = Some (JArr []).
Proof. eexists. split; [vm_compute; reflexivity|]. repeat split. Qed.

(** The download and the language model fail: the summary stays [None]. *)
Example sample_enriched_offline :
  ∃ m, (Preprocess.extract_metadata env_offline sample_doc sample_world).1 = Returns m
       ∧ dict_get "pdf_raw" m = Some (JStr EmptyString)
       ∧ dict_get "summary" m = Some JNull
       ∧ dict_get "keywords" m = Some (JArr []).
Proof. eexists. split; [vm_compute; reflexivity|]. repeat split. Qed.


(** C10.  Every record that [extract_metadata] produces has the fifteen
    keys of the literal, whatever the outcome of the download, the parse
    and the calls to the language model, and its [locations] is the
    empty list. *)
Theorem enriched_record_has_fixed_keys (env : Env) (doc : dict) (w : World)
    (m : dict) (w' : World) :
  Preprocess.extract_metadata env doc w = (Returns m, w') →
  dict_keys m = enriched_keys ∧ dict_get "locations" m = Some (JArr []).
Proof. apply extract_metadata_shape. Qed.

Lemma enriched_record_has_fixed_keys_witness :
  ∃ m : dict,
    (Preprocess.extract_metadata env_no_pdf sample_doc sample_world).1 = Returns m
    ∧ dict_keys m = enriched_keys ∧ dict_get "locations" m = Some (JArr []).
Proof.
  eexists. split; [vm_compute; reflexivity|].
  eapply (enriched_record_has_fixed_keys env_no_pdf sample_doc sample_world).
  vm_compute. reflexivity.
Defined.

End EnricherClaims.

(** ** The index builder *)

Section IndexBuilder.
Import BuildIndex SpecIndex.
Context {vec : Type}.
Implicit Types (env : Env vec) (df : DataFrame) (d : dir).

(** *** Frames *)


Lemma dict_keys_reindex (fields : list string) (r : dict) :
  dict_keys (reindex fields r) = fields.
Proof.
  unfold dict_keys, reindex. rewrite map_map. simpl. apply map_id.
Qed.


(** *** The merge step *)

Lemma merge_inv env (limit : option Z) d df d' :
  merge_and_deduplicate env limit d = (Returns df, d') →
  ∃ records table unique,
    glob_jsonl d ≠ []
    ∧ read_files env (glob_jsonl d) = Returns records
    ∧ frame_of_records records = Returns table
    ∧ drop_duplicates "arxiv_id" table = Returns unique
    ∧ df = apply_limit limit unique
    ∧ d' = delete_old (merge_inputs d) (dir_write "merged.jsonl" (to_json env df) d).
Proof.
  unfold merge_and_deduplicate, merge_inputs.
  destruct (glob_jsonl d) as [|nf files] eqn:Hglob; [discriminate|].
  destruct (read_files env (nf :: files)) as [records|e] eqn:Hread; [|discriminate].
  cbn [obind].
  destruct (frame_of_records records) as [table|e] eqn:Hframe; [|discriminate].
  cbn [obind].
  destruct (drop_duplicates "arxiv_id" table) as [unique|e] eqn:Hdrop; [|discriminate].
  intros [= <- <-]. by exists records, table, unique.
Qed.

Lemma merge_run env (limit : option Z) d records table unique :
  glob_jsonl d ≠ [] →
  read_files env (glob_jsonl d) = Returns records →
  frame_of_records records = Returns table →
  drop_duplicates "arxiv_id" table = Returns unique →
  merge_and_deduplicate env limit d
  = (Returns (apply_limit limit unique),
     delete_old (merge_inputs d)
       (dir_write "merged.jsonl" (to_json env (apply_limit limit unique)) d)).
Proof.
  unfold merge_and_deduplicate, merge_inputs. intros Hne Hread Hframe Hdrop.
  destruct (glob_jsonl d) as [|nf files]; [done|].
  rewrite Hread. cbn [obind]. rewrite Hframe. cbn [obind]. by rewrite Hdrop.
Qed.

(** *** Claims about the index build *)



(** *** Directories under the merge step *)

Lemma dir_unlink_filter (name : string) d :
  dir_unlink name d = filter (λ nf : string * file, nf.1 ≠ name) d.
Proof.
  induction d as [|[n g] d IH]; [done|].
  rewrite filter_cons. cbn [dir_unlink fst].
  destruct (String.eqb_spec name n) as [->|Hne].
  - by rewrite decide_False by (intros ?; done).
  - rewrite decide_True by congruence. by rewrite IH.
Qed.

Lemma filter_ext_in {A} (P Q : A → Prop) `{∀ x, Decision (P x)} `{∀ x, Decision (Q x)}
    (l : list A) :
  (∀ x, x ∈ l → (P x ↔ Q x)) → filter P l = filter Q l.
Proof.
  induction l as [|x l IH]; intros Hext; [done|]. rewrite !filter_cons.
  rewrite IH by (intros y Hy; apply Hext; by apply list_elem_of_further).
  destruct (decide (P x)) as [Hp|Hp], (decide (Q x)) as [Hq|Hq]; try done;
    exfalso; [apply Hq | apply Hp]; by apply (Hext x (list_elem_of_here _ _)).
Qed.

Lemma filter_all_in {A} (P : A → Prop) `{∀ x, Decision (P x)} (l : list A) :
  (∀ x, x ∈ l → P x) → filter P l = l.
Proof.
  induction l as [|x l IH]; intros Hall; [done|]. rewrite filter_cons.
  rewrite decide_True by apply Hall, list_elem_of_here.
  rewrite IH; [done|]. intros y Hy. by apply Hall, list_elem_of_further.
Qed.

Lemma delete_old_filter (names : list string) d :
  delete_old names d
  = filter (λ nf : string * file, ¬ (nf.1 ∈ names ∧ nf.1 ≠ "merged.jsonl")) d.
Proof.
  revert d. induction names as [|name names IH]; intros d; simpl.
  - symmetry. apply filter_all_in. intros nf _ [Hin _]. by apply elem_of_nil in Hin.
  - destruct (decide (name ≠ "merged.jsonl")) as [Hne|Heq].
    + rewrite bool_decide_eq_true_2 by done. rewrite IH, dir_unlink_filter.
      rewrite list_filter_filter. apply list_filter_iff. intros nf. split.
      * intros [Hk Hn] [Hin Hm]. apply elem_of_cons in Hin as [?|?]; [done|]. by apply Hk.
      * intros Hk. split.
        -- intros [Hin Hm]. apply Hk. split; [by apply list_elem_of_further | done].
        -- intros Heq. apply Hk. split; [rewrite Heq; apply list_elem_of_here | congruence].
    + rewrite bool_decide_eq_false_2 by done. rewrite IH.
      apply list_filter_iff. intros nf. apply dec_stable in Heq. subst name. split.
      * intros Hk [Hin Hm]. apply elem_of_cons in Hin as [?|?]; [done|]. by apply Hk.
      * intros Hk [Hin Hm]. apply Hk. split; [by apply list_elem_of_further | done].
Qed.

Lemma dir_names_write (name : string) (f : file) d :
  dir_names (dir_write name f d)
  = if decide (name ∈ dir_names d) then dir_names d else (dir_names d ++ [name])%list.
Proof.
  unfold dir_names. induction d as [|[n g] d IH]; [done|].
  cbn [dir_write map fst].
  destruct (String.eqb_spec name n) as [->|Hne]; cbn [map fst].
  - destruct (decide (n ∈ n :: map fst d)) as [_|Hn]; [done|].
    exfalso. apply Hn, list_elem_of_here.
  - rewrite IH. destruct (decide (name ∈ map fst d)) as [Hin|Hnin].
    + destruct (decide (name ∈ n :: map fst d)) as [_|Hn]; [done|].
      exfalso. by apply Hn, list_elem_of_further.
    + destruct (decide (name ∈ n :: map fst d)) as [Hn|_]; [|done].
      apply elem_of_cons in Hn as [?|?]; done.
Qed.

Lemma dir_write_NoDup (name : string) (f : file) d :
  NoDup (dir_names d) → NoDup (dir_names (dir_write name f d)).
Proof.
  intros Hd. rewrite dir_names_write. destruct (decide (name ∈ dir_names d)); [done|].
  apply NoDup_app. split; [done|]. split; [|apply NoDup_singleton].
  intros x Hx Hx'. apply list_elem_of_singleton in Hx'. by subst.
Qed.

Lemma dir_write_elem (name : string) (f : file) d (nf : string * file) :
  NoDup (dir_names d) →
  nf ∈ dir_write name f d → nf = (name, f) ∨ (nf ∈ d ∧ nf.1 ≠ name).
Proof.
  unfold dir_names. induction d as [|[n g] d IH]; simpl; intros Hd.
  - intros Hin. apply list_elem_of_singleton in Hin. by left.
  - apply NoDup_cons in Hd as [Hn Hd].
    destruct (String.eqb_spec name n) as [->|Hne]; intros Hin;
      apply elem_of_cons in Hin as [->|Hin].
    + by left.
    + right. split; [by apply list_elem_of_further|].
      intros Heq. apply Hn. rewrite <- Heq. by apply list_elem_of_fmap_2.
    + right. split; [apply list_elem_of_here | simpl; congruence].
    + destruct (IH Hd Hin) as [?|[? ?]]; [by left|]. right.
      split; [by apply list_elem_of_further | done].
Qed.

Lemma dir_read_elem (name : string) (f : file) d :
  NoDup (dir_names d) → (name, f) ∈ d → dir_read name d = Some f.
Proof.
  unfold dir_names. induction d as [|[n g] d IH]; simpl; intros Hd Hin.
  - by apply elem_of_nil in Hin.
  - apply NoDup_cons in Hd as [Hn Hd]. apply elem_of_cons in Hin as [[= <- <-]|Hin].
    + by rewrite String.eqb_refl.
    + destruct (String.eqb_spec name n) as [->|Hne]; [|by apply IH].
      exfalso. apply Hn. by apply (list_elem_of_fmap_2 fst) in Hin.
Qed.


Lemma dir_write_same (name : string) (f : file) d :
  dir_read name d = Some f → dir_write name f d = d.
Proof.
  induction d as [|[n g] d IH]; simpl; [done|].
  destruct (String.eqb_spec name n) as [->|Hne].
  - by intros [= ->].
  - intros H. f_equal. by apply IH.
Qed.

Lemma filter_name_unique (name : string) (f : file) d :
  NoDup (dir_names d) → dir_read name d = Some f →
  filter (λ nf : string * file, nf.1 = name) d = [(name, f)].
Proof.
  unfold dir_names. induction d as [|[n g] d IH]; simpl; intros Hd; [done|].
  apply NoDup_cons in Hd as [Hn Hd]. rewrite filter_cons. cbn [fst].
  destruct (String.eqb_spec name n) as [->|Hne].
  - intros [= ->]. rewrite decide_True by done. f_equal.
    destruct (filter (λ nf : string * file, nf.1 = n) d) as [|x l] eqn:E; [done|].
    exfalso. apply Hn.
    assert (Hx : x ∈ filter (λ nf : string * file, nf.1 = n) d)
      by (rewrite E; apply list_elem_of_here).
    apply list_elem_of_filter in Hx as [<- Hx]. by apply list_elem_of_fmap_2.
  - intros Hr. rewrite decide_False by congruence. by apply IH.
Qed.

Lemma dir_names_filter_NoDup (P : string * file → Prop) `{∀ x, Decision (P x)} d :
  NoDup (dir_names d) → NoDup (dir_names (filter P d)).
Proof.
  unfold dir_names. induction d as [|[n g] d IH]; intros Hd; [done|].
  cbn [map fst] in Hd. apply NoDup_cons in Hd as [Hn Hd]. rewrite filter_cons.
  destruct (decide (P (n, g))); [|by apply IH].
  cbn [map fst]. apply NoDup_cons. split; [|by apply IH].
  intros Hin. apply Hn. apply list_elem_of_fmap in Hin as (x & -> & Hx).
  apply list_elem_of_filter in Hx as [_ Hx]. by apply list_elem_of_fmap_2.
Qed.

(** After the merge step the snapshot is the only file that the next
    merge finds. *)
Lemma glob_after_merge d (f : file) :
  NoDup (dir_names d) →
  glob_jsonl (delete_old (merge_inputs d) (dir_write "merged.jsonl" f d))
  = [("merged.jsonl", f)].
Proof.
  intros Hd. unfold glob_jsonl at 1. rewrite delete_old_filter, list_filter_filter.
  rewrite <- (filter_name_unique "merged.jsonl" f (dir_write "merged.jsonl" f d));
    [|by apply dir_write_NoDup | apply dir_read_write].
  apply filter_ext_in. intros nf Hin. split.
  - intros [Hj Hk]. destruct (decide (nf.1 = "merged.jsonl")) as [|Hne]; [done|].
    exfalso. apply Hk. split; [|done].
    apply dir_write_elem in Hin as [->|[Hin _]]; [done | | done].
    unfold merge_inputs, dir_names, glob_jsonl. apply list_elem_of_fmap_2.
    by apply list_elem_of_filter.
  - intros Heq. rewrite Heq. split; [done|]. by intros [_ ?].
Qed.

Lemma dir_after_merge d (f : file) :
  NoDup (dir_names d) →
  let d' := delete_old (merge_inputs d) (dir_write "merged.jsonl" f d) in
  dir_read "merged.jsonl" d' = Some f ∧ merge_inputs d' = ["merged.jsonl"].
Proof.
  intros Hd d'. pose proof (glob_after_merge d f Hd) as Hglob. fold d' in Hglob.
  split; [|unfold merge_inputs; by rewrite Hglob].
  apply dir_read_elem.
  - unfold d'. rewrite delete_old_filter.
    by apply dir_names_filter_NoDup, dir_write_NoDup.
  - assert (Hin : ("merged.jsonl", f) ∈ glob_jsonl d')
      by (rewrite Hglob; apply list_elem_of_here).
    unfold glob_jsonl in Hin. by apply list_elem_of_filter in Hin as [_ ?].
Qed.

(** *** Frames under the merge step *)

Lemma add_keys_NoDup (cols ks : list string) : NoDup cols → NoDup (add_keys cols ks).
Proof.
  revert cols. induction ks as [|k ks IH]; intros cols Hc; [done|]. simpl. apply IH.
  destruct (bool_decide (k ∈ cols)) eqn:E; [done|].
  apply bool_decide_eq_false in E. apply NoDup_app. split; [done|].
  split; [|apply NoDup_singleton].
  intros x Hx Hx'. apply list_elem_of_singleton in Hx'. by subst.
Qed.

Lemma add_keys_known (cols ks : list string) :
  Forall (λ k, k ∈ cols) ks → add_keys cols ks = cols.
Proof.
  induction 1 as [|k ks Hk _ IH]; [done|]. simpl.
  by rewrite bool_decide_eq_true_2.
Qed.

Lemma add_keys_fresh (cols ks : list string) :
  NoDup (cols ++ ks) → add_keys cols ks = (cols ++ ks)%list.
Proof.
  revert cols. induction ks as [|k ks IH]; intros cols Hnd; simpl.
  - by rewrite app_nil_r.
  - rewrite bool_decide_eq_false_2.
    + rewrite IH; rewrite <- app_assoc; done.
    + apply NoDup_app in Hnd as (_ & Hdisj & _). intros Hin.
      apply (Hdisj k Hin), list_elem_of_here.
Qed.

Lemma union_columns_NoDup (cols : list string) (ds : list dict) :
  NoDup cols → NoDup (union_columns cols ds).
Proof.
  revert cols. induction ds as [|r ds IH]; intros cols Hc; [done|].
  simpl. by apply IH, add_keys_NoDup.
Qed.

Lemma union_columns_known (cols : list string) (ds : list dict) :
  Forall (λ r, dict_keys r = cols) ds → union_columns cols ds = cols.
Proof.
  induction 1 as [|r ds Hr _ IH]; [done|]. simpl.
  rewrite add_keys_known; [done|]. rewrite Hr. by apply Forall_forall.
Qed.

Lemma reindex_own_keys (r : dict) : NoDup (dict_keys r) → reindex (dict_keys r) r = r.
Proof.
  unfold reindex, dict_keys. intros Hnd. rewrite map_map.
  rewrite <- (map_id r) at 2. apply map_ext_in. intros [k v] Hin. cbn [fst]. f_equal.
  apply list_elem_of_In in Hin. unfold dict_get_or.
  assert (Hget : dict_get k r = Some v); [|by rewrite Hget].
  clear -Hnd Hin. induction r as [|[k0 v0] r IH]; [by apply elem_of_nil in Hin|].
  cbn [map fst] in Hnd. apply NoDup_cons in Hnd as [Hk0 Hnd]. simpl.
  apply elem_of_cons in Hin as [[= <- <-]|Hin]; [by rewrite String.eqb_refl|].
  destruct (String.eqb_spec k k0) as [->|_]; [|by apply IH].
  exfalso. apply Hk0. by apply (list_elem_of_fmap_2 fst) in Hin.
Qed.

Lemma all_dicts_objects (ds : list dict) : all_dicts (map JObj ds) = Returns ds.
Proof. induction ds as [|r ds IH]; simpl; [done | by rewrite IH]. Qed.

Lemma frame_of_records_ok (records : list json) (table : DataFrame) :
  frame_of_records records = Returns table →
  frame_ok table ∧ (rows table = [] → columns table = []).
Proof.
  unfold frame_of_records. destruct (all_dicts records) as [ds|e]; [|discriminate].
  simpl. intros [= <-]. split; [split|]; simpl.
  - apply union_columns_NoDup, NoDup_nil_2.
  - apply Forall_fmap, Forall_forall. intros r _. apply dict_keys_reindex.
  - intros Hnil. by destruct ds.
Qed.

(** A well-formed frame with at least one row is rebuilt from its rows. *)
Lemma frame_of_rows (df : DataFrame) :
  frame_ok df → rows df ≠ [] → frame_of_records (map JObj (rows df)) = Returns df.
Proof.
  destruct df as [cols rs]. intros [Hnd Hkeys] Hne. simpl in *.
  unfold frame_of_records. rewrite all_dicts_objects. simpl.
  assert (Hcols : union_columns [] rs = cols).
  { destruct rs as [|r rs]; [done|]. apply Forall_cons in Hkeys as [Hr Hrs]. simpl.
    rewrite add_keys_fresh by (by rewrite app_nil_l, Hr). rewrite app_nil_l, Hr.
    by apply union_columns_known. }
  rewrite Hcols. f_equal. f_equal. rewrite <- (map_id rs) at 2.
  apply map_ext_in. intros r Hin. apply list_elem_of_In in Hin.
  rewrite Forall_forall in Hkeys. rewrite <- (Hkeys r Hin).
  apply reindex_own_keys. by rewrite (Hkeys r Hin).
Qed.

(** *** Duplicates *)

Lemma keys_of_length (col : string) (rs : list dict) (ks : list idkey) :
  keys_of col rs = Returns ks → length ks = length rs.
Proof.
  revert ks. induction rs as [|r rs IH]; intros ks; simpl; [by intros [= <-]|].
  destruct (id_key _) as [k|e]; [|discriminate]. simpl.
  destruct (keys_of col rs) as [ks'|e]; [|discriminate]. simpl.
  intros [= <-]. simpl. f_equal. by apply IH.
Qed.

Lemma keys_of_take (col : string) (rs : list dict) (ks : list idkey) (n : nat) :
  keys_of col rs = Returns ks → keys_of col (take n rs) = Returns (take n ks).
Proof.
  revert ks n. induction rs as [|r rs IH]; intros ks n; simpl.
  - intros [= <-]. by destruct n.
  - destruct (id_key _) as [k|e] eqn:Hk; [|discriminate]. simpl.
    destruct (keys_of col rs) as [ks'|e]; [|discriminate]. simpl.
    intros [= <-]. destruct n as [|n]; [done|]. simpl. rewrite Hk. simpl.
    by rewrite (IH ks' n).
Qed.

(** The rows that are kept have pairwise different keys, none of them
    seen before. *)
Lemma keep_first_keys (col : string) (seen : list idkey) (rs : list dict)
    (ks : list idkey) :
  keys_of col rs = Returns ks →
  ∃ ks', keys_of col (keep_first seen (zip ks rs)) = Returns ks'
         ∧ NoDup ks' ∧ Forall (λ k, k ∉ seen) ks'.
Proof.
  revert seen ks. induction rs as [|r rs IH]; intros seen ks; simpl.
  - intros [= <-]. exists []. split; [done|]. split; [constructor | done].
  - destruct (id_key _) as [k|e] eqn:Hk; [|discriminate]. simpl.
    destruct (keys_of col rs) as [ks0|e] eqn:Hks; [|discriminate]. simpl.
    intros [= <-]. simpl. destruct (bool_decide (k ∈ seen)) eqn:E.
    + by apply IH.
    + apply bool_decide_eq_false in E.
      destruct (IH (k :: seen) ks0 eq_refl) as (ks' & Hks' & Hnd & Hall).
      exists (k :: ks'). simpl. rewrite Hk, Hks'. simpl. split; [done|].
      split.
      * apply NoDup_cons. split; [|done]. intros Hin.
        rewrite Forall_forall in Hall. apply (Hall k Hin), list_elem_of_here.
      * constructor; [done|]. eapply Forall_impl; [exact Hall|].
        intros x Hx Hin. apply Hx. by apply list_elem_of_further.
Qed.

Lemma keep_first_fixed (col : string) (seen : list idkey) (rs : list dict)
    (ks : list idkey) :
  keys_of col rs = Returns ks → NoDup ks → Forall (λ k, k ∉ seen) ks →
  keep_first seen (zip ks rs) = rs.
Proof.
  revert seen ks. induction rs as [|r rs IH]; intros seen ks; simpl.
  - by intros [= <-].
  - destruct (id_key _) as [k|e]; [|discriminate]. simpl.
    destruct (keys_of col rs) as [ks0|e] eqn:Hks; [|discriminate]. simpl.
    intros [= <-] Hnd Hall. simpl.
    apply NoDup_cons in Hnd as [Hk Hnd]. apply Forall_cons in Hall as [Hks0 Hall].
    rewrite bool_decide_eq_false_2 by done. f_equal. apply (IH _ ks0); [done | done |].
    rewrite Forall_forall in Hall. apply Forall_forall. intros x Hx Hin.
    apply elem_of_cons in Hin as [->|Hin]; [done | by apply (Hall x)].
Qed.

Lemma keep_first_Forall (P : dict → Prop) (seen : list idkey) (rs : list dict)
    (ks : list idkey) :
  Forall P rs → Forall P (keep_first seen (zip ks rs)).
Proof.
  intros Hall. revert seen ks. induction Hall as [|r rs Hr _ IH]; intros seen ks.
  - by destruct ks.
  - destruct ks as [|k ks]; [done|]. simpl.
    destruct (bool_decide (k ∈ seen)); [apply IH|]. constructor; [done | apply IH].
Qed.

Lemma keep_first_nonempty (rs : list dict) (ks : list idkey) :
  length ks = length rs → rs ≠ [] → keep_first [] (zip ks rs) ≠ [].
Proof.
  destruct rs as [|r rs]; [done|]. destruct ks as [|k ks]; [done|]. intros _ _. simpl.
  destruct (bool_decide (k ∈ [])) eqn:E; [|done].
  apply bool_decide_eq_true in E. by apply elem_of_nil in E.
Qed.

Lemma drop_duplicates_inv (col : string) (table unique : DataFrame) :
  drop_duplicates col table = Returns unique →
  col ∈ columns table
  ∧ ∃ ks, keys_of col (rows table) = Returns ks
          ∧ unique = mkFrame (columns table) (keep_first [] (zip ks (rows table))).
Proof.
  unfold drop_duplicates. destruct (bool_decide (col ∈ columns table)) eqn:E; [|discriminate].
  apply bool_decide_eq_true in E.
  destruct (keys_of col (rows table)) as [ks|e]; [|discriminate]. simpl.
  intros [= <-]. split; [done|]. by exists ks.
Qed.

(** A table without duplicates is left as it is. *)
Lemma drop_duplicates_fixed (col : string) (df : DataFrame) (ks : list idkey) :
  col ∈ columns df → keys_of col (rows df) = Returns ks → NoDup ks →
  drop_duplicates col df = Returns df.
Proof.
  intros Hcol Hks Hnd. unfold drop_duplicates.
  rewrite bool_decide_eq_true_2 by done. rewrite Hks. simpl.
  rewrite (keep_first_fixed col [] (rows df) ks Hks Hnd).
  - by destruct df.
  - apply Forall_forall. intros x _. apply not_elem_of_nil.
Qed.

(** *** The limit *)

Lemma apply_limit_take (limit : option Z) (df : DataFrame) :
  ∃ k, apply_limit limit df = mkFrame (columns df) (take k (rows df)).
Proof.
  destruct df as [cols rs]. destruct limit as [n|]; simpl.
  - destruct (n =? 0).
    + exists (length rs). by rewrite firstn_all.
    + unfold head. simpl. destruct (0 <=? n); by eexists.
  - exists (length rs). by rewrite firstn_all.
Qed.

Lemma apply_limit_idemp (limit : option Z) (df : DataFrame) :
  limit_is_count limit → apply_limit limit (apply_limit limit df) = apply_limit limit df.
Proof.
  destruct limit as [n|]; simpl; [|done]. intros Hn.
  destruct (n =? 0); [done|]. unfold head. simpl.
  destruct (Z.leb_spec 0 n); [|lia]. by rewrite take_take, Nat.min_id.
Qed.

Lemma apply_limit_nonempty (limit : option Z) (df : DataFrame) :
  limit_is_count limit → rows df ≠ [] → rows (apply_limit limit df) ≠ [].
Proof.
  destruct limit as [n|]; simpl; [|done]. intros Hn Hne.
  destruct (Z.eqb_spec n 0); [done|]. unfold head. simpl.
  destruct (Z.leb_spec 0 n); [|lia].
  destruct (rows df) as [|r rs]; [done|].
  destruct (Z.to_nat n) as [|k] eqn:E; [lia | done].
Qed.

(** *** Reading a snapshot back *)

Lemma to_json_text_unlines env (rs : list dict) :
  to_json_text env rs = unlines (map (to_json_line env) rs).
Proof. induction rs as [|r rs IH]; simpl; [done | by rewrite IH]. Qed.

Lemma load_records_lines env (rs : list dict) :
  Forall (reads_back env) rs →
  load_records (json_loads env) (map (to_json_line env) rs) = Returns (map JObj rs).
Proof.
  induction 1 as [|r rs (Hload & Hnb & _) _ IH]; [done|]. simpl.
  by rewrite Hnb, Hload, IH.
Qed.

Lemma read_snapshot env (name : string) (df : DataFrame) :
  snapshot_readable env df →
  read_files env [(name, to_json env df)] = Returns (map JObj (rows df)).
Proof.
  intros Hread. simpl. rewrite to_json_text_unlines, lines_unlines.
  - rewrite load_records_lines by done. simpl. by rewrite app_nil_r.
  - apply Forall_fmap. eapply Forall_impl; [exact Hread|]. by intros r (_ & _ & ?).
Qed.

(** *** Claims about the merge step *)


Lemma merged_rows_unique env (limit : option Z) d df d' :
  merge_and_deduplicate env limit d = (Returns df, d') →
  ∃ ids, row_ids df = Returns ids ∧ NoDup ids.
Proof.
  intros Hmerge. apply merge_inv in Hmerge
    as (records & table & unique & _ & _ & _ & Hdrop & -> & _).
  apply drop_duplicates_inv in Hdrop as (_ & ks & Hks & ->).
  destruct (keep_first_keys "arxiv_id" [] (rows table) ks Hks) as (ks' & Hks' & Hnd & _).
  destruct (apply_limit_take limit (mkFrame (columns table) (keep_first [] (zip ks (rows table)))))
    as (k & ->).
  exists (take k ks'). unfold row_ids. cbn [rows].
  split; [by apply keys_of_take|]. eapply sublist_NoDup; [exact Hnd | apply sublist_take].
Qed.


(** C5, as amended.  With a limit that is absent, zero or positive, and
    a snapshot that is read back as it was written, running the merge
    step again on what a completed run left gives the same rows in the
    same order and leaves the directory, the snapshot included, as it
    was. *)
Theorem merge_twice_is_idempotent env (limit : option Z) d df d' :
  NoDup (dir_names d) →
  limit_is_count limit →
  merge_and_deduplicate env limit d = (Returns df, d') →
  snapshot_readable env df →
  merge_and_deduplicate env limit d' = (Returns df, d')
  ∧ dir_read "merged.jsonl" d' = Some (to_json env df).
Proof.
  intros Hd Hlimit Hmerge Hreadable.
  pose proof (merged_rows_unique env limit d df d' Hmerge) as (ids & Hids & Hnd).
  apply merge_inv in Hmerge
    as (records & table & unique & _ & _ & Hframe & Hdrop & Hdf & ->).
  apply frame_of_records_ok in Hframe as [[Hcols Hrows] Hempty].
  apply drop_duplicates_inv in Hdrop as (Hcol & ks & Hks & ->).
  assert (Hne : rows table ≠ []).
  { intros Hnil. rewrite (Hempty Hnil) in Hcol. by apply elem_of_nil in Hcol. }
  set (unique := mkFrame (columns table) (keep_first [] (zip ks (rows table)))) in *.
  assert (Hcolumns : columns df = columns table).
  { subst df. by destruct (apply_limit_take limit unique) as (k & ->). }
  assert (Hok : frame_ok df).
  { split; [by rewrite Hcolumns|]. rewrite Hcolumns. subst df.
    destruct (apply_limit_take limit unique) as (k & ->). cbn [rows].
    by apply Forall_take, keep_first_Forall. }
  assert (Hdfne : rows df ≠ []).
  { subst df. apply apply_limit_nonempty; [done|]. cbn [rows unique].
    apply keep_first_nonempty; [by eapply keys_of_length | done]. }
  destruct (dir_after_merge d (to_json env df) Hd) as [Hsnap Hinputs].
  pose proof (glob_after_merge d (to_json env df) Hd) as Hglob.
  split; [|done].
  rewrite (merge_run env limit _ (map JObj (rows df)) df df).
  - assert (Hsame : apply_limit limit df = df)
      by (rewrite Hdf; by apply apply_limit_idemp).
    rewrite Hsame, Hinputs. by rewrite (dir_write_same _ _ _ Hsnap).
  - by rewrite Hglob.
  - rewrite Hglob. by apply read_snapshot.
  - by apply frame_of_rows.
  - eapply drop_duplicates_fixed; [by rewrite Hcolumns | exact Hids | done].
Qed.

End IndexBuilder.

Section IndexSamples.
Import BuildIndex SpecIndex.

Example head_positive :
  rows (head 2 (mkFrame [] [row_1; row_2; row_3])) = [row_1; row_2].
Proof. reflexivity. Qed.

Example head_negative :
  rows (head (-1) (mkFrame [] [row_1; row_2; row_3])) = [row_1; row_2]
  ∧ rows (head (-5) (mkFrame [] [row_1; row_2; row_3])) = [].
Proof. split; reflexivity. Qed.

(** The two batches hold four records with three identifiers: the first
    record of each identifier is kept, in reading order. *)
Example merge_sample :
  ∃ df d', merge_and_deduplicate sample_env None sample_processed = (Returns df, d')
           ∧ rows df = [row_1; row_2; row_3]
           ∧ dir_names d' = ["merged.jsonl"].
Proof. eexists _, _. split; [vm_compute; reflexivity|]. split; reflexivity. Qed.

(** A build with limit 2: two vectors, the second one for a missing
    abstract. *)
Example build_sample :
  let r := build_index sample_env "m" (Some 2) sample_store in
  r.1 = Returns ()
  ∧ embeddings_npy r.2 = Some [16%nat; 0%nat]
  ∧ (ntotal <$> faiss_index r.2) = Some 2%nat.
Proof. repeat split; vm_compute; reflexivity. Qed.



Lemma sample_rows_read_back (rs : list dict) :
  rs ⊆ [row_1; row_1'; row_2; row_3] → Forall (reads_back sample_env) rs.
Proof.
  assert (Hknown : Forall (reads_back sample_env) [row_1; row_1'; row_2; row_3]).
  { repeat constructor; try apply record_line_nl_free; vm_compute; reflexivity. }
  intros Hsub. apply Forall_forall. intros r Hr.
  rewrite Forall_forall in Hknown. by apply Hknown, Hsub.
Qed.



Lemma merge_twice_is_idempotent_witness :
  let r := merge_and_deduplicate sample_env (Some 2) sample_processed in
  ∃ df,
    r.1 = Returns df
    ∧ length (rows df) = 2%nat
    ∧ merge_and_deduplicate sample_env (Some 2) r.2 = (Returns df, r.2)
    ∧ dir_read "merged.jsonl" r.2 = Some (to_json sample_env df).
Proof.
  intros r. eexists. split; [vm_compute; reflexivity|]. split; [reflexivity|].
  eapply (merge_twice_is_idempotent sample_env (Some 2) sample_processed).
  - apply (bool_decide_unpack _). vm_compute. reflexivity.
  - simpl. lia.
  - vm_compute. reflexivity.
  - apply sample_rows_read_back. intros x Hx. simpl in Hx.
    repeat (apply elem_of_cons in Hx as [->|Hx]);
      [apply list_elem_of_here | do 2 apply list_elem_of_further; apply list_elem_of_here
      | by apply elem_of_nil in Hx].
Defined.

(** C5, as stated, fails for a negative limit, with which [head] drops
    rows from the end: with [limit = -1] the first run keeps two of the
    three merged rows, and the second run, on what the first one left,
    keeps one; the two snapshots differ. *)
Lemma negative_limit_breaks_idempotence :
  let run1 := merge_and_deduplicate sample_env (Some (-1)) sample_processed in
  let run2 := merge_and_deduplicate sample_env (Some (-1)) run1.2 in
  ∃ df1 df2,
    run1.1 = Returns df1 ∧ run2.1 = Returns df2
    ∧ snapshot_readable sample_env df1
    ∧ rows df1 = [row_1; row_2] ∧ rows df2 = [row_1]
    ∧ dir_read "merged.jsonl" run1.2 ≠ dir_read "merged.jsonl" run2.2.
Proof.
  intros run1 run2. eexists _, _.
  split; [vm_compute; reflexivity|]. split; [vm_compute; reflexivity|].
  split.
  { apply sample_rows_read_back. intros x Hx. simpl in Hx.
    repeat (apply elem_of_cons in Hx as [->|Hx]);
      [apply list_elem_of_here | do 2 apply list_elem_of_further; apply list_elem_of_here
      | by apply elem_of_nil in Hx]. }
  split; [reflexivity|]. split; [reflexivity|].
  vm_compute. discriminate.
Qed.

End IndexSamples.

(* ===================================================================== *)
(** * Further properties of the stages *)
(* ===================================================================== *)

(** ** Strings *)

Lemma rstrip_idemp (s : string) : rstrip (rstrip s) = rstrip s.
Proof.
  induction s as [|c r IH]; [reflexivity|].
  cbn [rstrip]. destruct (rstrip r) as [|c' r'] eqn:E.
  - destruct (is_space c) eqn:Ec; cbn [rstrip]; [reflexivity|]. by rewrite Ec.
  - cbn [rstrip] in IH |- *. rewrite IH. reflexivity.
Qed.

Lemma lstrip_head (s : string) :
  lstrip s = EmptyString ∨ ∃ c r, lstrip s = String c r ∧ is_space c = false.
Proof.
  induction s as [|c r IH]; [by left|].
  cbn [lstrip]. destruct (is_space c) eqn:Ec; [exact IH|]. right. by exists c, r.
Qed.

Lemma rstrip_head (c : ascii) (r : string) :
  is_space c = false → ∃ r', rstrip (String c r) = String c r'.
Proof.
  intros Ec. cbn [rstrip]. destruct (rstrip r); [rewrite Ec|]; eauto.
Qed.

Lemma strip_head (s : string) :
  strip s = EmptyString ∨ ∃ c r, strip s = String c r ∧ is_space c = false.
Proof.
  unfold strip. destruct (lstrip_head s) as [->|(c & r & -> & Ec)]; [by left|].
  right. destruct (rstrip_head c r Ec) as [r' ->]. by exists c, r'.
Qed.

Lemma lstrip_strip (s : string) : lstrip (strip s) = strip s.
Proof.
  destruct (strip_head s) as [->|(c & r & -> & Ec)]; [reflexivity|].
  cbn [lstrip]. by rewrite Ec.
Qed.

Lemma strip_idemp (s : string) : strip (strip s) = strip s.
Proof.
  unfold strip at 1. rewrite lstrip_strip. unfold strip. apply rstrip_idemp.
Qed.


(** ** The harvester: queries and records *)

Section HarvesterMore.
Import Crawler SpecStages.

Lemma filter_truthy_strip_idemp (categories : list string) :
  filter (λ c, truthy c = true) (map strip (filter (λ c, truthy c = true) (map strip categories)))
  = filter (λ c, truthy c = true) (map strip categories).
Proof.
  induction categories as [|c r IH]; [reflexivity|].
  cbn [map]. rewrite filter_cons. destruct (decide (truthy (strip c) = true)) as [Hc|Hc].
  - cbn [map]. rewrite strip_idemp, filter_cons, decide_True by exact Hc. by rewrite IH.
  - exact IH.
Qed.

(** X1.  [build_query] never hands back an empty search query: without a
    usable category and without a query it asks for ["all"], and with a
    query but no usable category it sends the query as it is. *)
Theorem build_query_is_never_empty (categories : list string) (query : option string) :
  build_query categories query ≠ EmptyString
  ∧ (Forall (λ c, strip c = EmptyString) categories →
     build_query categories query
     = match query with
       | Some (String c r) => String c r
       | _ => "all"
       end).
Proof.
  split.
  - unfold build_query.
    destruct (truthy (join " OR " _)); cbn [truthy];
      destruct query as [[|c r]|]; cbn [or_empty truthy andb]; discriminate.
  - intros Hblank. unfold build_query.
    assert (filter (λ c, truthy c = true) (map strip categories) = []) as ->.
    { induction Hblank as [|c r Hc _ IH]; [reflexivity|].
      cbn [map]. rewrite filter_cons, Hc. cbn [truthy].
      destruct (decide (false = true)); [discriminate|exact IH]. }
    cbn. by destruct query as [[|c r]|].
Qed.

(** X2.  Categories enter the query stripped, and blank ones not at all:
    the query built from a list is the one built from its stripped,
    non-blank members. *)
Theorem build_query_normalises_categories (categories : list string) (query : option string) :
  build_query categories query
  = build_query (filter (λ c, truthy c = true) (map strip categories)) query.
Proof.
  unfold build_query. by rewrite filter_truthy_strip_idemp.
Qed.

Lemma rsplit_last_from_spec (sep : ascii) (acc s : string) :
  sep ∉ chars acc →
  (sep ∉ chars (rsplit_last_from sep acc s))
  ∧ (rsplit_last_from sep acc s = acc +:+ s
     ∨ ∃ pre, acc +:+ s = pre +:+ String sep (rsplit_last_from sep acc s)).
Proof.
  revert acc. induction s as [|c s IH]; intros acc Hacc.
  - cbn [rsplit_last_from]. rewrite sapp_nil_r. auto.
  - cbn [rsplit_last_from]. destruct (Ascii.eqb_spec c sep) as [->|Hne].
    + destruct (IH EmptyString) as [Hr Hs]; [apply not_elem_of_nil|].
      split; [exact Hr|]. right. destruct Hs as [Hs|[pre Hs]].
      * exists acc. cbn in Hs. by rewrite Hs.
      * exists (acc +:+ String sep pre). cbn in Hs. rewrite Hs at 1.
        rewrite sapp_assoc. reflexivity.
    + destruct (IH (acc +:+ String c EmptyString)) as [Hr Hs].
      { rewrite chars_app. intros [H|H]%elem_of_app; [by apply Hacc|].
        apply list_elem_of_singleton in H. congruence. }
      rewrite sapp_assoc in Hs. auto.
Qed.

(** X3.  The identifier of a record is the last path segment of the
    entry's [id]: it holds no slash, and the [id] is the identifier
    itself or ends in a slash followed by the identifier. *)
Theorem arxiv_id_is_last_path_segment (e : Entry) (crawl_date : option string) :
  let url := or_empty (e_id e) in
  let a := arxiv_id (entry_to_rawdoc e crawl_date) in
  ("/"%char ∉ chars a) ∧ (a = url ∨ ∃ pre, url = pre +:+ String "/" a).
Proof.
  cbn zeta. cbn [entry_to_rawdoc arxiv_id]. unfold rsplit_last.
  destruct (rsplit_last_from_spec "/" EmptyString (or_empty (e_id e))) as [H1 H2];
    [apply not_elem_of_nil|].
  split; [exact H1|]. destruct H2 as [H2|[pre H2]]; [by left|right; by exists pre].
Qed.

Lemma truthy_values_nonempty {A} (get : A → option string) (l : list A) :
  Forall (λ s, s ≠ EmptyString) (truthy_values get l).
Proof.
  induction l as [|a l IH]; [constructor|].
  unfold truthy_values in *. cbn [omap list_omap].
  destruct (get a) as [[|c r]|]; cbn [truthy]; auto.
Qed.

Lemma truthy_values_sublist {A} (get : A → option string) (l : list A) :
  truthy_values get l `sublist_of` omap get l.
Proof.
  induction l as [|a l IH]; [constructor|].
  unfold truthy_values in *. cbn [omap list_omap].
  destruct (get a) as [[|c r]|]; cbn [truthy].
  - by apply sublist_cons.
  - by apply sublist_skip.
  - exact IH.
Qed.

(** X4.  The text fields of a record are normalised: title and abstract
    carry no leading or trailing white space, and the author and
    category lists hold, in feed order, the names and terms that are
    present and not empty. *)
Theorem rawdoc_fields_are_normalised (e : Entry) (crawl_date : option string) :
  let d := entry_to_rawdoc e crawl_date in
  strip (title d) = title d
  ∧ strip (abstract d) = abstract d
  ∧ Forall (λ s, s ≠ EmptyString) (authors d)
  ∧ authors d `sublist_of` omap author_name (e_authors e)
  ∧ Forall (λ s, s ≠ EmptyString) (categories d)
  ∧ categories d `sublist_of` omap tag_term (e_tags e).
Proof.
  cbn zeta. cbn [entry_to_rawdoc title abstract authors categories].
  repeat split; auto using strip_idemp, truthy_values_nonempty, truthy_values_sublist.
Qed.

End HarvesterMore.

(** ** The harvester: paging *)

Section PagingMore.
Import Crawler SpecStages.

Lemma fetch_loop_unfold (fuel : nat) (feed : Feed) (query : string) (max_results : Z)
    (results : list Entry) (fetched : Z) :
  fetch_loop fuel feed query max_results results fetched
  = if fetched <? max_results then
      match fuel with
      | O => None
      | S fuel' =>
          match feed (page_request query max_results fetched) with
          | Fails e => Some (Raises e)
          | Response status_code entries =>
              if negb (status_code =? 200) then Some (Returns results)
              else
                match entries with
                | [] => Some (Returns results)
                | _ :: _ =>
                    fetch_loop fuel' feed query max_results
                      (results ++ entries) (fetched + Z.of_nat (length entries))
                end
          end
      end
    else Some (Returns results).
Proof. destruct fuel; reflexivity. Qed.

Lemma fetch_loop_serve (catalogue : list Entry) (page_size : nat) (query : string)
    (max_results : Z) (fuel k : nat) :
  (0 < page_size)%nat →
  (k ≤ length catalogue)%nat →
  (Z.to_nat (max_results - Z.of_nat k) ≤ fuel)%nat →
  fetch_loop fuel (serve catalogue page_size) query max_results
             (take k catalogue) (Z.of_nat k)
  = Some (Returns (take (Nat.max k (Z.to_nat max_results)) catalogue)).
Proof.
  intros Hp. revert k. induction fuel as [|fuel IH]; intros k Hk Hfuel;
    rewrite fetch_loop_unfold; destruct (Z.ltb_spec (Z.of_nat k) max_results) as [Hlt|Hge];
    try (do 3 f_equal; lia).
  unfold serve, page_request. cbn [req_max_results start]. rewrite Nat2Z.id.
  change (negb (200 =? 200)) with false. cbv iota.
  set (m := Nat.min (Z.to_nat (Z.min 2000 (max_results - Z.of_nat k))) page_size).
  assert (1 ≤ m ∧ k + m ≤ Z.to_nat max_results)%nat as [Hm1 Hm2] by (unfold m; lia).
  destruct (take m (drop k catalogue)) as [|e es] eqn:E.
  - assert (length (take m (drop k catalogue)) = 0%nat) as Hlen by (by rewrite E).
    rewrite length_take, length_drop in Hlen.
    rewrite !take_ge by lia. reflexivity.
  - rewrite <- E.
    assert (length (take m (drop k catalogue)) ≠ 0%nat) as Hpos by (by rewrite E).
    pose proof (length_take (drop k catalogue) m) as Hlen. rewrite length_drop in Hlen.
    rewrite length_take, length_drop in Hpos.
    assert ((take k catalogue ++ take m (drop k catalogue))%list
            = take (k + length (take m (drop k catalogue))) catalogue) as ->.
    { rewrite take_take_drop. rewrite Hlen.
      destruct (decide (m ≤ length catalogue - k)%nat).
      - f_equal. lia.
      - rewrite !take_ge by lia. reflexivity. }
    rewrite <- Nat2Z.inj_add. rewrite IH by lia. do 3 f_equal. lia.
Qed.

(** X5.  Against a server that holds a catalogue and serves it in pages,
    from the offset it is asked for and at most [page_size] entries at a
    time, paging collects exactly the first [max_results] entries of the
    catalogue, in order (all of it when it is shorter). *)
Theorem paging_collects_catalogue_prefix (catalogue : list Entry) (page_size : nat)
    (query : string) (max_results : Z) :
  (0 < page_size)%nat →
  _fetch_results (serve catalogue page_size) query max_results
  = Some (Returns (take (Z.to_nat max_results) catalogue)).
Proof.
  intros Hp. unfold _fetch_results.
  rewrite (fetch_loop_serve catalogue page_size query max_results _ 0 Hp); [done|lia|lia].
Qed.

Lemma paging_collects_catalogue_prefix_witness :
  (0 < 2)%nat
  ∧ _fetch_results (serve sample_catalogue 2) "all" 5
    = Some (Returns (take (Z.to_nat 5) sample_catalogue)).
Proof.
  split; [lia|]. apply (paging_collects_catalogue_prefix sample_catalogue 2 "all" 5). lia.
Defined.

Lemma fetch_loop_bounded (feed : Feed) (query : string) (max_results : Z)
    (fuel : nat) (results final : list Entry) :
  page_bounded feed →
  fetch_loop fuel feed query max_results results (Z.of_nat (length results))
  = Some (Returns final) →
  Z.of_nat (length final) ≤ Z.max (Z.of_nat (length results)) max_results.
Proof.
  intros Hb. revert results. induction fuel as [|fuel IH]; intros results;
    rewrite fetch_loop_unfold;
    destruct (Z.ltb_spec (Z.of_nat (length results)) max_results) as [Hlt|Hge];
    try (intros [= <-]; lia).
  destruct (feed _) as [e|status_code entries] eqn:Hfeed; [discriminate|].
  destruct (negb _); [intros [= <-]; lia|].
  destruct entries as [|e es] eqn:E; [intros [= <-]; lia|]. rewrite <- E in *.
  apply Hb in Hfeed. cbn [page_request req_max_results] in Hfeed.
  rewrite <- Nat2Z.inj_add, <- length_app. intros H%IH.
  rewrite length_app in H. lia.
Qed.

Lemma dedupe_length (rawdocs : list RawDoc) : (length (dedupe rawdocs) ≤ length rawdocs)%nat.
Proof. rewrite dedupe_first_seen. apply sublist_length, first_seen_sublist. Qed.

(** X6.  When the feed never hands back more entries than a page asks
    for, a crawl that returns has fetched, and so has written, at most
    [max_results] records. *)
Theorem harvest_size_is_bounded (feed : Feed) (timestamp cwd : string) (raw : dir)
    (categories : list string) (max_results : Z) (query : option string)
    (n : nat) (path : string) (raw' : dir) :
  page_bounded feed →
  crawl_arxiv_to_jsonl feed timestamp cwd raw categories max_results query
  = Some (Returns ((n, path), raw')) →
  ∃ entries,
    _fetch_results feed (build_query categories query) max_results = Some (Returns entries)
    ∧ Z.of_nat (length entries) ≤ Z.max 0 max_results
    ∧ (n ≤ length entries)%nat.
Proof.
  intros Hb (entries & Hfetch & Hr)%crawl_returns_inv. exists entries.
  split; [exact Hfetch|]. split.
  - apply (fetch_loop_bounded feed _ max_results _ [] entries Hb Hfetch).
  - injection Hr as -> _ _. etransitivity; [apply dedupe_length|].
    unfold converted. by rewrite length_map.
Qed.

Lemma serve_page_bounded (catalogue : list Entry) (page_size : nat) :
  page_bounded (serve catalogue page_size).
Proof. intros req sc es [= _ <-]. rewrite length_take. lia. Qed.

Lemma harvest_size_is_bounded_witness :
  page_bounded (serve sample_catalogue 1)
  ∧ ∃ entries,
      _fetch_results (serve sample_catalogue 1) (build_query ["cs.AI"] None) 3
      = Some (Returns entries)
      ∧ Z.of_nat (length entries) ≤ Z.max 0 3
      ∧ (2 ≤ length entries)%nat.
Proof.
  split; [apply serve_page_bounded|].
  pose (r := crawl_result Samples.sample_timestamp Samples.sample_cwd [] ["cs.AI"]
               (dedupe (converted Samples.sample_timestamp sample_catalogue))).
  apply (harvest_size_is_bounded (serve sample_catalogue 1) Samples.sample_timestamp
           Samples.sample_cwd [] ["cs.AI"] 3 None r.1.1 r.1.2 r.2 (serve_page_bounded _ _)).
  vm_compute. reflexivity.
Defined.

(** X7.  The entries of a page are taken as they come: when the first
    page already holds [max_results] entries or more, the harvest is
    that page, whole, and no second request is made. *)
Theorem first_page_is_taken_whole (feed : Feed) (query : string) (max_results : Z)
    (entries : list Entry) :
  0 < max_results →
  feed (page_request query max_results 0) = Response 200 entries →
  max_results ≤ Z.of_nat (length entries) →
  _fetch_results feed query max_results = Some (Returns entries).
Proof.
  intros Hpos Hfeed Hlen. unfold _fetch_results.
  destruct (Z.to_nat max_results) as [|fuel] eqn:Hfuel; [lia|].
  rewrite fetch_loop_unfold. destruct (Z.ltb_spec 0 max_results); [|lia].
  rewrite Hfeed. change (negb (200 =? 200)) with false. cbv iota.
  destruct entries as [|e es] eqn:E; [cbn in Hlen; lia|]. rewrite <- E in *.
  rewrite fetch_loop_unfold. destruct (Z.ltb_spec (0 + Z.of_nat (length entries)) max_results);
    [lia|reflexivity].
Qed.

Lemma first_page_is_taken_whole_witness :
  0 < 1
  ∧ Samples.feed_three (page_request "all" 1 0) = Response 200 sample_catalogue
  ∧ 1 ≤ Z.of_nat (length sample_catalogue)
  ∧ _fetch_results Samples.feed_three "all" 1 = Some (Returns sample_catalogue).
Proof.
  split; [lia|]. split; [reflexivity|]. split; [cbn; lia|].
  apply (first_page_is_taken_whole Samples.feed_three "all" 1 sample_catalogue);
    [lia|reflexivity|cbn; lia].
Defined.

(** X8.  With a [max_results] that is not positive no request is made:
    whatever the feed would do, the crawl returns a count of zero and
    leaves an empty staging file. *)
Theorem nonpositive_max_results_writes_empty_file (feed : Feed) (timestamp cwd : string)
    (raw : dir) (categories : list string) (max_results : Z) (query : option string) :
  max_results ≤ 0 →
  crawl_arxiv_to_jsonl feed timestamp cwd raw categories max_results query
  = Some (Returns ((0%nat, cwd +:+ "/" +:+ "data/raw/" +:+ out_name timestamp categories),
                   dir_write (out_name timestamp categories) (mkFile UTF8 EmptyString) raw)).
Proof.
  intros Hn. unfold crawl_arxiv_to_jsonl, _fetch_results.
  rewrite fetch_loop_unfold. destruct (Z.ltb_spec 0 max_results); [lia|]. reflexivity.
Qed.

Lemma nonpositive_max_results_writes_empty_file_witness :
  0 ≤ 0
  ∧ crawl_arxiv_to_jsonl feed_down Samples.sample_timestamp Samples.sample_cwd [] ["cs.AI"] 0 None
    = Some (Returns ((0%nat, "/srv/app/data/raw/20240105_101500_cs_AI.jsonl"),
                     [("20240105_101500_cs_AI.jsonl", mkFile UTF8 EmptyString)])).
Proof.
  split; [lia|].
  apply (nonpositive_max_results_writes_empty_file feed_down Samples.sample_timestamp
           Samples.sample_cwd [] ["cs.AI"] 0 None). lia.
Defined.

End PagingMore.

(** ** The PDF cache and the first page *)

Section PdfMore.
Import Sys SpecStages.

Lemma tick_run (w : World) : tick w = (Returns (clock w), after_call w).
Proof. reflexivity. Qed.

Lemma print_run (ev : event) (w : World) : print ev w = (Returns (), after_print ev w).
Proof. reflexivity. Qed.

Lemma same_dirs_refl (w : World) : same_dirs w w.
Proof. by repeat split. Qed.

Lemma same_dirs_trans (w1 w2 w3 : World) : same_dirs w1 w2 → same_dirs w2 w3 → same_dirs w1 w3.
Proof. intros (?&?&?) (?&?&?). repeat split; congruence. Qed.

(** What a run of [download_pdf] leaves behind: the directories of the
    stage are not touched, and at most one request is made. *)
Lemma download_pdf_frame (env : Env) (url : string) (force : bool) (w : World)
    (o : outcome (option string)) (w' : World) :
  PdfParser.download_pdf env url force w = (o, w') →
  same_dirs w w' ∧ (clock w ≤ clock w' ≤ S (clock w))%nat.
Proof.
  unfold PdfParser.download_pdf, bind, get_world, raise, ret.
  destruct (negb _); [intros [= <- <-]; split; [apply same_dirs_refl|lia]|].
  destruct (_ && negb force); [intros [= <- <-]; split; [apply same_dirs_refl|lia]|].
  rewrite tick_run. destruct (http_get env _ url);
    intros [= <- <-]; (split; [by repeat split|cbn; lia]).
Qed.

Lemma extract_first_page_text_from_pdf_run (env : Env) (path : string) (w : World) :
  ∃ text w', PdfParser.extract_first_page_text_from_pdf env path w = (Returns text, w')
             ∧ strip text = text ∧ same_dirs w w' ∧ clock w' = clock w
             ∧ pdf_cache w' = pdf_cache w.
Proof.
  unfold PdfParser.extract_first_page_text_from_pdf, bind, get_world, ret.
  destruct (pdf_cache w !! path) as [bytes|];
    [destruct (fitz_open env bytes) as [|[|n] text]|]; rewrite ?print_run;
    eexists _, _; (split; [reflexivity|]);
    repeat split; auto using strip_idemp.
Qed.

(** X9.  A PDF address that is not an [http] address never reaches the
    network: [download_pdf] raises at once, with the world as it was, and
    the enrichment step catches the exception, reports it and keeps the
    record as it stands. *)
Theorem invalid_pdf_url_is_skipped (env : Env) (doc m : dict) (u : string) (w : World) :
  dict_get_or "url_pdf" JNull doc = JStr u →
  u ≠ EmptyString →
  String.prefix "http" u = false →
  (∀ force, PdfParser.download_pdf env u force w
            = (Raises (ValueError "A valid arXiv PDF URL is required."), w))
  ∧ Preprocess.step_pdf_text env doc m w
    = (Returns m, after_print (Warn "PDF parse failed" (dict_get "arxiv_id" doc)) w).
Proof.
  intros Hu Hne Hpre.
  assert (∀ force, PdfParser.download_pdf env u force w
                   = (Raises (ValueError "A valid arXiv PDF URL is required."), w)) as Hdl.
  { intros force. unfold PdfParser.download_pdf. rewrite Hpre, andb_false_r. reflexivity. }
  split; [exact Hdl|].
  unfold Preprocess.step_pdf_text. rewrite Hu. cbn [json_truthy].
  apply truthy_true in Hne. rewrite Hne.
  unfold try_except, bind, PdfParser.extract_first_page_text. unfold bind at 1.
  rewrite Hdl. reflexivity.
Qed.

Lemma invalid_pdf_url_is_skipped_witness :
  let doc : dict := [("arxiv_id", JStr "2401.00001v1"); ("url_pdf", JStr "ftp://host/x.pdf")] in
  (∀ force, PdfParser.download_pdf Samples.env_offline "ftp://host/x.pdf" force
              Samples.sample_world
            = (Raises (ValueError "A valid arXiv PDF URL is required."), Samples.sample_world))
  ∧ Preprocess.step_pdf_text Samples.env_offline doc [] Samples.sample_world
    = (Returns [], after_print (Warn "PDF parse failed" (Some (JStr "2401.00001v1")))
                    Samples.sample_world).
Proof.
  apply (invalid_pdf_url_is_skipped Samples.env_offline
           [("arxiv_id", JStr "2401.00001v1"); ("url_pdf", JStr "ftp://host/x.pdf")] []
           "ftp://host/x.pdf" Samples.sample_world); [reflexivity|discriminate|reflexivity].
Defined.

Lemma download_pdf_cached (env : Env) (url : string) (w : World) :
  valid_url url = true →
  is_Some (pdf_cache w !! PdfParser._cached_pdf_path env url) →
  PdfParser.download_pdf env url false w
  = (Returns (Some (PdfParser._cached_pdf_path env url)), w).
Proof.
  unfold valid_url, PdfParser.download_pdf. intros -> Hc. cbn [negb].
  unfold bind, get_world. by rewrite bool_decide_true.
Qed.

(** X10.  A PDF that [download_pdf] handed back is in the cache, and is
    reused: the next call for the same address returns the same path
    without a request and leaves the world as it is. *)
Theorem downloaded_pdf_is_reused (env : Env) (url : string) (force : bool) (w : World)
    (path : string) (w' : World) :
  PdfParser.download_pdf env url force w = (Returns (Some path), w') →
  path = PdfParser._cached_pdf_path env url
  ∧ is_Some (pdf_cache w' !! path)
  ∧ PdfParser.download_pdf env url false w' = (Returns (Some path), w').
Proof.
  intros H.
  assert (valid_url url = true
          ∧ path = PdfParser._cached_pdf_path env url
          ∧ is_Some (pdf_cache w' !! path)) as (Hvalid & -> & Hc).
  { revert H. unfold PdfParser.download_pdf, valid_url, bind, get_world, raise, ret.
    destruct (truthy url && String.prefix "http" url); [cbn [negb]|discriminate].
    destruct (bool_decide (is_Some _) && negb force) eqn:Hhit.
    - intros [= <- <-]. apply andb_true_iff in Hhit as [Hc%bool_decide_eq_true _]. auto.
    - rewrite tick_run. destruct (http_get env _ url); try discriminate.
      intros [= <- <-]. repeat split. cbn [pdf_cache]. rewrite lookup_insert_eq. eauto. }
  repeat split; [exact Hc|]. by apply download_pdf_cached.
Qed.

Lemma downloaded_pdf_is_reused_witness :
  let w := after_call Samples.sample_world in
  let w' := (PdfParser.download_pdf env_flaky sample_url false w).2 in
  "data/pdf_cache/2401.00001v1.pdf" = PdfParser._cached_pdf_path env_flaky sample_url
  ∧ is_Some (pdf_cache w' !! "data/pdf_cache/2401.00001v1.pdf")
  ∧ PdfParser.download_pdf env_flaky sample_url false w'
    = (Returns (Some "data/pdf_cache/2401.00001v1.pdf"), w').
Proof.
  apply (downloaded_pdf_is_reused env_flaky sample_url false (after_call Samples.sample_world)).
  reflexivity.
Defined.

(** X11.  A download that breaks off leaves its partial file in the
    cache, and from then on that file is the PDF: [download_pdf] reports
    the failure once, and every later call, whatever the network would
    do by then, hands out the partial file without a request. *)
Theorem partial_download_is_never_retried (env : Env) (url written : string) (w : World) :
  let path := PdfParser._cached_pdf_path env url in
  valid_url url = true →
  pdf_cache w !! path = None →
  http_get env (clock w) url = DlBroken written →
  ∃ w1,
    PdfParser.download_pdf env url false w = (Returns None, w1)
    ∧ pdf_cache w1 = <[path := written]> (pdf_cache w)
    ∧ ∀ w2, pdf_cache w2 = pdf_cache w1 →
            PdfParser.download_pdf env url false w2 = (Returns (Some path), w2).
Proof.
  intros path Hvalid Hnone Hget. eexists. split; [|split].
  - unfold PdfParser.download_pdf. fold (valid_url url). rewrite Hvalid. cbn [negb].
    unfold bind, get_world. fold path. rewrite Hnone.
    rewrite bool_decide_false by (by intros [? ?]). cbn [andb].
    rewrite tick_run, Hget. reflexivity.
  - reflexivity.
  - intros w2 Hw2. apply download_pdf_cached; [exact Hvalid|].
    fold path. rewrite Hw2. cbn [pdf_cache]. rewrite lookup_insert_eq. eauto.
Qed.

Lemma partial_download_is_never_retried_witness :
  let path := "data/pdf_cache/2401.00001v1.pdf" in
  ∃ w1,
    PdfParser.download_pdf env_flaky sample_url false Samples.sample_world = (Returns None, w1)
    ∧ pdf_cache w1 = <[path := "%PDF-1.7 trunc"]> (pdf_cache Samples.sample_world)
    ∧ ∀ w2, pdf_cache w2 = pdf_cache w1 →
            PdfParser.download_pdf env_flaky sample_url false w2 = (Returns (Some path), w2).
Proof.
  apply (partial_download_is_never_retried env_flaky sample_url "%PDF-1.7 trunc"
           Samples.sample_world); reflexivity.
Defined.



End PdfMore.

(** ** The call to the language model *)

Section LlmMore.
Import Sys SpecStages.

Lemma replace_from_skip (old new : string) (k : nat) (c : ascii) (r : string) :
  replace_from old new (S k) (String c r) = replace_from old new k r.
Proof. reflexivity. Qed.

Lemma prefix_cons (a b : ascii) (s1 s2 : string) :
  String.prefix (String a s1) (String b s2)
  = if Ascii.eqb a b then String.prefix s1 s2 else false.
Proof.
  cbn [String.prefix]. destruct (ascii_dec a b) as [->|Hne].
  - by rewrite Ascii.eqb_refl.
  - by apply Ascii.eqb_neq in Hne as ->.
Qed.

Lemma prefix_app (old s : string) : String.prefix old (old +:+ s) = true.
Proof.
  induction old as [|a old IH]; [by destruct s|].
  cbn [String.append]. by rewrite prefix_cons, Ascii.eqb_refl.
Qed.

Lemma replace_from_drop (old new : string) (skipped s : string) :
  replace_from old new (String.length skipped) (skipped +:+ s) = replace_from old new O s.
Proof. induction skipped as [|c r IH]; [reflexivity|exact IH]. Qed.

(** An occurrence at the head is replaced, and the scan goes on behind it. *)
Lemma replace_head (a : ascii) (old new s : string) :
  replace (String a old) new (String a old +:+ s) = new +:+ replace (String a old) new s.
Proof.
  unfold replace. cbn [String.append replace_from].
  change (String a (old +:+ s)) with (String a old +:+ s). rewrite prefix_app.
  cbn [String.length Nat.pred]. by rewrite replace_from_drop.
Qed.

(** Text without the first character of [old] is copied. *)
Lemma replace_other (a : ascii) (old new pre s : string) :
  a ∉ chars pre →
  replace (String a old) new (pre +:+ s) = pre +:+ replace (String a old) new s.
Proof.
  unfold replace. induction pre as [|c r IH]; intros Hpre; [reflexivity|].
  apply not_elem_of_cons in Hpre as [Hc Hr].
  cbn [String.append replace_from]. rewrite prefix_cons.
  assert (Ascii.eqb a c = false) as -> by (apply Ascii.eqb_neq; congruence).
  by rewrite IH.
Qed.

Lemma replace_absent (old new s : string) :
  old ≠ EmptyString → contains old s = false → replace old new s = s.
Proof.
  intros Hold. unfold replace. induction s as [|c r IH]; [reflexivity|].
  cbn [contains replace_from]. intros [Hp Hr]%orb_false_iff.
  rewrite Hp, IH; [reflexivity|exact Hr].
Qed.

Lemma llm_extract_run (env : Env) (text prompt : string) (w : World) :
  LlmExtract.extract_metadata env text prompt w
  = (reply_value env (chat env (clock w) (replace "<TEXT>" text prompt)), after_call w).
Proof.
  unfold LlmExtract.extract_metadata, bind. rewrite tick_run.
  unfold reply_value. destruct (chat env _ _) as [e|[content|]]; try reflexivity.
  by destruct (json_loads env _).
Qed.

(** X13.  The text goes into the prompt where the placeholder [<TEXT>]
    stands, as it is: the model is asked once, with the prompt in which
    the text has taken the place of the placeholder, and a placeholder
    inside the text itself is not expanded again. *)
Theorem llm_text_replaces_placeholder (env : Env) (text pre post : string) (w : World) :
  "<"%char ∉ chars pre →
  contains "<TEXT>" post = false →
  LlmExtract.extract_metadata env text (pre +:+ "<TEXT>" +:+ post) w
  = (reply_value env (chat env (clock w) (pre +:+ text +:+ post)), after_call w).
Proof.
  intros Hpre Hpost. rewrite llm_extract_run.
  rewrite (replace_other "<" "TEXT>" text pre _ Hpre).
  rewrite (replace_head "<" "TEXT>" text post).
  by rewrite (replace_absent "<TEXT>" text post).
Qed.

Lemma llm_text_replaces_placeholder_witness :
  LlmExtract.extract_metadata Samples.env_no_pdf "about <TEXT> itself"
    ("Summarise: " +:+ "<TEXT>" +:+ " Answer in JSON.") Samples.sample_world
  = (reply_value Samples.env_no_pdf
       (chat Samples.env_no_pdf 0 ("Summarise: " +:+ "about <TEXT> itself" +:+ " Answer in JSON.")),
     after_call Samples.sample_world).
Proof.
  apply (llm_text_replaces_placeholder Samples.env_no_pdf "about <TEXT> itself"
           "Summarise: " " Answer in JSON." Samples.sample_world).
  - vm_compute. intros H. repeat (apply elem_of_cons in H as [H|H]; [discriminate H|]).
    by apply elem_of_nil in H.
  - reflexivity.
Defined.

(** X14.  A prompt in which [<TEXT>] does not occur is sent as it is:
    the text is then not part of the request at all. *)
Theorem prompt_without_placeholder_is_sent_unchanged (env : Env) (text prompt : string)
    (w : World) :
  contains "<TEXT>" prompt = false →
  LlmExtract.extract_metadata env text prompt w
  = (reply_value env (chat env (clock w) prompt), after_call w).
Proof.
  intros Hp. rewrite llm_extract_run. by rewrite replace_absent.
Qed.

Lemma prompt_without_placeholder_is_sent_unchanged_witness :
  LlmExtract.extract_metadata Samples.env_no_pdf "We study things."
    "Summarise: <<<TEXT GOES HERE>>>" Samples.sample_world
  = (reply_value Samples.env_no_pdf (chat Samples.env_no_pdf 0 "Summarise: <<<TEXT GOES HERE>>>"),
     after_call Samples.sample_world).
Proof.
  apply (prompt_without_placeholder_is_sent_unchanged Samples.env_no_pdf "We study things."
           "Summarise: <<<TEXT GOES HERE>>>" Samples.sample_world).
  reflexivity.
Defined.

End LlmMore.

(** ** The enricher: what a run touches *)

Section EnricherMore.
Import Sys SpecStages.

Lemma dir_read_write_ne (name other : string) (f : file) (d : dir) :
  other ≠ name → dir_read other (dir_write name f d) = dir_read other d.
Proof.
  intros Hne. induction d as [|[n g] r IH]; cbn [dir_write dir_read].
  - by apply String.eqb_neq in Hne as ->.
  - destruct (String.eqb_spec name n) as [->|Hn]; cbn [dir_read].
    + by apply String.eqb_neq in Hne as ->.
    + by rewrite IH.
Qed.

Lemma dir_read_unlink (name : string) (d : dir) : dir_read name (dir_unlink name d) = None.
Proof.
  induction d as [|[n g] r IH]; [reflexivity|]. cbn [dir_unlink].
  destruct (String.eqb_spec name n) as [->|Hn]; [exact IH|].
  cbn [dir_read]. by apply String.eqb_neq in Hn as ->.
Qed.

Lemma dir_read_unlink_ne (name other : string) (d : dir) :
  other ≠ name → dir_read other (dir_unlink name d) = dir_read other d.
Proof.
  intros Hne. induction d as [|[n g] r IH]; [reflexivity|]. cbn [dir_unlink].
  destruct (String.eqb_spec name n) as [->|Hn]; cbn [dir_read].
  - by apply String.eqb_neq in Hne as ->.
  - by rewrite IH.
Qed.

Lemma detect_language_dirs (env : Env) (text : json) (w : World) :
  same_dirs w (Preprocess.detect_language env text w).2.
Proof.
  unfold Preprocess.detect_language, try_except, bind.
  destruct text; try apply same_dirs_refl.
  rewrite tick_run. by destruct (detect env _ _).
Qed.

Lemma first_page_text_run (env : Env) (url : string) (force : bool) (w : World) :
  valid_url url = true →
  ∃ text w',
    PdfParser.extract_first_page_text env url force w = (Returns text, w')
    ∧ strip text = text
    ∧ same_dirs w w'.
Proof.
  intros Hvalid. unfold PdfParser.extract_first_page_text, bind at 1.
  destruct (PdfParser.download_pdf env url force w) as [o w1] eqn:Hdl.
  pose proof (download_pdf_frame _ _ _ _ _ _ Hdl) as [Hd _].
  assert (∃ p, o = Returns p) as [[path|] ->].
  { revert Hdl. unfold PdfParser.download_pdf. fold (valid_url url). rewrite Hvalid.
    cbn [negb]. unfold bind, get_world, ret. destruct (_ && negb force); [intros [= <- _]; eauto|].
    rewrite tick_run. destruct (http_get env _ url); intros [= <- _]; eauto. }
  - unfold bind, get_world. destruct (negb _).
    + exists EmptyString, w1. auto.
    + destruct (extract_first_page_text_from_pdf_run env path w1)
        as (text & w' & -> & Hs & Hd' & _).
      exists text, w'. repeat split; auto; eapply same_dirs_trans; eauto.
  - exists EmptyString, w1. auto.
Qed.

Lemma first_page_text_dirs (env : Env) (url : string) (force : bool) (w : World) :
  same_dirs w (PdfParser.extract_first_page_text env url force w).2.
Proof.
  destruct (valid_url url) eqn:Hvalid.
  - by destruct (first_page_text_run env url force w Hvalid) as (text & w' & -> & _ & Hd).
  - unfold PdfParser.extract_first_page_text, bind, PdfParser.download_pdf.
    fold (valid_url url). rewrite Hvalid. apply same_dirs_refl.
Qed.

Lemma after_print_dirs (ev : event) (w w' : World) :
  same_dirs w w' → same_dirs w (after_print ev w').
Proof. intros (?&?&?). by repeat split. Qed.

Lemma step_pdf_text_dirs (env : Env) (doc m : dict) (w : World) :
  same_dirs w (Preprocess.step_pdf_text env doc m w).2.
Proof.
  unfold Preprocess.step_pdf_text. destruct (json_truthy _); [|apply same_dirs_refl].
  unfold try_except, bind.
  destruct (dict_get_or "url_pdf" JNull doc) as [|b|z|u|items|members];
    try (unfold raise; rewrite print_run; apply after_print_dirs, same_dirs_refl).
  pose proof (first_page_text_dirs env u false w) as Hd.
  destruct (PdfParser.extract_first_page_text env u false w) as [[text|e] w1]; [exact Hd|].
  rewrite print_run. by apply after_print_dirs.
Qed.

Lemma llm_extract_dirs (env : Env) (text prompt : string) (w : World) :
  same_dirs w (LlmExtract.extract_metadata env text prompt w).2.
Proof. rewrite llm_extract_run. by repeat split. Qed.

Lemma llm_step_dirs {A} (env : Env) (text prompt : string) (k : json → M A)
    (h : exn → M A) (w : World) :
  (∀ v w0, (k v w0).2 = w0) →
  (∀ e w0, same_dirs w0 (h e w0).2) →
  same_dirs w (try_except (bind (LlmExtract.extract_metadata env text prompt) k) h w).2.
Proof.
  intros Hk Hh. unfold try_except, bind. rewrite llm_extract_run.
  destruct (reply_value env _) as [v|e].
  - specialize (Hk v (after_call w)). destruct (k v (after_call w)) as [[a|e] w1]; cbn in Hk; subst.
    + by repeat split.
    + destruct (Hh e (after_call w)) as (?&?&?); by repeat split.
  - destruct (Hh e (after_call w)) as (?&?&?); by repeat split.
Qed.

Lemma step_llm_dirs (env : Env) (doc m : dict) (w : World) :
  same_dirs w (Preprocess.step_llm env doc m w).2.
Proof.
  assert (∀ what w0, same_dirs w0 ((print (Warn what (dict_get "arxiv_id" doc)) ;; ret m)%run w0).2)
    as Hh by (intros; by repeat split).
  unfold Preprocess.step_llm.
  destruct (Preprocess.item "pdf_raw" m) as [|b|z|[|c r]|items|members];
    try (destruct (Preprocess.item "abstract" m);
         first [ apply llm_step_dirs;
                 [ intros v w0; unfold bind, lift;
                   destruct (Preprocess.py_get "keywords" _ v); [|reflexivity];
                   destruct (Preprocess.py_get "summary" _ v); reflexivity
                 | intros e w0; exact (Hh _ w0) ]
               | unfold try_except, bind, raise; exact (Hh _ w) ]).
  apply llm_step_dirs.
  - intros v w0. unfold bind, lift.
    destruct (Preprocess.py_get "affiliations" _ v); [|reflexivity].
    destruct (Preprocess.py_get "keywords" _ v); [|reflexivity].
    destruct (Preprocess.py_get "summary" _ v); reflexivity.
  - intros e w0. exact (Hh _ w0).
Qed.

Lemma extract_metadata_dirs (env : Env) (doc : dict) (w : World) :
  same_dirs w (Preprocess.extract_metadata env doc w).2.
Proof.
  unfold Preprocess.extract_metadata, bind, lift.
  destruct (Preprocess.py_strip (dict_get_or "title" _ doc)); [|apply same_dirs_refl].
  destruct (Preprocess.py_strip (dict_get_or "abstract" _ doc)); [|apply same_dirs_refl].
  pose proof (detect_language_dirs env (dict_get_or "abstract" (JStr EmptyString) doc) w) as H1.
  destruct (Preprocess.detect_language env _ w) as [[lang|e] w1]; [|exact H1].
  pose proof (step_pdf_text_dirs env doc (Preprocess.base_metadata doc a a0 lang) w1) as H2.
  destruct (Preprocess.step_pdf_text env doc _ w1) as [[m1|e] w2];
    [|by eapply same_dirs_trans].
  pose proof (step_llm_dirs env doc m1 w2) as H3.
  eapply same_dirs_trans; [exact H1|]. eapply same_dirs_trans; [exact H2|exact H3].
Qed.

Lemma enrich_record_dirs (env : Env) (v : json) (w : World) :
  same_dirs w (enrich_record env v w).2.
Proof.
  unfold enrich_record, bind, lift. destruct (Preprocess.as_doc v); [|apply same_dirs_refl].
  apply extract_metadata_dirs.
Qed.

Lemma mapM_dirs {A B} (f : A → M B) (xs : list A) (w : World) :
  (∀ x w0, same_dirs w0 (f x w0).2) → same_dirs w (mapM f xs w).2.
Proof.
  intros Hf. revert w. induction xs as [|x r IH]; intros w; [apply same_dirs_refl|].
  cbn [mapM]. unfold bind. pose proof (Hf x w) as H1.
  destruct (f x w) as [[y|e] w1]; [|exact H1].
  pose proof (IH w1) as H2. destruct (mapM f r w1) as [[ys|e] w2];
    by eapply same_dirs_trans.
Qed.

(** A record that is not well formed stops the enrichment before any
    service is called. *)
Lemma extract_metadata_malformed (env : Env) (doc : dict) (w : World) :
  well_formed_doc doc = false →
  Preprocess.extract_metadata env doc w = (Raises AttributeError, w).
Proof.
  unfold well_formed_doc, Preprocess.extract_metadata, bind, lift.
  destruct (dict_get_or "title" _ doc); cbn [is_str Preprocess.py_strip andb]; try reflexivity.
  destruct (dict_get_or "abstract" _ doc); cbn [is_str Preprocess.py_strip]; try reflexivity.
  discriminate.
Qed.

(** X15.  [extract_metadata] returns exactly for the records whose title
    and abstract, when present, are strings; for any other record it
    raises [AttributeError] before a service is called or a line is
    printed. *)
Theorem enrichment_raises_exactly_on_malformed_text (env : Env) (doc : dict) (w : World) :
  returned (Preprocess.extract_metadata env doc w).1 = well_formed_doc doc
  ∧ (well_formed_doc doc = false →
     Preprocess.extract_metadata env doc w = (Raises AttributeError, w)).
Proof.
  split; [|apply extract_metadata_malformed].
  destruct (well_formed_doc doc) eqn:Hwf.
  - by destruct (extract_metadata_returns env doc w Hwf) as (m & w' & -> & _).
  - by rewrite extract_metadata_malformed.
Qed.




(** *** Files *)

Lemma process_raw_file_dirs (env : Env) (name : string) (w w' : World) :
  Preprocess.process_raw_file env name w = (Returns (), w') →
  ∃ f enriched,
    dir_read name (raw_dir w) = Some f
    ∧ raw_dir w' = dir_unlink name (raw_dir w)
    ∧ processed_dir w'
      = dir_write name (mkFile UTF8 (Preprocess.enriched_text enriched)) (processed_dir w)
    ∧ archive_dir w' = dir_write name f (archive_dir w).
Proof.
  intros (f & records & enriched & w1 & Hf & _ & Hmap & ->)%process_raw_file_inv.
  exists f, enriched. split; [exact Hf|].
  pose proof (mapM_dirs (enrich_record env) records w (enrich_record_dirs env)) as Hd.
  rewrite Hmap in Hd. destruct Hd as (Hr & Hp & Ha). cbn [snd] in *.
  unfold processed_world. cbn [raw_dir processed_dir archive_dir]. by rewrite Hr, Hp, Ha.
Qed.

Lemma process_raw_file_raises (env : Env) (name : string) (w : World) (e : exn) (w' : World) :
  Preprocess.process_raw_file env name w = (Raises e, w') →
  same_dirs w w'
  ∧ (e = FileNotFoundError name ∨ e = JSONDecodeError ∨ e = AttributeError).
Proof.
  unfold Preprocess.process_raw_file. unfold bind at 1, get_world at 1. cbn beta iota.
  destruct (dir_read name (raw_dir w)) as [f|];
    [|intros [= <- <-]; split; [apply same_dirs_refl|auto]].
  unfold bind at 1, lift at 1.
  destruct (load_records (json_loads env) (lines (f_text f))) as [records|e0] eqn:Hrec.
  2:{ intros [= <- <-]. split; [apply same_dirs_refl|]. right. left.
      clear -Hrec. revert Hrec. generalize (lines (f_text f)). intros ls.
      induction ls as [|l r IH]; cbn [load_records]; [discriminate|].
      destruct (nonblank l); [|exact IH]. destruct (json_loads env l); [|by intros [= <-]].
      destruct (load_records (json_loads env) r); [discriminate|].
      cbn [obind]. intros [= <-]. by apply IH. }
  unfold bind at 1.
  pose proof (mapM_dirs (enrich_record env) records w (enrich_record_dirs env)) as Hd.
  unfold enrich_record in Hd.
  destruct (mapM _ records w) as [[enriched|e0] w1] eqn:Hmap; [discriminate|].
  intros [= <- <-]. split; [exact Hd|]. right. right.
  clear -Hmap. revert w Hmap. induction records as [|v r IH]; intros w; [discriminate|].
  cbn [mapM]. unfold bind at 1 2, lift.
  destruct (Preprocess.as_doc v) as [doc|e1] eqn:Hdoc.
  - destruct (well_formed_doc doc) eqn:Hwf.
    + destruct (extract_metadata_returns env doc w Hwf) as (m & w2 & -> & _).
      unfold bind. destruct (mapM _ r w2) as [[ys|e2] w3] eqn:Hr; [discriminate|].
      intros [= ? ?]; subst. by eapply IH.
    + rewrite extract_metadata_malformed by exact Hwf. by intros [= <- _].
  - destruct v; try discriminate; injection Hdoc as <-; by intros [= <- _].
Qed.



(** X18.  When [process_raw_file] returns, the staging file has moved:
    it is gone from [data/raw], [data/archive] holds it under the same
    name with the text it had, and no other file of [data/raw],
    [data/processed] and [data/archive] has changed. *)
Theorem processed_file_is_archived_unchanged (env : Env) (name : string) (w w' : World) :
  Preprocess.process_raw_file env name w = (Returns (), w') →
  ∃ f,
    dir_read name (raw_dir w) = Some f
    ∧ dir_read name (raw_dir w') = None
    ∧ dir_read name (archive_dir w') = Some f
    ∧ is_Some (dir_read name (processed_dir w'))
    ∧ ∀ other, other ≠ name →
        dir_read other (raw_dir w') = dir_read other (raw_dir w)
        ∧ dir_read other (processed_dir w') = dir_read other (processed_dir w)
        ∧ dir_read other (archive_dir w') = dir_read other (archive_dir w).
Proof.
  intros (f & enriched & Hf & -> & -> & ->)%process_raw_file_dirs. exists f.
  split; [exact Hf|]. split; [apply dir_read_unlink|]. split; [apply dir_read_write|].
  split; [rewrite dir_read_write; eauto|].
  intros other Hne. by rewrite dir_read_unlink_ne, !dir_read_write_ne.
Qed.

Lemma processed_file_is_archived_unchanged_witness :
  let w := world_of mixed_raw in
  let w' := (Preprocess.process_raw_file Samples.env_offline Samples.sample_file_name w).2 in
  ∃ f,
    dir_read Samples.sample_file_name (raw_dir w) = Some f
    ∧ dir_read Samples.sample_file_name (raw_dir w') = None
    ∧ dir_read Samples.sample_file_name (archive_dir w') = Some f
    ∧ is_Some (dir_read Samples.sample_file_name (processed_dir w'))
    ∧ ∀ other, other ≠ Samples.sample_file_name →
        dir_read other (raw_dir w') = dir_read other (raw_dir w)
        ∧ dir_read other (processed_dir w') = dir_read other (processed_dir w)
        ∧ dir_read other (archive_dir w') = dir_read other (archive_dir w).
Proof.
  apply (processed_file_is_archived_unchanged Samples.env_offline Samples.sample_file_name
           (world_of mixed_raw)).
  vm_compute. reflexivity.
Defined.

(** *** The batch *)

Lemma process_all_returns (env : Env) (names : list string) (w : World) :
  ∃ w', Preprocess.process_all env names w = (Returns (), w').
Proof.
  revert w. induction names as [|name r IH]; intros w; [by exists w|].
  cbn [Preprocess.process_all]. unfold bind at 1, try_except, bind at 1.
  destruct (Preprocess.process_raw_file env name w) as [[[]|e] w1];
    rewrite print_run; apply IH.
Qed.

(** X19.  [main] never raises: whatever a file holds and whatever the
    services do, the failure of one file is caught and reported, and the
    loop goes on to the next file. *)
Theorem main_never_raises (env : Env) (w : World) :
  ∃ w', Preprocess.main env w = (Returns (), w').
Proof.
  unfold Preprocess.main, bind, get_world.
  destruct (dir_names (glob_jsonl (raw_dir w))) as [|name r] eqn:E.
  - rewrite print_run. eauto.
  - apply process_all_returns.
Qed.

(** The staging files of [raw0] are each in [data/raw] still, or in
    [data/archive] and no longer in [data/raw]. *)
Lemma kept_or_archived_step (env : Env) (raw0 : dir) (name : string) (w : World)
    (o : outcome unit) (w' : World) :
  (∀ n f, dir_read n raw0 = Some f →
          dir_read n (raw_dir w) = Some f
          ∨ (dir_read n (raw_dir w) = None ∧ dir_read n (archive_dir w) = Some f)) →
  Preprocess.process_raw_file env name w = (o, w') →
  ∀ n f, dir_read n raw0 = Some f →
         dir_read n (raw_dir w') = Some f
         ∨ (dir_read n (raw_dir w') = None ∧ dir_read n (archive_dir w') = Some f).
Proof.
  intros Hinv Hrun n f Hn. specialize (Hinv n f Hn). destruct o as [[]|e].
  - apply process_raw_file_dirs in Hrun as (g & enriched & Hg & -> & _ & ->).
    destruct (decide (n = name)) as [->|Hne].
    + right. rewrite dir_read_unlink, dir_read_write. split; [reflexivity|].
      destruct Hinv as [Hin|[Hin _]]; congruence.
    + by rewrite dir_read_unlink_ne, dir_read_write_ne.
  - apply process_raw_file_raises in Hrun as [(-> & _ & ->) _]. exact Hinv.
Qed.

Lemma process_all_keeps_or_archives (env : Env) (raw0 : dir) (names : list string)
    (w : World) (o : outcome unit) (w' : World) :
  (∀ n f, dir_read n raw0 = Some f →
          dir_read n (raw_dir w) = Some f
          ∨ (dir_read n (raw_dir w) = None ∧ dir_read n (archive_dir w) = Some f)) →
  Preprocess.process_all env names w = (o, w') →
  ∀ n f, dir_read n raw0 = Some f →
         dir_read n (raw_dir w') = Some f
         ∨ (dir_read n (raw_dir w') = None ∧ dir_read n (archive_dir w') = Some f).
Proof.
  revert w. induction names as [|name r IH]; intros w Hinv; [by intros [= _ <-]|].
  cbn [Preprocess.process_all]. unfold bind at 1, try_except, bind at 1.
  destruct (Preprocess.process_raw_file env name w) as [o1 w1] eqn:Hrun.
  pose proof (kept_or_archived_step env raw0 name w o1 w1 Hinv Hrun) as Hinv1.
  destruct o1 as [[]|e]; rewrite print_run; intros Hrest; eapply IH; try exact Hrest;
    intros n f Hn; destruct (Hinv1 n f Hn); auto.
Qed.

(** X20.  [main] loses no staging file: every file that was in
    [data/raw] is afterwards either still there, as it was, or gone from
    there and in [data/archive], with the text it had. *)
Theorem main_loses_no_staging_file (env : Env) (w : World) (name : string) (f : file) :
  dir_read name (raw_dir w) = Some f →
  let w' := (Preprocess.main env w).2 in
  dir_read name (raw_dir w') = Some f
  ∨ (dir_read name (raw_dir w') = None ∧ dir_read name (archive_dir w') = Some f).
Proof.
  intros Hf. cbn zeta. destruct (Preprocess.main env w) as [o w'] eqn:Hrun. cbn [snd].
  revert Hrun. unfold Preprocess.main, bind, get_world.
  destruct (dir_names (glob_jsonl (raw_dir w))) as [|n r] eqn:E.
  - rewrite print_run. intros [= _ <-]. by left.
  - intros Hrun.
    apply (process_all_keeps_or_archives env (raw_dir w) (n :: r) w o w'); auto.
Qed.

Lemma main_loses_no_staging_file_witness :
  let w' := (Preprocess.main Samples.env_offline (world_of mixed_raw)).2 in
  dir_read bad_file_name (raw_dir w') = Some (mkFile UTF8 "{not json")
  ∨ (dir_read bad_file_name (raw_dir w') = None
     ∧ dir_read bad_file_name (archive_dir w') = Some (mkFile UTF8 "{not json")).
Proof.
  apply (main_loses_no_staging_file Samples.env_offline (world_of mixed_raw) bad_file_name).
  reflexivity.
Defined.

End EnricherMore.

(** ** From the harvester to the enricher *)

Section HarvestToEnrich.
Import Sys Crawler SpecStages.








End HarvestToEnrich.

(** ** The index builder: failures *)

Section IndexMore.
Import BuildIndex SpecIndex SpecStages.
Context {vec : Type}.
Implicit Types (env : Env vec) (d : dir) (df : DataFrame).





(** X22.  A merge that raises has changed nothing in [data/processed]:
    no snapshot was written and no batch deleted; and a build whose merge
    raises ends with the same exception and leaves the whole store,
    index files included, as it was. *)
Theorem failed_merge_changes_nothing env (limit : option Z) d (e : exn) d' :
  merge_and_deduplicate env limit d = (Raises e, d') →
  d' = d
  ∧ ∀ model_name (st : Store vec),
      processed st = d → build_index env model_name limit st = (Raises e, st).
Proof.
  intros Hmerge.
  assert (d' = d) as ->.
  { revert Hmerge. unfold merge_and_deduplicate. destruct (glob_jsonl d); [by intros [= _ <-]|].
    destruct (obind _ _); [discriminate|by intros [= _ <-]]. }
  split; [reflexivity|]. intros model_name [p em me ix] Hp. cbn [processed] in Hp. subst p.
  unfold build_index. cbn [processed]. rewrite Hmerge. reflexivity.
Qed.



End IndexMore.

Section IndexMoreSamples.
Import BuildIndex SpecIndex SpecStages.

Lemma failed_merge_changes_nothing_witness :
  (merge_and_deduplicate sample_env None corrupt_processed).1 = Raises JSONDecodeError
  ∧ (merge_and_deduplicate sample_env None corrupt_processed).2 = corrupt_processed
  ∧ ∀ model_name (st : Store nat),
      processed st = corrupt_processed →
      build_index sample_env model_name None st = (Raises JSONDecodeError, st).
Proof.
  split; [vm_compute; reflexivity|].
  apply (failed_merge_changes_nothing sample_env None corrupt_processed JSONDecodeError).
  vm_compute. reflexivity.
Defined.



End IndexMoreSamples.

(** ** The index builder: what is kept and what is touched *)

Section IndexKeeps.
Import BuildIndex SpecIndex SpecStages.
Context {vec : Type}.
Implicit Types (env : Env vec) (d : dir) (df : DataFrame).

Lemma keys_of_cons_inv (col : string) (r : dict) (rest : list dict) (ks : list idkey) :
  keys_of col (r :: rest) = Returns ks →
  ∃ k ks', id_key (dict_get_or col JNull r) = Returns k
           ∧ keys_of col rest = Returns ks' ∧ ks = k :: ks'.
Proof.
  cbn [keys_of]. destruct (id_key _) as [k|e]; [|discriminate]. cbn [obind].
  destruct (keys_of col rest) as [ks'|e]; [|discriminate]. cbn [obind].
  intros [= <-]. by exists k, ks'.
Qed.

Lemma keep_first_with_id (seen : list idkey) (rs : list dict) (ks : list idkey) (k : idkey) :
  keys_of "arxiv_id" rs = Returns ks →
  rows_with_id k (keep_first seen (zip ks rs))
  = if decide (k ∈ seen) then [] else take 1 (rows_with_id k rs).
Proof.
  revert seen ks. induction rs as [|r rest IH]; intros seen ks Hks.
  - injection Hks as <-. by destruct (decide (k ∈ seen)).
  - apply keys_of_cons_inv in Hks as (k0 & ks' & Hk0 & Hks' & ->).
    assert (has_id k r = bool_decide (k0 = k)) as Hr by (unfold has_id; by rewrite Hk0).
    cbn [zip zip_with keep_first]. unfold rows_with_id in *.
    rewrite (filter_cons _ r rest).
    destruct (decide (k0 ∈ seen)) as [Hseen|Hseen].
    + rewrite bool_decide_true by exact Hseen. rewrite (IH seen ks' Hks').
      destruct (decide (has_id k r = true)) as [Hd|Hd]; [|reflexivity].
      rewrite Hr in Hd. apply bool_decide_eq_true in Hd as ->.
      by destruct (decide (k ∈ seen)).
    + rewrite bool_decide_false by exact Hseen. rewrite filter_cons.
      rewrite (IH (k0 :: seen) ks' Hks').
      destruct (decide (has_id k r = true)) as [Hd|Hd]; rewrite Hr in Hd.
      * apply bool_decide_eq_true in Hd as ->.
        destruct (decide (k ∈ k :: seen)) as [_|Hn]; [|destruct Hn; apply list_elem_of_here].
        by destruct (decide (k ∈ seen)).
      * destruct (decide (k ∈ k0 :: seen)) as [Hin|Hin], (decide (k ∈ seen)) as [Hin'|Hin'];
          try reflexivity.
        -- apply elem_of_cons in Hin as [->|Hin]; [|done].
           by rewrite bool_decide_true in Hd.
        -- exfalso. apply Hin. by apply list_elem_of_further.
Qed.

Lemma keep_first_sublist (seen : list idkey) (rs : list dict) (ks : list idkey) :
  keep_first seen (zip ks rs) `sublist_of` rs.
Proof.
  revert seen rs. induction ks as [|k ks IH]; intros seen [|r rs];
    try apply sublist_nil_l.
  cbn [zip zip_with keep_first]. destruct (bool_decide (k ∈ seen)).
  - apply sublist_cons, IH.
  - apply sublist_skip, IH.
Qed.

(** X25.  Of the records that share an identifier the merge keeps the
    first one, in the order in which the batches are listed and their
    lines read, and it keeps the order of the records; a limit then cuts
    this list off.  Records without identifier count as sharing one. *)
Theorem merge_keeps_first_record_per_identifier env (limit : option Z) d df d' :
  merge_and_deduplicate env limit d = (Returns df, d') →
  ∃ records table kept n,
    read_files env (glob_jsonl d) = Returns records
    ∧ frame_of_records records = Returns table
    ∧ kept `sublist_of` rows table
    ∧ (∀ k, rows_with_id k kept = take 1 (rows_with_id k (rows table)))
    ∧ rows df = take n kept.
Proof.
  intros (records & table & unique & _ & Hread & Hframe & Hdup & -> & _)%merge_inv.
  apply drop_duplicates_inv in Hdup as (_ & ks & Hks & ->).
  destruct (apply_limit_take limit (mkFrame (columns table)
                                      (keep_first [] (zip ks (rows table))))) as [n Hn].
  exists records, table, (keep_first [] (zip ks (rows table))), n.
  split; [exact Hread|]. split; [exact Hframe|]. split; [apply keep_first_sublist|].
  split; [|by rewrite Hn].
  intros k. rewrite (keep_first_with_id [] _ ks k Hks).
  destruct (decide (k ∈ [])) as [H|_]; [by apply elem_of_nil in H|reflexivity].
Qed.








Lemma keys_of_raises (col : string) (rs : list dict) (e : exn) :
  keys_of col rs = Raises e → e = TypeError.
Proof.
  induction rs as [|r rest IH]; [discriminate|]. cbn [keys_of].
  destruct (dict_get_or col JNull r); cbn [id_key obind]; try by intros [= <-].
  all: destruct (keys_of col rest); [discriminate|]; cbn [obind]; intros [= <-]; by apply IH.
Qed.

Lemma encode_raises (model : Encoder vec) (texts : list json) (e : exn) :
  encode model texts = Raises e → e = TypeError.
Proof.
  induction texts as [|t r IH]; [discriminate|]. cbn [encode].
  destruct t; try by intros [= <-].
  destruct (encode model r); [discriminate|]. cbn [obind]. intros [= <-]. by apply IH.
Qed.



(** X27.  A build that raises never leaves a new index behind: the
    index file is as it was before, and so is the metadata file unless
    the exception is the [IndexError] of an empty embedding matrix, which
    is raised after the metadata was written. *)
Theorem failed_build_keeps_old_index env (model_name : string) (limit : option Z)
    (st : Store vec) (e : exn) (st' : Store vec) :
  build_index env model_name limit st = (Raises e, st') →
  faiss_index st' = faiss_index st
  ∧ (e ≠ IndexError → metadata_jsonl st' = metadata_jsonl st).
Proof.
  unfold build_index.
  destruct (merge_and_deduplicate env limit (processed st)) as [[df|e0] d1];
    [|by intros [= <- <-]].
  destruct (column_filled _ _ df) as [texts|e0]; [|by intros [= <- <-]].
  destruct (load_model env model_name) as [model|]; [|by intros [= <- <-]].
  destruct (encode model texts) as [embeddings|e0]; [|by intros [= <- <-]].
  destruct (select metadata_fields df) as [df_meta|e0]; [|by intros [= <- <-]].
  destruct embeddings; [|discriminate]. by intros [= <- <-].
Qed.


Lemma enriched_frame (ms : list dict) :
  ms ≠ [] → Forall (λ m, dict_keys m = enriched_keys) ms →
  frame_of_records (map JObj ms)
  = Returns (mkFrame enriched_keys (map (reindex enriched_keys) ms)).
Proof.
  intros Hne Hkeys. unfold frame_of_records. rewrite all_dicts_objects. cbn [obind].
  assert (union_columns [] ms = enriched_keys) as ->; [|reflexivity].
  destruct Hkeys as [|m r Hm Hr]; [done|]. cbn [union_columns]. rewrite Hm.
  change (add_keys [] enriched_keys) with enriched_keys. by apply union_columns_known.
Qed.

(** X29.  Batches of enriched records never make the build fail on a
    missing column: when every line is read as an object with the keys
    of an enriched record, the identifier, the abstract and every
    metadata field are columns of the merged frame, so that the build
    raises no [KeyError]. *)
Theorem enriched_batches_have_every_column env (model_name : string) (limit : option Z)
    (st : Store vec) (ms : list dict) :
  read_files env (glob_jsonl (processed st)) = Returns (map JObj ms) →
  ms ≠ [] →
  Forall (λ m, dict_keys m = enriched_keys) ms →
  (∀ df d', merge_and_deduplicate env limit (processed st) = (Returns df, d') →
            columns df = enriched_keys)
  ∧ ∀ k, (build_index env model_name limit st).1 ≠ Raises (KeyError k).
Proof.
  intros Hread Hne Hkeys.
  assert (∀ df d', merge_and_deduplicate env limit (processed st) = (Returns df, d') →
                   columns df = enriched_keys) as Hcols.
  { intros df d' (records & table & unique & _ & Hread' & Hframe & Hdup & -> & _)%merge_inv.
    rewrite Hread in Hread'. injection Hread' as <-.
    rewrite (enriched_frame ms Hne Hkeys) in Hframe. injection Hframe as <-.
    apply drop_duplicates_inv in Hdup as (_ & ks & _ & ->).
    match goal with
    | |- columns (apply_limit limit ?X) = _ => by destruct (apply_limit_take limit X) as [n ->]
    end. }
  split; [exact Hcols|]. intros k. unfold build_index.
  destruct (merge_and_deduplicate env limit (processed st)) as [[df|e0] d1] eqn:Hmerge.
  2:{ cbn [fst]. intros [= ->]. revert Hmerge. unfold merge_and_deduplicate.
      destruct (glob_jsonl (processed st)); [discriminate|].
      rewrite Hread. cbn [obind]. rewrite (enriched_frame ms Hne Hkeys). cbn [obind].
      unfold drop_duplicates. cbn [columns rows].
      change (bool_decide ("arxiv_id" ∈ enriched_keys)) with true. cbv iota.
      destruct (keys_of _ _) as [ks|e0] eqn:Hks; cbn [obind]; [discriminate|].
      intros [= He _]. apply keys_of_raises in Hks. congruence. }
  unfold column_filled, select. rewrite (Hcols df d1 eq_refl).
  change (bool_decide ("abstract" ∈ enriched_keys)) with true. cbv iota.
  change (first_missing metadata_fields enriched_keys) with (@None string). cbv iota.
  destruct (load_model env model_name) as [model|]; [|cbn; discriminate].
  destruct (encode model _) as [embeddings|e0] eqn:Henc.
  2:{ cbn [fst]. intros [= ->]. by apply encode_raises in Henc. }
  destruct embeddings; cbn; discriminate.
Qed.

End IndexKeeps.

Section IndexKeepsSamples.
Import BuildIndex SpecIndex SpecStages.

Lemma merge_keeps_first_record_per_identifier_witness :
  ∃ df d',
    merge_and_deduplicate sample_env (Some 2) sample_processed = (Returns df, d')
    ∧ ∃ records table kept n,
        read_files sample_env (glob_jsonl sample_processed) = Returns records
        ∧ frame_of_records records = Returns table
        ∧ kept `sublist_of` rows table
        ∧ (∀ k, rows_with_id k kept = take 1 (rows_with_id k (rows table)))
        ∧ rows df = take n kept.
Proof.
  eexists _, _. split; [vm_compute; reflexivity|].
  eapply (merge_keeps_first_record_per_identifier sample_env (Some 2) sample_processed).
  vm_compute. reflexivity.
Defined.


Lemma failed_build_keeps_old_index_witness :
  let r := build_index bare_env "paraphrase-multilingual-MiniLM-L12-v2" None bare_store in
  r.1 = Raises (KeyError "title")
  ∧ embeddings_npy r.2 = Some [16%nat]
  ∧ faiss_index r.2 = faiss_index bare_store
  ∧ (KeyError "title" ≠ IndexError → metadata_jsonl r.2 = metadata_jsonl bare_store).
Proof.
  split; [vm_compute; reflexivity|]. split; [vm_compute; reflexivity|].
  apply (failed_build_keeps_old_index bare_env "paraphrase-multilingual-MiniLM-L12-v2" None
           bare_store (KeyError "title")).
  vm_compute. reflexivity.
Defined.


Lemma enriched_batches_have_every_column_witness :
  (∀ df d', merge_and_deduplicate sample_env None (processed sample_store) = (Returns df, d') →
            columns df = enriched_keys)
  ∧ ∀ k, (build_index sample_env "paraphrase-multilingual-MiniLM-L12-v2" None sample_store).1
         ≠ Raises (KeyError k).
Proof.
  apply (enriched_batches_have_every_column sample_env "paraphrase-multilingual-MiniLM-L12-v2"
           None sample_store [row_1; row_2; row_1'; row_3]).
  - vm_compute. reflexivity.
  - discriminate.
  - repeat constructor.
Defined.

End IndexKeepsSamples.

(** ** The name of a cached PDF *)

Section PdfKeyMore.
Import PdfKey SpecStages.

Lemma tail_of_refl (s : string) : tail_of s s.
Proof. by exists EmptyString. Qed.

Lemma tail_of_cons (c : ascii) (r s : string) : tail_of r s → tail_of r (String c s).
Proof. intros [pre ->]. by exists (String c pre). Qed.

Lemma tail_of_trans (r s t : string) : tail_of r s → tail_of s t → tail_of r t.
Proof. intros [p1 ->] [p2 ->]. exists (p2 +:+ p1). by rewrite sapp_assoc. Qed.

Lemma tail_of_chars (c : ascii) (r s : string) : tail_of r s → c ∈ chars r → c ∈ chars s.
Proof. intros [pre ->] Hc. rewrite chars_app. apply elem_of_app. by right. Qed.

Lemma sound_cls {A} (p : ascii → bool) : sound (@cls A p).
Proof.
  intros [|c r] k x; [discriminate|]. cbn [cls]. destruct (p c); [|discriminate].
  intros Hk. exists r. split; [apply tail_of_cons, tail_of_refl|exact Hk].
Qed.

Lemma sound_seq {A} (a b : matcher A) : sound a → sound b → sound (seq a b).
Proof.
  intros Ha Hb s k x (r1 & Hr1 & (r2 & Hr2 & Hk)%Hb)%Ha.
  exists r2. split; [by eapply tail_of_trans|exact Hk].
Qed.

Lemma sound_text {A} (t : string) : sound (@text A t).
Proof.
  induction t as [|c t IH]; cbn [text].
  - intros s k x Hk. exists s. split; [apply tail_of_refl|exact Hk].
  - apply sound_seq; [apply sound_cls|exact IH].
Qed.

Lemma sound_opt {A} (a : matcher A) : sound a → sound (opt a).
Proof.
  intros Ha s k x. unfold opt. destruct (a s k) as [y|] eqn:E.
  - intros [= <-]. by apply Ha.
  - intros Hk. exists s. split; [apply tail_of_refl|exact Hk].
Qed.

Lemma sound_rep {A} (n : nat) (a : matcher A) : sound a → sound (rep n a).
Proof.
  intros Ha. induction n as [|n IH]; cbn [rep].
  - intros s k x Hk. exists s. split; [apply tail_of_refl|exact Hk].
  - by apply sound_seq.
Qed.

Lemma sound_plus {A} (p : ascii → bool) : sound (@plus A p).
Proof.
  intros s k x. induction s as [|c r IH]; cbn [plus]; [discriminate|].
  destruct (p c); [|discriminate]. destruct (plus p r k) as [y|] eqn:E.
  - intros [= <-]. destruct (IH eq_refl) as (r' & Hr' & Hk).
    exists r'. split; [by apply tail_of_cons|exact Hk].
  - intros Hk. exists r. split; [apply tail_of_cons, tail_of_refl|exact Hk].
Qed.

Lemma sound_group_1 {A} : sound (@group_1 A).
Proof.
  unfold group_1.
  apply sound_seq; [apply sound_rep, sound_cls|].
  apply sound_seq; [apply sound_cls|].
  apply sound_seq; [apply sound_rep, sound_cls|].
  apply sound_seq; [apply sound_opt, sound_cls|].
  apply sound_opt, sound_seq; [apply sound_cls|].
  apply sound_seq; [apply sound_cls|apply sound_plus].
Qed.

(** What follows the group begins with a backslash. *)
Lemma tail_backslash {A} (s : string) (k : string → option A) (x : A) :
  tail s k = Some x → backslash ∈ chars s.
Proof.
  destruct s as [|c r]; [discriminate|]. unfold tail, seq, lit, cls.
  destruct (Ascii.eqb_spec backslash c) as [<-|]; [|discriminate].
  intros _. apply list_elem_of_here.
Qed.

Lemma match_here_backslash (s g : string) : match_here s = Some g → backslash ∈ chars s.
Proof.
  unfold match_here.
  intros (from & Hfrom & (rest & Hrest & Htail)%sound_group_1)%sound_text.
  apply tail_backslash in Htail. eauto using tail_of_chars.
Qed.

Lemma search_backslash (s g : string) : search s = Some g → backslash ∈ chars s.
Proof.
  induction s as [|c r IH]; cbn [search].
  - destruct (match_here EmptyString) eqn:E; [|discriminate].
    intros _. by eapply match_here_backslash.
  - destruct (match_here (String c r)) eqn:E.
    + intros _. by eapply match_here_backslash.
    + intros H. apply list_elem_of_further, IH, H.
Qed.

(** The pattern does match, and the first group is cut out, when the
    backslashes it asks for are there. *)
Example pattern_wants_backslashes :
  search "https://arxiv.org/pdf/2401.12345v\d\.pdf" = Some "2401.12345v\d"
  ∧ search "https://arxiv.org/pdf/2401.1234\_pdf" = Some "2401.1234"
  ∧ search "https://arxiv.org/pdf/2401.12345v2.pdf" = None.
Proof. repeat split; vm_compute; reflexivity. Qed.

(** X30.  The pattern of [_extract_arxiv_id_from_url] asks for a
    backslash before the last character in front of [pdf], so that no
    address without a backslash matches it: for every such address,
    those of the docstring among them, the name of the cached file is
    the first twelve digits of the MD5 digest of the address, not the
    arXiv identifier. *)
Theorem plain_addresses_are_keyed_by_digest (md5_hexdigest : string → string)
    (url_pdf : string) :
  backslash ∉ chars url_pdf →
  search url_pdf = None
  ∧ _extract_arxiv_id_from_url md5_hexdigest url_pdf = slice_to 12 (md5_hexdigest url_pdf).
Proof.
  intros Hno.
  assert (search url_pdf = None) as Hs.
  { destruct (search url_pdf) as [g|] eqn:E; [|reflexivity].
    destruct Hno. by eapply search_backslash. }
  split; [exact Hs|]. unfold _extract_arxiv_id_from_url. by rewrite Hs.
Qed.

Lemma plain_addresses_are_keyed_by_digest_witness :
  search "https://arxiv.org/pdf/2401.12345v2.pdf" = None
  ∧ _extract_arxiv_id_from_url sample_md5 "https://arxiv.org/pdf/2401.12345v2.pdf"
    = "9e107d9d372b".
Proof.
  apply (plain_addresses_are_keyed_by_digest sample_md5 "https://arxiv.org/pdf/2401.12345v2.pdf").
  vm_compute. intros H. repeat (apply elem_of_cons in H as [H|H]; [discriminate H|]).
  by apply elem_of_nil in H.
Defined.

End PdfKeyMore.
